(** * Low-Expectations dashboard: season normalisation, analytics and payouts

    A shallow embedding of the Python services
    [services/espn_dashboard.py], [services/analytics.py],
    [services/payout_service.py] and of the tables in [config/team_map.py],
    followed by the properties of the specification that concern them.

    Modelling conventions.
    - Python [int] is [Z]; a Python [float] (scores, point totals) is a
      rational [Q], compared with the order of [Q]; NaN and the infinities
      are outside the model.  Money is a sum of the integer amounts of
      [PAYOUT_STRUCTURE], so it is kept in [Z].
    - A [dict] whose iteration order is observable is an association list in
      insertion order ([odict]); [defaultdict] accesses create the key at
      the end of the list, as CPython does.
    - [sorted] / [list.sort] are stable; [reverse=True] keeps the original
      order of equal keys.
    - Code that can raise lives in the error monad [M]; only [str(e)] of an
      exception is observable in the program, so an exception is its text.
    - The API payloads are typed after the fields the code reads; a key that
      may be missing is an [option]. *)

From Stdlib Require Import ZArith QArith Qround List String Ascii Bool Lia
  Permutation DecimalString Sorted DecimalPos DecimalZ.
Import ListNotations.
Set Warnings "-register-all".
Open Scope string_scope.
Open Scope list_scope.
Open Scope Z_scope.

(* ===================================================================== *)
(** ** Python base layer *)
(* ===================================================================== *)

Module Py.

(** str(int) *)
Definition str_of_Z (z : Z) : string := NilZero.string_of_int (Z.to_int z).

(** [needle in hay] for strings. *)
Fixpoint contains (needle hay : string) : bool :=
  if String.prefix needle hay then true
  else match hay with
       | EmptyString => false
       | String _ rest => contains needle rest
       end.

Definition startswith (p s : string) : bool := String.prefix p s.

Fixpoint rev_string (s : string) : string :=
  match s with
  | EmptyString => EmptyString
  | String c r => (rev_string r ++ String c EmptyString)%string
  end.

Definition endswith (p s : string) : bool :=
  String.prefix (rev_string p) (rev_string s).

(** [s[:n]] *)
Definition slice_to (n : nat) (s : string) : string := String.substring 0 n s.

(** ASCII white space as [str.isspace] sees it. *)
Definition is_space (c : ascii) : bool :=
  let n := nat_of_ascii c in
  ((9 <=? n) && (n <=? 13))%nat || ((28 <=? n) && (n <=? 32))%nat.

Fixpoint lstrip (s : string) : string :=
  match s with
  | EmptyString => EmptyString
  | String c r => if is_space c then lstrip r else s
  end.

(** [str.strip()] *)
Definition strip (s : string) : string :=
  rev_string (lstrip (rev_string (lstrip s))).

(** Truth value of a string: non-empty. *)
Definition str_truthy (s : string) : bool :=
  match s with EmptyString => false | _ => true end.

(** [a or b] on strings. *)
Definition str_or (a b : string) : string := if str_truthy a then a else b.

(** [x > y] and [x <= y] on floats. *)
Definition Qgtb (x y : Q) : bool :=
  match Qcompare x y with Gt => true | _ => false end.

Definition Qleb (x y : Q) : bool := negb (Qgtb x y).

(** [round(x, ndigits)]: to the nearest multiple of [10^-ndigits], halves to
    the even neighbour. *)
Definition round_half_even (q : Q) : Z :=
  let f := Qfloor q in
  match Qcompare (q - inject_Z f) (1 # 2) with
  | Lt => f
  | Gt => f + 1
  | Eq => if Z.even f then f else f + 1
  end.

Definition round_nd (nd : Z) (q : Q) : Q :=
  let p := 10 ^ nd in
  Qmake (round_half_even (q * inject_Z p)) (Z.to_pos p).

Definition round2 (q : Q) : Q := round_nd 2 q.
Definition round3 (q : Q) : Q := round_nd 3 q.

(** [sum(xs)] *)
Definition Zsum (l : list Z) : Z := fold_left Z.add l 0.
Definition Qsum (l : list Q) : Q := fold_left Qplus l (0 # 1).

Definition Zlen {A} (l : list A) : Z := Z.of_nat (List.length l).

(** [statistics.mean]; only called on non-empty lists. *)
Definition mean (l : list Q) : Q := Qsum l / inject_Z (Zlen l).

(** [max(xs)] / [min(xs)] on a non-empty list: the first extremal element. *)
Definition max_by {A} (gt : A -> A -> bool) (x : A) (l : list A) : A :=
  fold_left (fun best y => if gt y best then y else best) l x.

Definition Qmax_list (x : Q) (l : list Q) : Q := max_by Qgtb x l.
Definition Qmin_list (x : Q) (l : list Q) : Q :=
  max_by (fun a b => Qgtb b a) x l.

(** Stable sorting by a comparison [leb x y] ("x may stay in front of y"). *)
Section Sorting.
Context {A : Type} (leb : A -> A -> bool).

Fixpoint insert_sorted (x : A) (l : list A) : list A :=
  match l with
  | [] => [x]
  | y :: r => if leb x y then x :: y :: r else y :: insert_sorted x r
  end.

Fixpoint sort_stable (l : list A) : list A :=
  match l with
  | [] => []
  | x :: r => insert_sorted x (sort_stable r)
  end.

End Sorting.

(** [sorted(l, key=key)] with integer keys. *)
Definition sorted_by {A} (key : A -> Z) (l : list A) : list A :=
  sort_stable (fun x y => key x <=? key y) l.

(** [sorted(l, key=key, reverse=True)] with integer keys. *)
Definition sorted_by_desc {A} (key : A -> Z) (l : list A) : list A :=
  sort_stable (fun x y => key y <=? key x) l.

(** The same with float keys. *)
Definition sorted_byQ {A} (key : A -> Q) (l : list A) : list A :=
  sort_stable (fun x y => Qleb (key x) (key y)) l.

Definition sorted_byQ_desc {A} (key : A -> Q) (l : list A) : list A :=
  sort_stable (fun x y => Qleb (key y) (key x)) l.

(** Insertion-ordered dictionaries. *)
Abbreviation odict K V := (list (K * V)) (only parsing).

Section ODict.
Context {K V : Type} (keqb : K -> K -> bool).

Fixpoint od_get (d : odict K V) (k : K) : option V :=
  match d with
  | [] => None
  | (k', v) :: r => if keqb k k' then Some v else od_get r k
  end.

(** [d[k] = v]: in place when the key exists, at the end otherwise. *)
Fixpoint od_set (d : odict K V) (k : K) (v : V) : odict K V :=
  match d with
  | [] => [(k, v)]
  | (k', v') :: r =>
      if keqb k k' then (k', v) :: r else (k', v') :: od_set r k v
  end.

(** [d.get(k, dflt)] *)
Definition od_get_or (dflt : V) (d : odict K V) (k : K) : V :=
  match od_get d k with Some v => v | None => dflt end.

(** [d[k] = f(d[k])] on a [defaultdict] whose factory returns [dflt]. *)
Definition od_upd (dflt : V) (d : odict K V) (k : K) (f : V -> V)
    : odict K V :=
  od_set d k (f (od_get_or dflt d k)).

Definition od_mem (d : odict K V) (k : K) : bool :=
  match od_get d k with Some _ => true | None => false end.

End ODict.

Definition opt_or {A} (o : option A) (d : A) : A :=
  match o with Some x => x | None => d end.

End Py.

Import Py.

(** The error monad: [inl msg] is a raised [Exception] whose [str] is
    [msg]. *)
Definition M (A : Type) : Type := (string + A)%type.
Definition ret {A} (x : A) : M A := inr x.
Definition raise {A} (msg : string) : M A := inl msg.
Definition bind {A B} (c : M A) (k : A -> M B) : M B :=
  match c with inl e => inl e | inr x => k x end.

Notation "x <- c ;; k" := (bind c (fun x => k))
  (at level 61, c at next level, right associativity).

Fixpoint mapM {A B} (f : A -> M B) (l : list A) : M (list B) :=
  match l with
  | [] => ret []
  | x :: r => y <- f x ;; ys <- mapM f r ;; ret (y :: ys)
  end.

(* ===================================================================== *)
(** ** config/team_map.py *)
(* ===================================================================== *)

Module Config.

Definition TEAM_ID_MAP : list (Z * string) :=
  [ (1, "seahawks"); (2, "numbnuts"); (3, "stamford"); (4, "cmb3dan");
    (5, "devonta"); (6, "bumcrumbs"); (7, "mitchell"); (8, "metzler");
    (9, "kenney"); (10, "mahoms") ].

Definition OWNER_UUID_MAP : list (string * string) :=
  [ ("{AF006F6B-9B81-4A84-B095-9071460336CF}", "Dan Costa");
    ("{8C478935-D2DF-4937-BB1D-218E38E699A7}", "Greg Costa");
    ("{8265642-4B76-4353-961E-565FC38C63DB}", "Scott Mackie");
    ("{145F0780-1FAE-4E55-8715-C78F7553A8F1}", "Dan S");
    ("{39A92573-7DF4-4244-90DA-BFCDDB2973BB}", "Joe Costa");
    ("{B073C55B-C009-46F0-95AA-0B20D243D8CA}", "Phat Johnson");
    ("{4C1E58FF-3F1C-4091-9034-3918B5BA5031}", "Timothy Mitchell");
    ("{EBF01626-4DE0-405A-B016-264DE0205AE1}", "Andrew Flaherty") ].

Definition TEAM_TO_OWNER_MAP : list (string * string) :=
  [ ("seahawks", "Dan Costa"); ("numbnuts", "Greg Costa");
    ("stamford", "Scott Mackie"); ("cmb3dan", "Dan S");
    ("devonta", "Joe Costa"); ("bumcrumbs", "Phat Johnson");
    ("mitchell", "Timothy Mitchell"); ("metzler", "Andrew Flaherty");
    ("kenney", "Brian Kenney"); ("mahoms", "Connor Flaherty") ].

End Config.

(* ===================================================================== *)
(** ** services/espn_dashboard.py *)
(* ===================================================================== *)

Module Espn.

(** *** Identity resolution *)

(** The values the resolver may be handed ([owner_data : Any]). *)
Inductive PyVal : Type :=
| PNone
| PBool (b : bool)
| PInt (z : Z)
| PFloat (q : Q)
| PStr (s : string)
| PList (l : list PyVal)
| PDict (d : list (string * PyVal)).

Definition UNKNOWN_OWNER : string := "Unknown Owner".

(** [ESPNDashboardService._get_owner_name] *)
Definition _get_owner_name (owner_data : PyVal) : PyVal :=
  match owner_data with
  | PStr s =>
      let unmapped :=
        if startswith "{" s && endswith "}" s
        then PStr ("Owner " ++ slice_to 8 s ++ "...")%string
        else PStr s in
      match od_get String.eqb Config.OWNER_UUID_MAP s with
      | Some mapped_name =>
          if str_truthy mapped_name then PStr mapped_name else unmapped
      | None => unmapped
      end
  | PDict d =>
      let first_name := od_get_or String.eqb (PStr "Unknown") d "firstName" in
      od_get_or String.eqb first_name d "displayName"
  | _ => PStr UNKNOWN_OWNER
  end.

(** The integer key a value hashes and compares equal to, for a lookup in
    a dict with [int] keys; lists and dicts are unhashable. *)
Definition int_key (v : PyVal) : M (option Z) :=
  match v with
  | PInt z => ret (Some z)
  | PBool b => ret (Some (if b then 1 else 0))
  | PFloat q =>
      ret (if Qeq_bool q (inject_Z (Qfloor q)) then Some (Qfloor q) else None)
  | PNone | PStr _ => ret None
  | PList _ => raise "unhashable type: 'list'"
  | PDict _ => raise "unhashable type: 'dict'"
  end.

(** [ESPNDashboardService._map_team_to_owner] *)
Definition _map_team_to_owner (team_id : PyVal) : M string :=
  k <- int_key team_id ;;
  let team_key :=
    match k with
    | Some z => od_get Z.eqb Config.TEAM_ID_MAP z
    | None => None
    end in
  match team_key with
  | Some tk =>
      if str_truthy tk
      then ret (od_get_or String.eqb UNKNOWN_OWNER Config.TEAM_TO_OWNER_MAP tk)
      else ret UNKNOWN_OWNER
  | None => ret UNKNOWN_OWNER
  end.

(** *** Payloads of the external API, as far as the code reads them *)

(** [team["record"]["overall"]] *)
Record RawRecord : Type := mkRawRecord {
  rr_wins : option Z;
  rr_losses : option Z;
  rr_ties : option Z;
  rr_pointsFor : option Q;
  rr_pointsAgainst : option Q
}.

Definition empty_record : RawRecord := mkRawRecord None None None None None.

Record RawTeam : Type := mkRawTeam {
  rt_id : option Z;
  rt_name : option string;
  rt_location : option string;
  rt_nickname : option string;
  rt_overall : option RawRecord;   (* [record.overall]; None when either is missing *)
  rt_playoffSeed : option Z;
  rt_rankCalculatedFinal : option Z
}.

(** The empty dict [{}] read as a team. *)
Definition empty_raw_team : RawTeam :=
  mkRawTeam None None None None None None None.

Record RawSide : Type := mkRawSide {
  rs_teamId : option Z;
  rs_totalPoints : option Q
}.

Record RawMatchup : Type := mkRawMatchup {
  rm_matchupPeriodId : option Z;
  rm_playoffTierType : option string;
  rm_away : option RawSide;
  rm_home : option RawSide
}.

(** A decoded response body: a JSON object with the two keys the service
    reads, or a JSON array (on which [.get] does not exist). *)
Inductive JsonBody : Type :=
| JObject (teams : option (list RawTeam)) (schedule : option (list RawMatchup))
| JArray.

Record Response : Type := mkResponse {
  status_code : Z;
  content_type : option string;     (* the Content-Type header *)
  json : M JsonBody                 (* [response.json()], which may raise *)
}.

(** What [requests.get] does: it answers or raises. *)
Inductive HttpOutcome : Type :=
| Responded (r : Response)
| RequestFailed (msg : string).

(** The network: URL and query parameters to outcome. *)
Definition Network : Type := string -> list (string * string) -> HttpOutcome.

Record ServiceConfig : Type := mkConfig {
  LEAGUE_ID : string;
  CURRENT_SEASON : Z;
  START_SEASON : Z
}.

Definition api_hosts : list string :=
  [ "https://lm-api-reads.fantasy.espn.com"; "https://fantasy.espn.com" ].

(** [self.api_path.format(season=..., league=...)] *)
Definition api_path (season : Z) (league : string) : string :=
  ("/apis/v3/games/ffl/seasons/" ++ str_of_Z season
     ++ "/segments/0/leagues/" ++ league)%string.

(** [str(last_error)] *)
Definition str_of_last_error (last_error : option string) : string :=
  opt_or last_error "None".

(** One turn of the host loop: the body on success, the new [last_error]
    otherwise. *)
Definition try_host (net : Network) (url : string)
    (params : list (string * string)) : string + JsonBody :=
  match net url params with
  | RequestFailed e => inl ("Request failed for " ++ url ++ ": " ++ e)%string
  | Responded response =>
      let http_error :=
        ("HTTP " ++ str_of_Z (status_code response) ++ " from " ++ url)%string in
      if status_code response =? 200 then
        if contains "application/json" (opt_or (content_type response) "")
        then match json response with
             | inr body => inr body
             | inl e => inl ("Request failed for " ++ url ++ ": " ++ e)%string
             end
        else inl http_error
      else inl http_error
  end.

Fixpoint request_loop (net : Network) (hosts : list string) (path : string)
    (params : list (string * string)) (last_error : option string)
    : M JsonBody :=
  match hosts with
  | [] => raise ("All API hosts failed. Last error: "
                   ++ str_of_last_error last_error)%string
  | host :: rest =>
      match try_host net (host ++ path)%string params with
      | inr body => ret body
      | inl err => request_loop net rest path params (Some err)
      end
  end.

(** [ESPNDashboardService._make_request], over an explicit host list. *)
Definition make_request_on (hosts : list string) (cfg : ServiceConfig)
    (net : Network) (season : Z) (params : list (string * string))
    : M JsonBody :=
  request_loop net hosts (api_path season (LEAGUE_ID cfg)) params None.

Definition _make_request : ServiceConfig -> Network -> Z ->
    list (string * string) -> M JsonBody :=
  make_request_on api_hosts.

(** *** Canonical season records *)

Record Team : Type := mkTeam {
  t_id : option Z;
  t_name : string;
  t_owner : string;
  t_record : RawRecord;
  playoff_seed : option Z;     (* None: the key is missing from the dict *)
  final_rank : option Z
}.

Record MatchupTeam : Type := mkMatchupTeam {
  mt_id : Z;
  mt_name : string;
  mt_owner : string;
  score : Q
}.

Record Matchup : Type := mkMatchup {
  week : Z;
  playoff : bool;
  m_teams : list MatchupTeam
}.

Record Season : Type := mkSeason {
  season : Z;
  teams : list Team;
  matchups : list Matchup;
  champion : option Team;
  runner_up : option Team;
  error : option string
}.

(** [ESPNDashboardService._get_team_name] on a dict. *)
Definition _get_team_name (team_data : RawTeam) : string :=
  str_or (opt_or (rt_name team_data) "")
    (str_or (strip (opt_or (rt_location team_data) "" ++ " "
                      ++ opt_or (rt_nickname team_data) ""))
       ("Team " ++ match rt_id team_data with
                   | Some i => str_of_Z i
                   | None => "Unknown"
                   end))%string.

Definition py_of_id (o : option Z) : PyVal :=
  match o with Some z => PInt z | None => PNone end.

Definition opt_Z_eqb (a b : option Z) : bool :=
  match a, b with
  | Some x, Some y => x =? y
  | None, None => true
  | _, _ => false
  end.

(** [body.get(key, [])] on a decoded body. *)
Definition body_teams (b : JsonBody) : M (list RawTeam) :=
  match b with
  | JObject t _ => ret (opt_or t [])
  | JArray => raise "'list' object has no attribute 'get'"
  end.

Definition body_schedule (b : JsonBody) : M (list RawMatchup) :=
  match b with
  | JObject _ s => ret (opt_or s [])
  | JArray => raise "'list' object has no attribute 'get'"
  end.

(** The dict built for one entry of [teams]. *)
Definition team_info (team : RawTeam) : M Team :=
  let team_id := rt_id team in
  owner <- _map_team_to_owner (py_of_id team_id) ;;
  ret {| t_id := team_id;
         t_name := _get_team_name team;
         t_owner := owner;
         t_record := opt_or (rt_overall team) empty_record;
         playoff_seed := Some (opt_or (rt_playoffSeed team) 0);
         final_rank := Some (opt_or (rt_rankCalculatedFinal team) 0) |}.

Definition side_teamId (s : option RawSide) : option Z :=
  match s with Some x => rs_teamId x | None => None end.

Definition side_totalPoints (s : option RawSide) : Q :=
  match s with Some x => opt_or (rs_totalPoints x) (0 # 1) | None => 0 # 1 end.

(** The body of [for team in away_id, home_id: if team: ...] for one side. *)
Definition side_entry (teams : list RawTeam) (matchup : RawMatchup)
    (team : option Z) : M (list MatchupTeam) :=
  match team with
  | None => ret []
  | Some tid =>
      if tid =? 0 then ret []
      else
        let team_data :=
          opt_or (find (fun t => opt_Z_eqb (rt_id t) (Some tid)) teams)
                 empty_raw_team in
        owner <- _map_team_to_owner (PInt tid) ;;
        ret [ {| mt_id := tid;
                 mt_name := _get_team_name team_data;
                 mt_owner := owner;
                 score := if opt_Z_eqb (Some tid) (side_teamId (rm_away matchup))
                          then side_totalPoints (rm_away matchup)
                          else side_totalPoints (rm_home matchup) |} ]
  end.

Definition matchup_info (teams : list RawTeam) (matchup : RawMatchup)
    : M (list Matchup) :=
  if opt_or (rm_matchupPeriodId matchup) 0 >? 0 then
    away <- side_entry teams matchup (side_teamId (rm_away matchup)) ;;
    home <- side_entry teams matchup (side_teamId (rm_home matchup)) ;;
    ret [ {| week := opt_or (rm_matchupPeriodId matchup) 0;
             playoff := match rm_playoffTierType matchup with
                        | Some tag => String.eqb tag "WINNERS_BRACKET"
                        | None => false
                        end;
             m_teams := away ++ home |} ]
  else ret [].

(** [x["final_rank"] or 999]; the key was set by [team_info]. *)
Definition rank_or_999 (x : Team) : Z :=
  match final_rank x with
  | Some r => if r =? 0 then 999 else r
  | None => 999
  end.

Definition has_rank (r : Z) (x : Team) : bool := opt_Z_eqb (final_rank x) (Some r).

Definition pick_champion (sorted_teams : list Team) : option Team :=
  match sorted_teams with
  | t0 :: _ => if has_rank 1 t0 then Some t0 else None
  | [] => None
  end.

Definition pick_runner_up (sorted_teams : list Team) : option Team :=
  match sorted_teams with
  | _ :: t1 :: _ => if has_rank 2 t1 then Some t1 else None
  | _ => None
  end.

(** The [try] block of [get_season_data]. *)
Definition season_body (cfg : ServiceConfig) (net : Network) (year : Z)
    : M Season :=
  team_data <- _make_request cfg net year [("view", "mTeam")] ;;
  matchup_data <- _make_request cfg net year [("view", "mMatchup")] ;;
  raw_teams <- body_teams team_data ;;
  schedule <- body_schedule matchup_data ;;
  team_infos <- mapM team_info raw_teams ;;
  matchup_infos <- mapM (matchup_info raw_teams) schedule ;;
  let sorted_teams := sorted_by rank_or_999 team_infos in
  ret {| season := year;
         teams := team_infos;
         matchups := List.concat matchup_infos;
         champion := pick_champion sorted_teams;
         runner_up := pick_runner_up sorted_teams;
         error := None |}.

(** The record of the [except Exception as e] branch. *)
Definition error_record (year : Z) (msg : string) : Season :=
  {| season := year; teams := []; matchups := [];
     champion := None; runner_up := None; error := Some msg |}.

(** [ESPNDashboardService.get_season_data] *)
Definition get_season_data (cfg : ServiceConfig) (net : Network) (year : Z)
    : Season :=
  match season_body cfg net year with
  | inr season_info => season_info
  | inl e => error_record year e
  end.

(** [range(a, b)] *)
Definition py_range (a b : Z) : list Z :=
  map (fun i => a + Z.of_nat i) (seq 0 (Z.to_nat (b - a))).

(** [ESPNDashboardService.get_historical_data] *)
Definition get_historical_data (cfg : ServiceConfig) (net : Network)
    : list Season :=
  map (get_season_data cfg net)
      (py_range (START_SEASON cfg) (CURRENT_SEASON cfg + 1)).

(** *** get_current_season *)

Record Standing : Type := mkStanding {
  st_id : option Z;
  st_name : string;
  st_owner : string;
  st_wins : Z;
  st_losses : Z;
  st_ties : Z;
  st_points_for : Q;
  st_points_against : Q;
  st_playoff_seed : Z;
  st_win_percentage : Q
}.

Definition standing (team : RawTeam) : M Standing :=
  let team_id := rt_id team in
  let overall := opt_or (rt_overall team) empty_record in
  let w := opt_or (rr_wins overall) 0 in
  let l := opt_or (rr_losses overall) 0 in
  owner <- _map_team_to_owner (py_of_id team_id) ;;
  ret {| st_id := team_id;
         st_name := _get_team_name team;
         st_owner := owner;
         st_wins := w;
         st_losses := l;
         st_ties := opt_or (rr_ties overall) 0;
         st_points_for := opt_or (rr_pointsFor overall) (0 # 1);
         st_points_against := opt_or (rr_pointsAgainst overall) (0 # 1);
         st_playoff_seed := opt_or (rt_playoffSeed team) 0;
         st_win_percentage :=
           round2 (if w + l >? 0
                   then inject_Z w / inject_Z (Z.max 1 (w + l))
                   else 0 # 1) |}.

(** The sort key [(playoff_seed or 999, -wins, -points_for)], compared as a
    tuple. *)
Definition standing_leb (x y : Standing) : bool :=
  let kx := if st_playoff_seed x =? 0 then 999 else st_playoff_seed x in
  let ky := if st_playoff_seed y =? 0 then 999 else st_playoff_seed y in
  (kx <? ky)
  || ((kx =? ky)
      && ((- st_wins x <? - st_wins y)
          || ((- st_wins x =? - st_wins y)
              && Qleb (- st_points_for x) (- st_points_for y)))).

Record CurrentSeason : Type := mkCurrentSeason {
  cs_season : Z;
  standings : list Standing;
  total_teams : Z;
  cs_error : option string
}.

(** [ESPNDashboardService.get_current_season].  [JsonBody] holds the
    payloads whose entries have the expected JSON types; on a payload with a
    JSON null in place of the team list or of a record, Python raises inside
    the [try] and returns the error result. *)
Definition get_current_season (cfg : ServiceConfig) (net : Network)
    : CurrentSeason :=
  let current_season := CURRENT_SEASON cfg in
  let attempt :=
    data <- _make_request cfg net current_season [("view", "mTeam")] ;;
    raw_teams <- body_teams data ;;
    mapM standing raw_teams in
  match attempt with
  | inr sts =>
      let sorted_standings := sort_stable standing_leb sts in
      {| cs_season := current_season;
         standings := sorted_standings;
         total_teams := Zlen sorted_standings;
         cs_error := None |}
  | inl e =>
      {| cs_season := current_season; standings := []; total_teams := 0;
         cs_error := Some e |}
  end.

End Espn.

(* ===================================================================== *)
(** ** services/analytics.py *)
(* ===================================================================== *)

Module Analytics.
Import Espn.

(** *** get_head_to_head_stats *)

Record H2HRecord : Type := mkH2H {
  h_wins : Z;
  h_losses : Z;
  h_points_for : Q;
  h_points_against : Q;
  h_games : Z
}.

(** The innermost [defaultdict] factory. *)
Definition h2h_default : H2HRecord := mkH2H 0 0 (0 # 1) (0 # 1) 0.

Definition H2HTable : Type := odict string (odict string H2HRecord).

Definition add_games (n : Z) (r : H2HRecord) : H2HRecord :=
  mkH2H (h_wins r) (h_losses r) (h_points_for r) (h_points_against r)
        (h_games r + n).
Definition add_points_for (p : Q) (r : H2HRecord) : H2HRecord :=
  mkH2H (h_wins r) (h_losses r) (h_points_for r + p)%Q (h_points_against r)
        (h_games r).
Definition add_points_against (p : Q) (r : H2HRecord) : H2HRecord :=
  mkH2H (h_wins r) (h_losses r) (h_points_for r) (h_points_against r + p)%Q
        (h_games r).
Definition add_win (r : H2HRecord) : H2HRecord :=
  mkH2H (h_wins r + 1) (h_losses r) (h_points_for r) (h_points_against r)
        (h_games r).
Definition add_loss (r : H2HRecord) : H2HRecord :=
  mkH2H (h_wins r) (h_losses r + 1) (h_points_for r) (h_points_against r)
        (h_games r).

(** [h2h_records[a][b][field] += ...]: both levels are created on demand. *)
Definition h2h_upd (t : H2HTable) (a b : string)
    (f : H2HRecord -> H2HRecord) : H2HTable :=
  od_upd String.eqb [] t a
    (fun opponents => od_upd String.eqb h2h_default opponents b f).

(** [h2h_records[a][b]] read. *)
Definition h2h_lookup (t : H2HTable) (a b : string) : H2HRecord :=
  od_get_or String.eqb h2h_default (od_get_or String.eqb [] t a) b.

(** The accounting of one valid game. *)
Definition record_game (t : H2HTable) (name1 name2 : string)
    (score1 score2 : Q) : H2HTable :=
  let t := h2h_upd t name1 name2 (add_games 1) in
  let t := h2h_upd t name2 name1 (add_games 1) in
  let t := h2h_upd t name1 name2 (add_points_for (round2 score1)) in
  let t := h2h_upd t name1 name2 (add_points_against (round2 score2)) in
  let t := h2h_upd t name2 name1 (add_points_for (round2 score2)) in
  let t := h2h_upd t name2 name1 (add_points_against (round2 score1)) in
  if Qgtb score1 score2 then
    let t := h2h_upd t name1 name2 add_win in
    h2h_upd t name2 name1 add_loss
  else
    let t := h2h_upd t name2 name1 add_win in
    h2h_upd t name1 name2 add_loss.

(** The body of the loop over matchups. *)
Definition record_matchup (t : H2HTable) (matchup : Matchup) : H2HTable :=
  match m_teams matchup with
  | [team1; team2] =>
      let score1 := score team1 in
      let score2 := score team2 in
      if Qgtb score1 (0 # 1) && Qgtb score2 (0 # 1) then
        record_game t (mt_name team1) (mt_name team2) score1 score2
      else t
  | _ => t
  end.

Definition h2h_records (historical_data : list Season) : H2HTable :=
  fold_left (fun t season_data => fold_left record_matchup (matchups season_data) t)
            historical_data [].

Record H2HEntry : Type := mkH2HEntry {
  team1 : string;
  team2 : string;
  team1_wins : Z;
  team2_wins : Z;
  total_games : Z;
  team1_points : Q;
  team2_points : Q;
  team1_avg : Q;
  team2_avg : Q;
  series_leader : string
}.

(** [tuple(sorted([team1, team2]))] *)
Definition sorted_pair (a b : string) : string * string :=
  if String.ltb b a then (b, a) else (a, b).

Definition pair_eqb (p q : string * string) : bool :=
  String.eqb (fst p) (fst q) && String.eqb (snd p) (snd q).

Definition pair_mem (p : string * string) (s : list (string * string)) : bool :=
  existsb (pair_eqb p) s.

Definition h2h_entry (t : H2HTable) (team1 team2 : string) : H2HEntry :=
  let record1 := h2h_lookup t team1 team2 in
  let record2 := h2h_lookup t team2 team1 in
  let total_games := h_games record1 in
  {| team1 := team1;
     team2 := team2;
     team1_wins := h_wins record1;
     team2_wins := h_wins record2;
     total_games := total_games;
     team1_points := round2 (h_points_for record1);
     team2_points := round2 (h_points_for record2);
     team1_avg := round2 (h_points_for record1 / inject_Z total_games);
     team2_avg := round2 (h_points_for record2 / inject_Z total_games);
     series_leader :=
       if h_wins record1 >? h_wins record2 then team1
       else if h_wins record2 >? h_wins record1 then team2
       else "Tied" |}.

(** State of the conversion loop: [processed_pairs] and [matchup_results]. *)
Definition H2HState : Type := (list (string * string) * list H2HEntry)%type.

(** The body of the double loop for one [(team1, team2)] key pair. *)
Definition h2h_visit (t : H2HTable) (st : H2HState) (team1 team2 : string)
    : H2HState :=
  let '(processed_pairs, matchup_results) := st in
  if negb (String.eqb team1 team2) then
    let pair := sorted_pair team1 team2 in
    if negb (pair_mem pair processed_pairs) then
      let processed_pairs := pair :: processed_pairs in
      if h_games (h2h_lookup t team1 team2) >? 0
      then (processed_pairs, matchup_results ++ [h2h_entry t team1 team2])
      else (processed_pairs, matchup_results)
    else st
  else st.

Definition h2h_convert (t : H2HTable) : H2HState :=
  fold_left
    (fun st item =>
       fold_left (fun st opp => h2h_visit t st (fst item) (fst opp))
                 (snd item) st)
    t ([], []).

Record H2HReport : Type := mkH2HReport {
  head_to_head : list H2HEntry;
  total_matchups : Z
}.

(** [AnalyticsService.get_head_to_head_stats] *)
Definition get_head_to_head_stats (historical_data : list Season) : H2HReport :=
  let t := h2h_records historical_data in
  let matchup_results := sorted_by_desc total_games (snd (h2h_convert t)) in
  {| head_to_head := matchup_results;
     total_matchups := Zlen matchup_results |}.

(** *** get_all_time_stats *)

Record OwnerStats : Type := mkOwnerStats {
  games_played : Z;
  os_wins : Z;
  os_losses : Z;
  os_ties : Z;
  os_points_for : Q;
  os_points_against : Q;
  seasons_played : Z;
  playoff_appearances : Z;
  os_championships : Z;
  os_runner_ups : Z;
  os_seasons : list Z;
  championship_years : list Z;
  runner_up_years : list Z
}.

(** The [defaultdict] factory of [owner_stats]. *)
Definition owner_stats_default : OwnerStats :=
  mkOwnerStats 0 0 0 0 (0 # 1) (0 # 1) 0 0 0 0 [] [] [].

(** [team.get("playoff_seed", 0) > 0 or team.get("final_rank", 99) <= 6] *)
Definition playoff_test (team : Team) : bool :=
  (opt_or (playoff_seed team) 0 >? 0) || (opt_or (final_rank team) 99 <=? 6).

(** [season_data.get(k) and season_data[k]["owner"] == owner] *)
Definition podium_owner_is (place : option Team) (owner : string) : bool :=
  match place with
  | Some c => String.eqb (t_owner c) owner
  | None => false
  end.

(** All the updates of [stats = owner_stats[owner]] for one team. *)
Definition update_owner_stats (season_data : Season) (team : Team)
    (stats : OwnerStats) : OwnerStats :=
  let owner := t_owner team in
  let record := t_record team in
  let w := opt_or (rr_wins record) 0 in
  let l := opt_or (rr_losses record) 0 in
  let t := opt_or (rr_ties record) 0 in
  let champ := podium_owner_is (champion season_data) owner in
  let ru := podium_owner_is (runner_up season_data) owner in
  {| games_played := games_played stats + (w + l + t);
     os_wins := os_wins stats + w;
     os_losses := os_losses stats + l;
     os_ties := os_ties stats + t;
     os_points_for :=
       (os_points_for stats + round2 (opt_or (rr_pointsFor record) (0 # 1)))%Q;
     os_points_against :=
       (os_points_against stats
          + round2 (opt_or (rr_pointsAgainst record) (0 # 1)))%Q;
     seasons_played := seasons_played stats + 1;
     playoff_appearances :=
       if playoff_test team then playoff_appearances stats + 1
       else playoff_appearances stats;
     os_championships :=
       if champ then os_championships stats + 1 else os_championships stats;
     os_runner_ups :=
       if ru then os_runner_ups stats + 1 else os_runner_ups stats;
     os_seasons := os_seasons stats ++ [season season_data];
     championship_years :=
       if champ then championship_years stats ++ [season season_data]
       else championship_years stats;
     runner_up_years :=
       if ru then runner_up_years stats ++ [season season_data]
       else runner_up_years stats |}.

Definition OwnerTable : Type := odict string OwnerStats.

Definition all_time_team (season_data : Season) (tbl : OwnerTable)
    (team : Team) : OwnerTable :=
  od_upd String.eqb owner_stats_default tbl (t_owner team)
         (update_owner_stats season_data team).

Definition owner_stats (historical_data : list Season) : OwnerTable :=
  fold_left
    (fun tbl season_data => fold_left (all_time_team season_data)
                                      (teams season_data) tbl)
    historical_data [].

(** Every score above zero, in order of appearance. *)
Definition valid_scores (historical_data : list Season) : list Q :=
  flat_map
    (fun season_data =>
       flat_map (fun matchup =>
                   filter (fun s => Qgtb s (0 # 1)) (map score (m_teams matchup)))
                (matchups season_data))
    historical_data.

Record LeaderStats : Type := mkLeaderStats {
  ls_owner : string;
  win_percentage : Q;
  avg_points_per_season : Q;
  avg_points_against_per_season : Q;
  playoff_percentage : Q;
  ls_stats : OwnerStats
}.

Definition leader_stats (owner : string) (stats : OwnerStats) : LeaderStats :=
  let sp := inject_Z (seasons_played stats) in
  let played := seasons_played stats >? 0 in
  {| ls_owner := owner;
     win_percentage :=
       round3 (inject_Z (os_wins stats) / inject_Z (games_played stats));
     avg_points_per_season :=
       round2 (if played then os_points_for stats / sp else 0 # 1);
     avg_points_against_per_season :=
       round2 (if played then os_points_against stats / sp else 0 # 1);
     playoff_percentage :=
       if played then round3 (inject_Z (playoff_appearances stats) / sp)
       else 0 # 1;
     ls_stats := stats |}.

Definition all_time_leaders (tbl : OwnerTable) : list LeaderStats :=
  flat_map (fun item =>
              if games_played (snd item) >? 0
              then [leader_stats (fst item) (snd item)] else [])
           tbl.

Definition Zmax_or_0 (l : list Z) : Z :=
  match l with [] => 0 | x :: r => fold_left Z.max r x end.

(** Tuples of two integers compare lexicographically. *)
Definition pairZ_leb (p q : Z * Z) : bool :=
  (fst p <? fst q) || ((fst p =? fst q) && (snd p <=? snd q)).

Record LeagueTotals : Type := mkLeagueTotals {
  lt_total_games : Z;
  lt_total_points : Q;
  average_score_all_time : Q;
  lt_total_seasons : Z
}.

Record AllTimeReport : Type := mkAllTimeReport {
  all_time_records : list LeaderStats;
  most_wins : list LeaderStats;
  highest_win_percentage : list LeaderStats;
  most_points : list LeaderStats;
  most_championships_leaders : list LeaderStats;
  league_totals : LeagueTotals
}.

(** [AnalyticsService.get_all_time_stats] *)
Definition get_all_time_stats (historical_data : list Season) : AllTimeReport :=
  let leaders := all_time_leaders (owner_stats historical_data) in
  let all_time_scores := valid_scores historical_data in
  {| all_time_records := leaders;
     most_wins :=
       firstn 5 (sorted_by_desc (fun x => os_wins (ls_stats x)) leaders);
     highest_win_percentage :=
       firstn 5 (sorted_byQ_desc win_percentage leaders);
     most_points :=
       firstn 5 (sorted_byQ_desc (fun x => os_points_for (ls_stats x)) leaders);
     most_championships_leaders :=
       firstn 5
         (sort_stable
            (fun x y =>
               pairZ_leb
                 (os_championships (ls_stats y),
                  Zmax_or_0 (championship_years (ls_stats y)))
                 (os_championships (ls_stats x),
                  Zmax_or_0 (championship_years (ls_stats x))))
            leaders);
     league_totals :=
       {| lt_total_games :=
            Zsum (map (fun o => games_played (ls_stats o)) leaders);
          lt_total_points :=
            Qsum (map (fun o => os_points_for (ls_stats o)) leaders);
          average_score_all_time :=
            match all_time_scores with
            | [] => 0 # 1
            | _ => round2 (mean all_time_scores)
            end;
          lt_total_seasons := Zlen historical_data |} |}.

(** *** get_champions_history *)

Record PodiumInfo : Type := mkPodiumInfo {
  pi_season : Z;
  pi_team_name : string;
  pi_owner : string;
  pi_record : RawRecord
}.

Definition podium_info (year : Z) (t : Team) : PodiumInfo :=
  mkPodiumInfo year (t_name t) (t_owner t) (t_record t).

Definition podium_list (place : Season -> option Team)
    (historical_data : list Season) : list PodiumInfo :=
  flat_map (fun season_data =>
              match place season_data with
              | Some t => [podium_info (season season_data) t]
              | None => []
              end)
           historical_data.

(** A [Counter] fed with the owners of a podium list. *)
Definition count_owners (l : list PodiumInfo) : odict string Z :=
  fold_left (fun c p => od_upd String.eqb 0 c (pi_owner p) (fun n => n + 1))
            l [].

(** [set(a.keys()) | set(b.keys())].  The iteration order of a Python set
    is unspecified; first occurrence is used here. *)
Definition owner_set (a b : odict string Z) : list string :=
  fold_left (fun acc k => if existsb (String.eqb k) acc then acc else acc ++ [k])
            (map fst a ++ map fst b) [].

Record OwnerFinals : Type := mkOwnerFinals {
  of_owner : string;
  championships : Z;
  runner_ups : Z;
  championship_seasons : list Z;
  runner_up_seasons : list Z;
  total_finals : Z
}.

Definition seasons_of (owner : string) (l : list PodiumInfo) : list Z :=
  map pi_season (filter (fun p => String.eqb (pi_owner p) owner) l).

Record ChampionsHistory : Type := mkChampionsHistory {
  by_season : list PodiumInfo;
  runner_ups_by_season : list PodiumInfo;
  by_owner : list OwnerFinals;
  ch_total_seasons : Z
}.

(** [AnalyticsService.get_champions_history] *)
Definition get_champions_history (historical_data : list Season)
    : ChampionsHistory :=
  let champions_by_season := podium_list champion historical_data in
  let runner_ups_by_season := podium_list runner_up historical_data in
  let championship_counts := count_owners champions_by_season in
  let runner_up_counts := count_owners runner_ups_by_season in
  let owner_entry owner :=
    let c := od_get_or String.eqb 0 championship_counts owner in
    let r := od_get_or String.eqb 0 runner_up_counts owner in
    {| of_owner := owner;
       championships := c;
       runner_ups := r;
       championship_seasons := seasons_of owner champions_by_season;
       runner_up_seasons := seasons_of owner runner_ups_by_season;
       total_finals := c + r |} in
  {| by_season := champions_by_season;
     runner_ups_by_season := runner_ups_by_season;
     by_owner :=
       sort_stable
         (fun x y => pairZ_leb (championships y, runner_ups y)
                               (championships x, runner_ups x))
         (map owner_entry (owner_set championship_counts runner_up_counts));
     ch_total_seasons := Zlen champions_by_season |}.

(** *** get_scoring_stats *)

Record ScoreRecord : Type := mkScoreRecord {
  sr_score : Q;
  sr_team_name : string;
  sr_team_id : Z;
  sr_season : Z;
  sr_week : Z;
  sr_is_playoff : bool
}.

(** The three accumulators of the collection loop. *)
Record ScoreAcc : Type := mkScoreAcc {
  all_scores : list ScoreRecord;
  weekly_scores : odict Z (list ScoreRecord);
  season_totals : odict Z (odict Z Q)
}.

Definition collect_team (year : Z) (matchup : Matchup) (acc : ScoreAcc)
    (team : MatchupTeam) : ScoreAcc :=
  let sc := score team in
  if Qgtb sc (0 # 1) then
    let score_record :=
      mkScoreRecord sc (mt_name team) (mt_id team) year (week matchup)
                    (playoff matchup) in
    {| all_scores := all_scores acc ++ [score_record];
       weekly_scores :=
         od_upd Z.eqb [] (weekly_scores acc) (week matchup)
                (fun l => l ++ [score_record]);
       season_totals :=
         od_upd Z.eqb [] (season_totals acc) year
                (fun totals =>
                   od_upd Z.eqb (0 # 1) totals (mt_id team)
                          (fun x => (x + round2 sc)%Q)) |}
  else acc.

Definition collect_scores (historical_data : list Season) : ScoreAcc :=
  fold_left
    (fun acc season_data =>
       fold_left
         (fun acc matchup =>
            fold_left (collect_team (season season_data) matchup)
                      (m_teams matchup) acc)
         (matchups season_data) acc)
    historical_data (mkScoreAcc [] [] []).

Definition round_score (r : ScoreRecord) : ScoreRecord :=
  mkScoreRecord (round2 (sr_score r)) (sr_team_name r) (sr_team_id r)
                (sr_season r) (sr_week r) (sr_is_playoff r).

Record WeeklyAverage : Type := mkWeeklyAverage {
  wa_average : Q;
  wa_count : Z
}.

Record SeasonLeader : Type := mkSeasonLeader {
  sl_season : Z;
  sl_team_name : string;
  sl_total_points : Q;
  sl_team_id : Z
}.

(** [max(team_totals.keys(), key=lambda x: team_totals[x])] *)
Definition top_scorer {K} (totals : odict K Q) : option (K * Q) :=
  match totals with
  | [] => None
  | first :: rest => Some (max_by (fun a b => Qgtb (snd a) (snd b)) first rest)
  end.

(** The name search of the season-leader loop: the last season record of
    that year holding the team decides. *)
Definition leader_name (historical_data : list Season) (year top_id : Z)
    : string :=
  fold_left
    (fun team_name season_data =>
       if season season_data =? year then
         match find (fun t => opt_Z_eqb (t_id t) (Some top_id))
                    (teams season_data) with
         | Some t => t_name t
         | None => team_name
         end
       else team_name)
    historical_data "Unknown".

(** [statistics.median] *)
Definition median (l : list Q) : Q :=
  let s := sorted_byQ (fun x => x) l in
  let n := List.length s in
  if Nat.even n
  then ((nth (n / 2 - 1) s (0 # 1) + nth (n / 2) s (0 # 1)) / (2 # 1))%Q
  else nth (n / 2) s (0 # 1).

(** [overall_stats]; its [std_dev] entry needs a floating-point square root
    and is not part of the record. *)
Record OverallStats : Type := mkOverallStats {
  ov_total_games : Z;
  ov_average_score : Q;
  median_score : Q;
  score_range : Q
}.

Record ScoringReport : Type := mkScoringReport {
  highest_scores : list ScoreRecord;
  lowest_scores : list ScoreRecord;
  season_leaders : list SeasonLeader;
  weekly_averages : odict Z WeeklyAverage;
  overall_stats : OverallStats
}.

Inductive ScoringStats : Type :=
| ScoringError (msg : string)            (* [{"error": msg}] *)
| ScoringOk (report : ScoringReport).

(** [AnalyticsService.get_scoring_stats] *)
Definition get_scoring_stats (historical_data : list Season) : ScoringStats :=
  let acc := collect_scores historical_data in
  match all_scores acc with
  | [] => ScoringError "No scoring data available"
  | _ :: _ =>
      let sorted_scores := sorted_byQ_desc sr_score (all_scores acc) in
      let scores_only := map sr_score sorted_scores in
      ScoringOk
        {| highest_scores := map round_score (firstn 10 sorted_scores);
           lowest_scores :=
             map round_score (firstn 10 (sorted_byQ sr_score sorted_scores));
           season_leaders :=
             sorted_by_desc sl_season
               (flat_map
                  (fun item =>
                     match top_scorer (snd item) with
                     | Some (top_id, top_score) =>
                         [ mkSeasonLeader (fst item)
                             (leader_name historical_data (fst item) top_id)
                             (round2 top_score) top_id ]
                     | None => []
                     end)
                  (season_totals acc));
           weekly_averages :=
             flat_map
               (fun item =>
                  match snd item with
                  | [] => []
                  | scores =>
                      [ (fst item,
                         mkWeeklyAverage (round2 (mean (map sr_score scores)))
                                         (Zlen scores)) ]
                  end)
               (weekly_scores acc);
           overall_stats :=
             {| ov_total_games := Zlen sorted_scores;
                ov_average_score := round2 (mean scores_only);
                median_score := round2 (median scores_only);
                score_range :=
                  match scores_only with
                  | [] => 0 # 1
                  | x :: r => round2 (Qmax_list x r - Qmin_list x r)
                  end |} |}
  end.

(** *** get_season_stats *)

Record TeamRecord : Type := mkTeamRecord {
  tr_name : string;
  tr_wins : Z;
  tr_losses : Z;
  tr_points_for : Q;
  tr_points_against : Q
}.

Definition team_record (team : Team) : TeamRecord :=
  let record := t_record team in
  {| tr_name := t_name team;
     tr_wins := opt_or (rr_wins record) 0;
     tr_losses := opt_or (rr_losses record) 0;
     tr_points_for := opt_or (rr_pointsFor record) (0 # 1);
     tr_points_against := opt_or (rr_pointsAgainst record) (0 # 1) |}.

(** [team_records], a dict keyed by [team.get("id")]. *)
Definition team_records (ts : list Team) : odict (option Z) TeamRecord :=
  fold_left (fun d team => od_set opt_Z_eqb d (t_id team) (team_record team))
            ts [].

(** [max(values, key=...)] / [min(values, key=...)], None on no values. *)
Definition extremal {A} (better : A -> A -> bool) (l : list A) : option A :=
  match l with
  | [] => None
  | x :: r => Some (max_by better x r)
  end.

Record SeasonStats : Type := mkSeasonStats {
  ss_season : Z;
  ss_total_teams : Z;
  ss_total_games : Z;
  playoff_games : Z;
  ss_average_score : Q;
  highest_score : Q;
  lowest_score : Q;
  best_record : option TeamRecord;
  worst_record : option TeamRecord;
  highest_scoring_team : option TeamRecord;
  lowest_scoring_team : option TeamRecord;
  ss_champion : option Team;
  ss_runner_up : option Team
}.

Definition season_scores (ms : list Matchup) : list Q :=
  flat_map (fun matchup =>
              filter (fun s => Qgtb s (0 # 1)) (map score (m_teams matchup)))
           ms.

(** One turn of the loop over seasons: nothing for a season without teams
    or without matchups ([continue]). *)
Definition season_stats_entry (season_data : Season) : list SeasonStats :=
  match teams season_data, matchups season_data with
  | [], _ => []
  | _, [] => []
  | ts, ms =>
      let scores := season_scores ms in
      let records := map snd (team_records ts) in
      [ {| ss_season := season season_data;
           ss_total_teams := Zlen ts;
           ss_total_games := Zlen (filter (fun m => negb (playoff m)) ms);
           playoff_games := Zlen (filter playoff ms);
           ss_average_score :=
             match scores with [] => 0 # 1 | _ => round2 (mean scores) end;
           highest_score :=
             match scores with
             | [] => 0 # 1
             | x :: r => round2 (Qmax_list x r)
             end;
           lowest_score :=
             match scores with
             | [] => 0 # 1
             | x :: r => round2 (Qmin_list x r)
             end;
           best_record := extremal (fun a b => tr_wins a >? tr_wins b) records;
           worst_record := extremal (fun a b => tr_wins a <? tr_wins b) records;
           highest_scoring_team :=
             extremal (fun a b => Qgtb (tr_points_for a) (tr_points_for b))
                      records;
           lowest_scoring_team :=
             extremal (fun a b => Qgtb (tr_points_for b) (tr_points_for a))
                      records;
           ss_champion := champion season_data;
           ss_runner_up := runner_up season_data |} ]
  end.

Record SeasonStatsReport : Type := mkSeasonStatsReport {
  seasons : list SeasonStats;
  sr_total_seasons : Z
}.

(** [AnalyticsService.get_season_stats] *)
Definition get_season_stats (historical_data : list Season)
    : SeasonStatsReport :=
  let season_stats :=
    sorted_by_desc ss_season (flat_map season_stats_entry historical_data) in
  {| seasons := season_stats; sr_total_seasons := Zlen season_stats |}.

(** *** get_dashboard_summary *)

(** The summary without its [last_updated] clock reading. *)
Record DashboardSummary : Type := mkDashboardSummary {
  ds_total_seasons : Z;
  ds_total_games : Z;
  highest_score_ever : Q;
  lowest_score_ever : Q;
  ds_average_score : Q;
  most_championships : Z;
  current_season_teams : Z
}.

(** [AnalyticsService.get_dashboard_summary] *)
Definition get_dashboard_summary (historical_data : list Season)
    (current_season : CurrentSeason) : DashboardSummary :=
  let scores := valid_scores historical_data in
  let champions := get_champions_history historical_data in
  {| ds_total_seasons := Zlen historical_data;
     ds_total_games :=
       Zsum (map (fun season_data => Zlen (matchups season_data))
                 historical_data);
     highest_score_ever :=
       round2 (match scores with [] => 0 # 1 | x :: r => Qmax_list x r end);
     lowest_score_ever :=
       round2 (match scores with [] => 0 # 1 | x :: r => Qmin_list x r end);
     ds_average_score :=
       round2 (match scores with [] => 0 # 1 | _ => mean scores end);
     most_championships :=
       Zmax_or_0 (map championships (by_owner champions));
     current_season_teams := Zlen (standings current_season) |}.

End Analytics.

(* ===================================================================== *)
(** ** services/payout_service.py *)
(* ===================================================================== *)

Module Payout.
Import Espn.

Record PayoutStructure : Type := mkPayoutStructure {
  ps_champion : Z;
  ps_runner_up : Z;
  ps_third_place : Z;
  ps_fourth_place : Z;
  ps_weekly_high : Z;
  ps_most_points_regular : Z
}.

Definition PAYOUT_STRUCTURE : PayoutStructure :=
  {| ps_champion := 300;
     ps_runner_up := 150;
     ps_third_place := 70;
     ps_fourth_place := 50;
     ps_weekly_high := 10;
     ps_most_points_regular := 40 |}.

(** [PayoutService._get_owner_name] on a dict with the given ["owner"] and
    ["id"] entries (the warning it prints is not modelled). *)
Definition _get_owner_name (owner : string) (team_id : option Z) : string :=
  if str_truthy owner && negb (String.eqb owner "Unknown") then owner
  else
    match team_id with
    | Some i =>
        if i =? 0 then "Unknown Team"
        else
          let fallback := ("Team " ++ str_of_Z i)%string in
          match od_get Z.eqb Config.TEAM_ID_MAP i with
          | Some team_key =>
              if str_truthy team_key
              then od_get_or String.eqb fallback Config.TEAM_TO_OWNER_MAP team_key
              else fallback
          | None => fallback
          end
    | None => "Unknown Team"
    end.

Definition team_owner (t : Team) : string := _get_owner_name (t_owner t) (t_id t).
Definition entry_owner (t : MatchupTeam) : string :=
  _get_owner_name (mt_owner t) (Some (mt_id t)).

Record Detail : Type := mkDetail {
  d_type : string;
  amount : Z;
  description : string
}.

(** [payouts] and [payout_details]. *)
Record Ledger : Type := mkLedger {
  payouts : odict string Z;
  payout_details : odict string (list Detail)
}.

(** [payouts[owner] += amount] *)
Definition pay (l : Ledger) (owner : string) (amt : Z) : Ledger :=
  mkLedger (od_upd String.eqb 0 (payouts l) owner (fun x => x + amt))
           (payout_details l).

(** [payout_details[owner].append(detail)] *)
Definition note (l : Ledger) (owner : string) (d : Detail) : Ledger :=
  mkLedger (payouts l)
           (od_upd String.eqb [] (payout_details l) owner (fun ds => ds ++ [d])).

Definition award (l : Ledger) (owner : string) (d : Detail) : Ledger :=
  note (pay l owner (amount d)) owner d.

(** [x.get("final_rank", x.get("playoff_seed", 99))] *)
Definition standing_key (x : Team) : Z :=
  match final_rank x with
  | Some r => r
  | None => opt_or (playoff_seed x) 99
  end.

Definition award_podium (year : Z) (season_data : Season) (l : Ledger) : Ledger :=
  let l :=
    match champion season_data with
    | Some c =>
        award l (team_owner c)
          (mkDetail "Champion" (ps_champion PAYOUT_STRUCTURE)
                    (str_of_Z year ++ " League Champion")%string)
    | None => l
    end in
  match runner_up season_data with
  | Some r =>
      award l (team_owner r)
        (mkDetail "Runner-Up" (ps_runner_up PAYOUT_STRUCTURE)
                  (str_of_Z year ++ " Runner-Up")%string)
  | None => l
  end.

Definition award_places (year : Z) (season_data : Season) (l : Ledger) : Ledger :=
  let sorted_teams := sorted_by standing_key (teams season_data) in
  let l :=
    match nth_error sorted_teams 2 with
    | Some third_place =>
        award l (team_owner third_place)
          (mkDetail "3rd Place" (ps_third_place PAYOUT_STRUCTURE)
                    (str_of_Z year ++ " 3rd Place")%string)
    | None => l
    end in
  match nth_error sorted_teams 3 with
  | Some fourth_place =>
      award l (team_owner fourth_place)
        (mkDetail "4th Place" (ps_fourth_place PAYOUT_STRUCTURE)
                  (str_of_Z year ++ " 4th Place")%string)
  | None => l
  end.

(** [regular_season_totals] *)
Definition regular_season_totals (ms : list Matchup) : odict string Q :=
  fold_left
    (fun totals matchup =>
       if playoff matchup then totals
       else
         fold_left
           (fun totals team =>
              if Qgtb (score team) (0 # 1)
              then od_upd String.eqb (0 # 1) totals (entry_owner team)
                          (fun x => (x + round2 (score team))%Q)
              else totals)
           (m_teams matchup) totals)
    ms [].

(** [max(totals.keys(), key=lambda x: totals[x])] with its total. *)
Definition regular_season_leader_of (totals : odict string Q)
    : option (string * Q) :=
  match totals with
  | [] => None
  | first :: rest => Some (max_by (fun a b => Qgtb (snd a) (snd b)) first rest)
  end.

Definition two_digits (n : Z) : string :=
  if n <? 10 then ("0" ++ str_of_Z n)%string else str_of_Z n.

(** [f"{x:.2f}"] *)
Definition fmt_2f (x : Q) : string :=
  let n := round_half_even (x * inject_Z 100) in
  let sign := if n <? 0 then "-" else "" in
  let whole := str_of_Z (Z.abs n / 100) in
  let cents := two_digits (Z.abs n mod 100) in
  (sign ++ whole ++ "." ++ cents)%string.

Definition award_most_points (year : Z) (season_data : Season) (l : Ledger)
    : Ledger :=
  match regular_season_leader_of (regular_season_totals (matchups season_data)) with
  | Some (top_scorer, top_score) =>
      award l top_scorer
        (mkDetail "Most Points (Regular)"
                  (ps_most_points_regular PAYOUT_STRUCTURE)
                  (str_of_Z year ++ " Most Points in Regular Season ("
                     ++ fmt_2f top_score ++ " pts)")%string)
  | None => l
  end.

(** An entry of [weekly_highs]: [{"owner": ..., "score": ...}]. *)
Record WeekHigh : Type := mkWeekHigh {
  wh_owner : option string;
  wh_score : Q
}.

Definition week_scores (matchup : Matchup) : list WeekHigh :=
  flat_map (fun team =>
              if Qgtb (score team) (0 # 1)
              then [mkWeekHigh (Some (entry_owner team)) (score team)]
              else [])
           (m_teams matchup).

Definition weekly_high_matchup (highs : odict Z WeekHigh) (matchup : Matchup)
    : odict Z WeekHigh :=
  if week matchup <=? 0 then highs
  else
    match week_scores matchup with
    | [] => highs
    | scores =>
        let highs :=
          if od_mem Z.eqb highs (week matchup) then highs
          else od_set Z.eqb highs (week matchup) (mkWeekHigh None (0 # 1)) in
        fold_left
          (fun highs score_data =>
             if Qgtb (wh_score score_data)
                     (wh_score (od_get_or Z.eqb (mkWeekHigh None (0 # 1)) highs
                                          (week matchup)))
             then od_set Z.eqb highs (week matchup) score_data
             else highs)
          scores highs
    end.

Definition weekly_highs_of (ms : list Matchup) : odict Z WeekHigh :=
  fold_left weekly_high_matchup ms [].

(** The award loop over [weekly_highs]: the ledger and
    [weekly_high_details]. *)
Definition award_week (st : Ledger * odict string Z) (item : Z * WeekHigh)
    : Ledger * odict string Z :=
  match wh_owner (snd item) with
  | Some owner =>
      if str_truthy owner
      then (pay (fst st) owner (ps_weekly_high PAYOUT_STRUCTURE),
            od_upd String.eqb 0 (snd st) owner (fun n => n + 1))
      else st
  | None => st
  end.

Definition weekly_detail (count : Z) : Detail :=
  mkDetail "Weekly High Scores" (count * ps_weekly_high PAYOUT_STRUCTURE)
           (str_of_Z count ++ " Weekly High Scores Ã— $"
              ++ str_of_Z (ps_weekly_high PAYOUT_STRUCTURE))%string.

Definition award_weekly (highs : odict Z WeekHigh) (l : Ledger) : Ledger :=
  let '(l, weekly_high_details) := fold_left award_week highs (l, []) in
  fold_left (fun l item => note l (fst item) (weekly_detail (snd item)))
            weekly_high_details l.

Record OwnerPayout : Type := mkOwnerPayout {
  op_owner : string;
  total_payout : Z;
  details : list Detail
}.

Record LeaderPoints : Type := mkLeaderPoints {
  lp_owner : string;
  lp_points : Q
}.

Record SeasonPayouts : Type := mkSeasonPayouts {
  sp_season : Z;
  sp_payouts : list OwnerPayout;
  season_total : Z;
  sp_weekly_highs : odict Z WeekHigh;
  regular_season_leader : option LeaderPoints
}.

(** The ledger after the four award steps. *)
Definition season_ledger (year : Z) (season_data : Season) : Ledger :=
  let l := mkLedger [] [] in
  let l := award_podium year season_data l in
  let l := match teams season_data with
           | [] => l
           | _ => award_places year season_data l
           end in
  let l := award_most_points year season_data l in
  award_weekly (weekly_highs_of (matchups season_data)) l.

(** The part of [calculate_season_payouts] after the season was found.
    [round(x, 2)] is the identity on the integer amounts. *)
Definition season_payouts (year : Z) (season_data : Season) : SeasonPayouts :=
  let l := season_ledger year season_data in
  let payout_list :=
    map (fun item =>
           mkOwnerPayout (fst item) (snd item)
                         (od_get_or String.eqb [] (payout_details l) (fst item)))
        (payouts l) in
  {| sp_season := year;
     sp_payouts := sorted_by_desc total_payout payout_list;
     season_total := Zsum (map snd (payouts l));
     sp_weekly_highs := weekly_highs_of (matchups season_data);
     regular_season_leader :=
       match regular_season_leader_of
               (regular_season_totals (matchups season_data)) with
       | Some (o, pts) => Some (mkLeaderPoints o (round2 pts))
       | None => None
       end |}.

(** [PayoutService.calculate_season_payouts]; [inl] is the [{"error": ...}]
    result. *)
Definition calculate_season_payouts (historical_data : list Season) (year : Z)
    : string + SeasonPayouts :=
  match find (fun data => season data =? year) historical_data with
  | Some season_data => inr (season_payouts year season_data)
  | None => inl ("No data found for season " ++ str_of_Z year)%string
  end.

Record AllSeasonPayouts : Type := mkAllSeasonPayouts {
  asp_seasons : list SeasonPayouts;
  asp_total_seasons : Z;
  excluded_current_season : Z
}.

(** [PayoutService.get_all_season_payouts] *)
Definition get_all_season_payouts (historical_data : list Season)
    (current_season : Z) : AllSeasonPayouts :=
  let all_payouts :=
    flat_map
      (fun season_data =>
         if season season_data >=? current_season then []
         else match calculate_season_payouts historical_data
                                             (season season_data) with
              | inr sp => [sp]
              | inl _ => []
              end)
      historical_data in
  let all_payouts := sorted_by_desc sp_season all_payouts in
  {| asp_seasons := all_payouts;
     asp_total_seasons := Zlen all_payouts;
     excluded_current_season := current_season |}.

(** *** get_cumulative_payouts *)

Record CumStats : Type := mkCumStats {
  total_earnings : Z;
  cu_championships : Z;
  cu_runner_ups : Z;
  third_places : Z;
  fourth_places : Z;
  cu_weekly_highs : Z;
  most_points_regular : Z;
  seasons_participated : Z;
  earnings_by_season : odict Z Z
}.

(** The [defaultdict] factory of [cumulative_payouts]. *)
Definition cum_default : CumStats := mkCumStats 0 0 0 0 0 0 0 0 [].

Fixpoint take_token (s : string) : string :=
  match s with
  | EmptyString => EmptyString
  | String c r => if is_space c then EmptyString else String c (take_token r)
  end.

(** [desc.split()[0]]; the empty string stands for the missing first token
    of a blank description (no description built by [weekly_detail] is
    blank). *)
Definition first_token (desc : string) : string := take_token (lstrip desc).

Definition is_digit (c : ascii) : bool :=
  let n := nat_of_ascii c in ((48 <=? n) && (n <=? 57))%nat.

Fixpoint all_digits (s : string) : bool :=
  match s with
  | EmptyString => true
  | String c r => is_digit c && all_digits r
  end.

(** [str.isdigit()] *)
Definition isdigit (s : string) : bool := str_truthy s && all_digits s.

Fixpoint int_of_digits (acc : Z) (s : string) : Z :=
  match s with
  | EmptyString => acc
  | String c r => int_of_digits (10 * acc + (Z.of_nat (nat_of_ascii c) - 48)) r
  end.

(** [int(desc.split()[0]) if desc.split()[0].isdigit() else 0] *)
Definition leading_count (desc : string) : Z :=
  let tok := first_token desc in
  if isdigit tok then int_of_digits 0 tok else 0.

(** The [if/elif] chain on [detail["type"]]. *)
Definition count_detail (st : CumStats) (detail : Detail) : CumStats :=
  let ty := d_type detail in
  if String.eqb ty "Champion" then
    mkCumStats (total_earnings st) (cu_championships st + 1) (cu_runner_ups st)
      (third_places st) (fourth_places st) (cu_weekly_highs st)
      (most_points_regular st) (seasons_participated st) (earnings_by_season st)
  else if String.eqb ty "Runner-Up" then
    mkCumStats (total_earnings st) (cu_championships st) (cu_runner_ups st + 1)
      (third_places st) (fourth_places st) (cu_weekly_highs st)
      (most_points_regular st) (seasons_participated st) (earnings_by_season st)
  else if String.eqb ty "3rd Place" then
    mkCumStats (total_earnings st) (cu_championships st) (cu_runner_ups st)
      (third_places st + 1) (fourth_places st) (cu_weekly_highs st)
      (most_points_regular st) (seasons_participated st) (earnings_by_season st)
  else if String.eqb ty "4th Place" then
    mkCumStats (total_earnings st) (cu_championships st) (cu_runner_ups st)
      (third_places st) (fourth_places st + 1) (cu_weekly_highs st)
      (most_points_regular st) (seasons_participated st) (earnings_by_season st)
  else if String.eqb ty "Weekly High Scores" then
    mkCumStats (total_earnings st) (cu_championships st) (cu_runner_ups st)
      (third_places st) (fourth_places st)
      (cu_weekly_highs st + leading_count (description detail))
      (most_points_regular st) (seasons_participated st) (earnings_by_season st)
  else if String.eqb ty "Most Points (Regular)" then
    mkCumStats (total_earnings st) (cu_championships st) (cu_runner_ups st)
      (third_places st) (fourth_places st) (cu_weekly_highs st)
      (most_points_regular st + 1) (seasons_participated st)
      (earnings_by_season st)
  else st.

(** The updates of [cumulative_payouts[owner]] for one payout above zero. *)
Definition add_payout (year : Z) (payout : OwnerPayout) (st : CumStats)
    : CumStats :=
  let st :=
    mkCumStats (total_earnings st + total_payout payout) (cu_championships st)
      (cu_runner_ups st) (third_places st) (fourth_places st)
      (cu_weekly_highs st) (most_points_regular st)
      (seasons_participated st + 1)
      (od_set Z.eqb (earnings_by_season st) year (total_payout payout)) in
  fold_left count_detail (details payout) st.

Definition CumTable : Type := odict string CumStats.

Definition cumulate_payout (year : Z) (tbl : CumTable) (payout : OwnerPayout)
    : CumTable :=
  if total_payout payout >? 0
  then od_upd String.eqb cum_default tbl (op_owner payout) (add_payout year payout)
  else tbl.

(** The loop over seasons: [cumulative_payouts] and [total_league_payouts]. *)
Definition cumulate_season (st : CumTable * Z) (season_data : SeasonPayouts)
    : CumTable * Z :=
  (fold_left (cumulate_payout (sp_season season_data)) (sp_payouts season_data)
             (fst st),
   snd st + season_total season_data).

Record CumEntry : Type := mkCumEntry {
  ce_owner : string;
  ce_stats : CumStats;
  avg_earnings_per_season : Q
}.

Definition cum_entry (item : string * CumStats) : CumEntry :=
  mkCumEntry (fst item) (snd item)
    (round2 (inject_Z (total_earnings (snd item))
             / inject_Z (Z.max 1 (seasons_participated (snd item))))).

Record CumulativePayouts : Type := mkCumulativePayouts {
  cumulative_payouts : list CumEntry;
  total_league_payouts : Z;
  payout_structure : PayoutStructure;
  total_owners : Z
}.

(** [PayoutService.get_cumulative_payouts] *)
Definition get_cumulative_payouts (historical_data : list Season)
    (current_season : Z) : CumulativePayouts :=
  let all_season_payouts := get_all_season_payouts historical_data current_season in
  let '(tbl, total) :=
    fold_left cumulate_season (asp_seasons all_season_payouts) ([], 0) in
  let cumulative_list :=
    sorted_by_desc (fun e => total_earnings (ce_stats e)) (map cum_entry tbl) in
  {| cumulative_payouts := cumulative_list;
     total_league_payouts := total;
     payout_structure := PAYOUT_STRUCTURE;
     total_owners := Zlen cumulative_list |}.

End Payout.

(* ===================================================================== *)
(** ** Vocabulary of the specification *)
(* ===================================================================== *)

Module Claims.
Import Espn Analytics Payout.

(** Identifiers that can be looked up in a dict at all. *)
Definition hashable (v : PyVal) : bool :=
  match v with
  | PList _ | PDict _ => false
  | _ => true
  end.

(** The owners of the static identity table. *)
Definition known_owner (o : string) : bool :=
  existsb (String.eqb o) (map snd Config.TEAM_TO_OWNER_MAP).

(** Input that is neither a string nor an object. *)
Definition shapeless (v : PyVal) : bool :=
  match v with
  | PStr _ | PDict _ => false
  | _ => true
  end.

(** Why one host attempt fails, with the text kept in [last_error]. *)
Inductive HostFailure (net : Network) (url : string)
    (params : list (string * string)) : string -> Prop :=
| transport_error e :
    net url params = RequestFailed e ->
    HostFailure net url params ("Request failed for " ++ url ++ ": " ++ e)%string
| non_200_response r :
    net url params = Responded r ->
    status_code r <> 200 ->
    HostFailure net url params
      ("HTTP " ++ str_of_Z (status_code r) ++ " from " ++ url)%string
| non_json_200_response r :
    net url params = Responded r ->
    status_code r = 200 ->
    contains "application/json" (opt_or (content_type r) "") = false ->
    HostFailure net url params
      ("HTTP " ++ str_of_Z (status_code r) ++ " from " ++ url)%string
| undecodable_200_response r e :
    net url params = Responded r ->
    status_code r = 200 ->
    contains "application/json" (opt_or (content_type r) "") = true ->
    json r = inl e ->
    HostFailure net url params ("Request failed for " ++ url ++ ": " ++ e)%string.

(** The host answers HTTP 200 with a JSON content type and a body that
    decodes. *)
Definition host_wins (net : Network) (url : string)
    (params : list (string * string)) (body : JsonBody) : Prop :=
  exists r, net url params = Responded r
            /\ status_code r = 200
            /\ contains "application/json" (opt_or (content_type r) "") = true
            /\ json r = inr body.

Definition last_opt {A} (l : list A) : option A :=
  match rev l with x :: _ => Some x | [] => None end.

(** "The error message aggregates the last failure per host": the text of
    every host's failure occurs in the message. *)
Definition aggregates_failures (hosts : list string) (net : Network)
    (path : string) (params : list (string * string)) (msg : string) : Prop :=
  forall h e, In h hosts -> HostFailure net (h ++ path)%string params e ->
              contains e msg = true.

(** A network on which the first host answers 500 and the other 404. *)
Definition failing_net : Network :=
  fun url _ =>
    if startswith "https://lm-api-reads" url
    then Responded (mkResponse 500 (Some "text/html") (inl "no body"))
    else Responded (mkResponse 404 (Some "text/html") (inl "no body")).

Definition sample_config : ServiceConfig := mkConfig "1" 2025 2022.


(** The owner's entry of [owner_stats]. *)
Definition stats_of (historical_data : list Season) (owner : string)
    : OwnerStats :=
  od_get_or String.eqb owner_stats_default (owner_stats historical_data) owner.

(** A valid game: exactly two participants, both scores above zero; its
    names and scores in listing order. *)
Definition Game : Type := (string * string * Q * Q)%type.

Definition valid_game (m : Matchup) : list Game :=
  match m_teams m with
  | [a; b] =>
      if Qgtb (score a) (0 # 1) && Qgtb (score b) (0 # 1)
      then [(mt_name a, mt_name b, score a, score b)]
      else []
  | _ => []
  end.

Definition valid_games (historical_data : list Season) : list Game :=
  flat_map (fun sd => flat_map valid_game (matchups sd)) historical_data.

(** The game was played between the names [a] and [b], in either order. *)
Definition between (a b : string) (g : Game) : bool :=
  let '(n1, n2, _, _) := g in
  (String.eqb n1 a && String.eqb n2 b) || (String.eqb n2 a && String.eqb n1 b).

(** [a] won the game against [b] as the tallies see it: the first-listed
    side wins on a strictly higher score, the second-listed side otherwise. *)
Definition won_by (a b : string) (g : Game) : bool :=
  let '(n1, n2, s1, s2) := g in
  (String.eqb n1 a && String.eqb n2 b && Qgtb s1 s2)
  || (String.eqb n2 a && String.eqb n1 b && negb (Qgtb s1 s2)).

(** The two names met in a valid matchup of the history. *)
Definition met (historical_data : list Season) (a b : string) : Prop :=
  exists g, In g (valid_games historical_data) /\ between a b g = true.

(** The report entry is the one of the unordered pair [{a, b}]. *)
Definition is_pair (a b : string) (e : H2HEntry) : bool :=
  (String.eqb (team1 e) a && String.eqb (team2 e) b)
  || (String.eqb (team1 e) b && String.eqb (team2 e) a).

(** Both levels of the table hold the key. *)
Definition h2h_has (t : H2HTable) (a b : string) : bool :=
  od_mem String.eqb (od_get_or String.eqb [] t a) b.

(** The key pairs of the table in iteration order. *)
Definition key_pairs (t : H2HTable) : list (string * string) :=
  flat_map (fun item => map (fun opp => (fst item, fst opp)) (snd item)) t.

(** The accounting of one valid game, as a fold step. *)
Definition play (t : H2HTable) (g : Game) : H2HTable :=
  let '(n1, n2, s1, s2) := g in record_game t n1 n2 s1 s2.

(** The conversion loop over an explicit list of key pairs. *)
Definition visit_all (t : H2HTable) (ps : list (string * string))
    (st : H2HState) : H2HState :=
  fold_left (fun st p => h2h_visit t st (fst p) (snd p)) ps st.

(** What the conversion loop maintains: one entry for each processed pair
    and none for the others; every entry comes from a key pair of [ks]. *)
Definition visit_inv (t : H2HTable) (ks : list (string * string))
    (st : H2HState) : Prop :=
  (forall a b, a <> b ->
     List.length (filter (is_pair a b) (snd st))
     = if pair_mem (sorted_pair a b) (fst st) then 1%nat else 0%nat)
  /\ (forall e, In e (snd st) ->
        exists c d, e = h2h_entry t c d /\ c <> d /\ In (c, d) ks).

(** Scenario 1 of the specification: "Owner A" 150.0 against "Owner B"
    100.0 in week 1, not a playoff game. *)
Definition scenario1 : list Season :=
  [ {| season := 2023; teams := [];
       matchups :=
         [ mkMatchup 1 false
             [ mkMatchupTeam 1 "Owner A" "Owner A" (150 # 1);
               mkMatchupTeam 2 "Owner B" "Owner B" (100 # 1) ] ];
       champion := None; runner_up := None; error := None |} ].

(** Two participants that share one display name. *)
Definition same_name_history : list Season :=
  [ {| season := 2023; teams := [];
       matchups :=
         [ mkMatchup 1 false
             [ mkMatchupTeam 11 "Team Unknown" "Unknown Owner" (120 # 1);
               mkMatchupTeam 12 "Team Unknown" "Unknown Owner" (90 # 1) ] ];
       champion := None; runner_up := None; error := None |} ].

(** A league in which two teams carry the same display name. *)
Definition namesakes_net : Network :=
  fun _ _ =>
    Responded
      (mkResponse 200 (Some "application/json")
         (inr (JObject
                 (Some [ mkRawTeam (Some 1) (Some "Dynasty") None None None
                                   (Some 1) (Some 1);
                         mkRawTeam (Some 2) (Some "Dynasty") None None None
                                   (Some 2) (Some 2) ])
                 (Some [ mkRawMatchup (Some 1) None
                           (Some (mkRawSide (Some 1) (Some (120 # 1))))
                           (Some (mkRawSide (Some 2) (Some (90 # 1)))) ])))).

(** Scenario 2 of the specification: final ranks 1 to 4 held by four
    owners, no matchups. *)
Definition scenario2_team (i : Z) (owner : string) : Team :=
  mkTeam (Some i) owner owner empty_record (Some i) (Some i).

Definition scenario2 : Season :=
  {| season := 2023;
     teams := [ scenario2_team 1 "Owner A"; scenario2_team 2 "Owner B";
                scenario2_team 3 "Owner C"; scenario2_team 4 "Owner D" ];
     matchups := [];
     champion := Some (scenario2_team 1 "Owner A");
     runner_up := Some (scenario2_team 2 "Owner B");
     error := None |}.

(** The ordering the specification words describe, on the API response:
    final rank, and the playoff seed when the final rank is absent. *)
Definition spec_rank_key (rt : RawTeam) : Z :=
  match rt_rankCalculatedFinal rt with
  | Some r => r
  | None => opt_or (rt_playoffSeed rt) 99
  end.

(** A season the API reports without final ranks; the playoff seeds run
    against the listing order. *)
Definition unranked_teams : list RawTeam :=
  [ mkRawTeam (Some 1) (Some "Arizona Cardinals") None None None (Some 4) None;
    mkRawTeam (Some 2) (Some "Numbnutsss") None None None (Some 3) None;
    mkRawTeam (Some 3) (Some "Stamford Mackie") None None None (Some 2) None;
    mkRawTeam (Some 4) (Some "CMB 3-Dan") None None None (Some 1) None ].

Definition unranked_net : Network :=
  fun _ _ =>
    Responded
      (mkResponse 200 (Some "application/json")
         (inr (JObject (Some unranked_teams) (Some [])))).

(** Owner, total and detail types of a payout list. *)
Definition payout_digest (sp : SeasonPayouts)
    : list (string * Z * list string) :=
  map (fun o => (op_owner o, total_payout o, map d_type (details o)))
      (sp_payouts sp).

(** A host that answers with a JSON array instead of an object. *)
Definition array_net : Network :=
  fun _ _ => Responded (mkResponse 200 (Some "application/json") (inr JArray)).

(** Scenario 3 of the specification: "Owner A" champion in two seasons of
    three. *)
Definition champion_season (year : Z) (champ ru : string) : Season :=
  {| season := year;
     teams := [ scenario2_team 1 champ; scenario2_team 2 ru ];
     matchups := [];
     champion := Some (scenario2_team 1 champ);
     runner_up := Some (scenario2_team 2 ru);
     error := None |}.

Definition scenario3 : list Season :=
  [ champion_season 2021 "Owner A" "Owner B";
    champion_season 2022 "Owner B" "Owner A";
    champion_season 2023 "Owner A" "Owner C" ].

(** Scenario 4 of the specification: a matchup with score 0 on both sides,
    next to a played one. *)
Definition scenario4 : Season :=
  {| season := 2023; teams := [];
     matchups :=
       [ mkMatchup 1 false
           [ mkMatchupTeam 1 "Owner A" "Owner A" (0 # 1);
             mkMatchupTeam 2 "Owner B" "Owner B" (0 # 1) ];
         mkMatchup 2 false
           [ mkMatchupTeam 1 "Owner A" "Owner A" (90 # 1);
             mkMatchupTeam 2 "Owner B" "Owner B" (110 # 1) ] ];
     champion := None; runner_up := None; error := None |}.

(** A league table in which two teams are reported with final rank 2 and
    none with final rank 1. *)
Definition two_seconds_net : Network :=
  fun _ _ =>
    Responded
      (mkResponse 200 (Some "application/json")
         (inr (JObject
                 (Some [ mkRawTeam (Some 1) (Some "Arizona Cardinals") None None
                                   None (Some 1) (Some 2);
                         mkRawTeam (Some 2) (Some "Numbnutsss") None None
                                   None (Some 2) (Some 2) ])
                 (Some [])))).

End Claims.

(* ===================================================================== *)
(** ** Vocabulary of the further properties *)
(* ===================================================================== *)

Module Props.
Import Espn Analytics Payout.

(** Later elements never come before earlier ones in the order [R]. *)
Definition sorted_wrt {A} (R : A -> A -> Prop) (l : list A) : Prop :=
  StronglySorted R l.


(** The money movements of one season, in the order the code makes them:
    podium, third and fourth place, most regular-season points, then one
    weekly high per week. *)
Definition podium_payments (season_data : Season) : list (string * Z) :=
  (match champion season_data with
   | Some c => [(team_owner c, ps_champion PAYOUT_STRUCTURE)]
   | None => []
   end)
  ++ (match runner_up season_data with
      | Some r => [(team_owner r, ps_runner_up PAYOUT_STRUCTURE)]
      | None => []
      end).

Definition place_payments (season_data : Season) : list (string * Z) :=
  let sorted_teams := sorted_by standing_key (teams season_data) in
  (match nth_error sorted_teams 2 with
   | Some t => [(team_owner t, ps_third_place PAYOUT_STRUCTURE)]
   | None => []
   end)
  ++ (match nth_error sorted_teams 3 with
      | Some t => [(team_owner t, ps_fourth_place PAYOUT_STRUCTURE)]
      | None => []
      end).

Definition most_points_payments (season_data : Season) : list (string * Z) :=
  match regular_season_leader_of
          (regular_season_totals (matchups season_data)) with
  | Some (o, _) => [(o, ps_most_points_regular PAYOUT_STRUCTURE)]
  | None => []
  end.

Definition weekly_payments (highs : list (Z * WeekHigh)) : list (string * Z) :=
  flat_map (fun item =>
              match wh_owner (snd item) with
              | Some o => if str_truthy o
                          then [(o, ps_weekly_high PAYOUT_STRUCTURE)] else []
              | None => []
              end)
           highs.

Definition payments (season_data : Season) : list (string * Z) :=
  podium_payments season_data
  ++ place_payments season_data
  ++ most_points_payments season_data
  ++ weekly_payments (weekly_highs_of (matchups season_data)).

(** [payouts[owner] += amount] for a list of movements. *)
Definition apply_payments (ps : list (string * Z)) (p : list (string * Z))
    : list (string * Z) :=
  fold_left (fun p m => od_upd String.eqb 0 p (fst m) (fun x => x + snd m)) ps p.


(** [if score_data["score"] > current["score"]: current = score_data] *)
Definition pick_high (cur sd : WeekHigh) : WeekHigh :=
  if Qgtb (wh_score sd) (wh_score cur) then sd else cur.

Definition best_of (scores : list WeekHigh) (cur : WeekHigh) : WeekHigh :=
  fold_left pick_high scores cur.

(** The participant entries of the matchups of week [w]. *)
Definition week_entries (ms : list Matchup) (w : Z) : list MatchupTeam :=
  flat_map (fun m => if week m =? w then m_teams m else []) ms.

(** [h] is the high of week [w]: a positive score posted that week by the
    recorded owner, and no entry of the week is above it. *)
Definition is_week_high (ms : list Matchup) (w : Z) (h : WeekHigh) : Prop :=
  0 < w
  /\ (0 < wh_score h)%Q
  /\ (exists t, In t (week_entries ms w)
                /\ wh_owner h = Some (entry_owner t)
                /\ wh_score h = score t)
  /\ (forall t, In t (week_entries ms w) -> (score t <= wh_score h)%Q).

(** What the loop over matchups maintains for [weekly_highs]. *)
Definition highs_inv (seen : list Matchup) (highs : list (Z * WeekHigh))
    : Prop :=
  NoDup (map fst highs)
  /\ (forall w h, od_get Z.eqb highs w = Some h -> is_week_high seen w h)
  /\ (forall w t, 0 < w -> In t (week_entries seen w) -> (0 < score t)%Q ->
                  od_mem Z.eqb highs w = true).


(** Every owner's running total is the sum of the amounts itemised for
    them. *)
Definition ledger_balanced (l : Ledger) : Prop :=
  forall o, od_get_or String.eqb 0 (payouts l) o
            = Zsum (map amount (od_get_or String.eqb [] (payout_details l) o)).

(** During the weekly award loop the weeks already paid are not itemised
    yet: they are counted in [weekly_high_details]. *)
Definition weekly_balanced (st : Ledger * list (string * Z)) : Prop :=
  forall o, od_get_or String.eqb 0 (payouts (fst st)) o
            = Zsum (map amount
                        (od_get_or String.eqb [] (payout_details (fst st)) o))
              + ps_weekly_high PAYOUT_STRUCTURE
                * od_get_or String.eqb 0 (snd st) o.


(** The owner is one of the identity table or the sentinel. *)
Definition resolved_owner (o : string) : Prop :=
  o = UNKNOWN_OWNER \/ Claims.known_owner o = true.


(** The counters of an owner agree with each other and with the year lists
    kept beside them. *)
Definition tallies_consistent (s : OwnerStats) : Prop :=
  games_played s = os_wins s + os_losses s + os_ties s
  /\ seasons_played s = Zlen (os_seasons s)
  /\ os_championships s = Zlen (championship_years s)
  /\ os_runner_ups s = Zlen (runner_up_years s)
  /\ 0 <= playoff_appearances s <= seasons_played s
  /\ os_championships s <= seasons_played s
  /\ os_runner_ups s <= seasons_played s.


(** The score records of a history in order of appearance: one per
    participant entry with a score above zero. *)
Definition score_records (historical_data : list Season) : list ScoreRecord :=
  flat_map
    (fun sd =>
       flat_map
         (fun m =>
            flat_map
              (fun t =>
                 if Qgtb (score t) (0 # 1)
                 then [mkScoreRecord (score t) (mt_name t) (mt_id t)
                                     (season sd) (week m) (playoff m)]
                 else [])
              (m_teams m))
         (matchups sd))
    historical_data.

(** What the collection loop of the scoring statistics maintains. *)
Definition scores_inv (acc : ScoreAcc) : Prop :=
  Zsum (map (fun it => Zlen (snd it)) (weekly_scores acc))
  = Zlen (all_scores acc)
  /\ Forall (fun it => snd it <> []) (weekly_scores acc)
  /\ NoDup (map fst (weekly_scores acc))
  /\ Forall (fun it => snd it <> []) (season_totals acc)
  /\ NoDup (map fst (season_totals acc)).


(** A season that the season statistics do not skip: it has teams and
    matchups. *)
Definition has_play (sd : Season) : bool :=
  match teams sd, matchups sd with
  | [], _ => false
  | _, [] => false
  | _, _ => true
  end.

(** The participant entries that count for the regular-season points: a
    score above zero in a matchup that is not a playoff game. *)
Definition regular_entries (ms : list Matchup) : list MatchupTeam :=
  flat_map (fun m => if playoff m then []
                     else filter (fun t => Qgtb (score t) (0 # 1)) (m_teams m))
           ms.

(** The regular-season points of an owner: their rounded scores, added up
    in order of appearance. *)
Definition owner_points (ms : list Matchup) (o : string) : Q :=
  Qsum (map (fun t => round2 (score t))
            (filter (fun t => String.eqb (entry_owner t) o)
                    (regular_entries ms))).


(** One turn of the regular-season accumulation, for an entry that counts. *)
Definition add_points (totals : list (string * Q)) (team : MatchupTeam)
    : list (string * Q) :=
  od_upd String.eqb (0 # 1) totals (entry_owner team)
         (fun x => (x + round2 (score team))%Q).


(** The value of a decimal numeral read digit by digit from [acc]. *)
Fixpoint uint_val (acc : Z) (d : Decimal.uint) : Z :=
  match d with
  | Decimal.Nil => acc
  | Decimal.D0 l => uint_val (10 * acc + 0) l
  | Decimal.D1 l => uint_val (10 * acc + 1) l
  | Decimal.D2 l => uint_val (10 * acc + 2) l
  | Decimal.D3 l => uint_val (10 * acc + 3) l
  | Decimal.D4 l => uint_val (10 * acc + 4) l
  | Decimal.D5 l => uint_val (10 * acc + 5) l
  | Decimal.D6 l => uint_val (10 * acc + 6) l
  | Decimal.D7 l => uint_val (10 * acc + 7) l
  | Decimal.D8 l => uint_val (10 * acc + 8) l
  | Decimal.D9 l => uint_val (10 * acc + 9) l
  end.

(** [x["playoff_seed"] or 999], the first component of the standings'
    sort key. *)
Definition seed_or_999 (x : Standing) : Z :=
  if st_playoff_seed x =? 0 then 999 else st_playoff_seed x.


(** The accumulation of the scoring statistics, one score record at a
    time. *)
Definition add_week (ws : list (Z * list ScoreRecord)) (rec : ScoreRecord)
    : list (Z * list ScoreRecord) :=
  od_upd Z.eqb [] ws (sr_week rec) (fun l => l ++ [rec]).

Definition add_total (st : list (Z * list (Z * Q))) (rec : ScoreRecord)
    : list (Z * list (Z * Q)) :=
  od_upd Z.eqb [] st (sr_season rec)
         (fun totals =>
            od_upd Z.eqb (0 # 1) totals (sr_team_id rec)
                   (fun x => (x + round2 (sr_score rec))%Q)).

Definition collect_record (acc : ScoreAcc) (rec : ScoreRecord) : ScoreAcc :=
  {| all_scores := all_scores acc ++ [rec];
     weekly_scores := add_week (weekly_scores acc) rec;
     season_totals := add_total (season_totals acc) rec |}.

(** [season_totals[season][team_id]] read. *)
Definition team_total (st : list (Z * list (Z * Q))) (y i : Z) : Q :=
  od_get_or Z.eqb (0 # 1) (od_get_or Z.eqb [] st y) i.

Definition in_season_team (y i : Z) (rec : ScoreRecord) : bool :=
  (sr_season rec =? y) && (sr_team_id rec =? i).

(** The team with id [i] posted a score above zero in season [y]. *)
Definition scored_in (historical_data : list Season) (y i : Z) : Prop :=
  exists rec, In rec (score_records historical_data)
              /\ sr_season rec = y /\ sr_team_id rec = i.

(** The points of team [i] in season [y]: its rounded scores above zero,
    added up in order of appearance. *)
Definition team_points (historical_data : list Season) (y i : Z) : Q :=
  Qsum (map (fun rec => round2 (sr_score rec))
            (filter (in_season_team y i) (score_records historical_data))).

(** The score records of week number [w]. *)
Definition week_records (historical_data : list Season) (w : Z)
    : list ScoreRecord :=
  filter (fun rec => sr_week rec =? w) (score_records historical_data).

(** The season-leader loop and the weekly-average loop of the scoring
    statistics. *)
Definition leaders_of (historical_data : list Season)
    (st : list (Z * list (Z * Q))) : list SeasonLeader :=
  flat_map
    (fun item =>
       match top_scorer (snd item) with
       | Some (top_id, top_score) =>
           [ mkSeasonLeader (fst item)
               (leader_name historical_data (fst item) top_id)
               (round2 top_score) top_id ]
       | None => []
       end)
    st.

Definition averages_of (ws : list (Z * list ScoreRecord))
    : list (Z * WeeklyAverage) :=
  flat_map
    (fun item =>
       match snd item with
       | [] => []
       | scores =>
           [ (fst item,
              mkWeeklyAverage (round2 (mean (map sr_score scores)))
                              (Zlen scores)) ]
       end)
    ws.

End Props.

(* ===================================================================== *)
(** ** Facts about the base layer *)
(* ===================================================================== *)

Section SortFacts.
Context {A : Type} (leb : A -> A -> bool).

Lemma insert_sorted_perm (x : A) (l : list A) :
  Permutation (insert_sorted leb x l) (x :: l).
Proof.
  induction l as [|y r IH]; simpl.
  - apply Permutation_refl.
  - destruct (leb x y).
    + apply Permutation_refl.
    + eapply Permutation_trans.
      * apply perm_skip, IH.
      * apply perm_swap.
Qed.

Lemma sort_stable_perm (l : list A) : Permutation (sort_stable leb l) l.
Proof.
  induction l as [|x r IH]; simpl.
  - apply perm_nil.
  - eapply Permutation_trans.
    + apply insert_sorted_perm.
    + apply perm_skip, IH.
Qed.

Lemma sort_stable_In (l : list A) (x : A) :
  In x (sort_stable leb l) <-> In x l.
Proof.
  split; apply Permutation_in.
  - apply sort_stable_perm.
  - apply Permutation_sym, sort_stable_perm.
Qed.

Lemma sort_stable_length (l : list A) :
  List.length (sort_stable leb l) = List.length l.
Proof. apply Permutation_length, sort_stable_perm. Qed.

(** An element that may stay in front of everything already sorted is put
    in front. *)
Lemma insert_sorted_front (x : A) (l : list A) :
  (forall y, In y l -> leb x y = true) ->
  insert_sorted leb x l = x :: l.
Proof.
  destruct l as [|y r]; simpl; intros H.
  - reflexivity.
  - rewrite (H y (or_introl eq_refl)). reflexivity.
Qed.

(** The first element that beats everything before it and yields to nothing
    after it comes out first; the rest is sorted as if it were not there. *)
Lemma sort_stable_first (l1 l2 : list A) (x : A) :
  (forall y, In y l1 -> leb y x = false) ->
  (forall y, In y l2 -> leb x y = true) ->
  sort_stable leb (l1 ++ x :: l2) = x :: sort_stable leb (l1 ++ l2).
Proof.
  intros H1 H2. induction l1 as [|y r IH]; simpl.
  - apply insert_sorted_front. intros y Hy. apply H2.
    exact (proj1 (sort_stable_In l2 y) Hy).
  - rewrite IH by (intros z Hz; apply H1; right; exact Hz).
    simpl. rewrite (H1 y (or_introl eq_refl)). reflexivity.
Qed.

End SortFacts.

Lemma Zsum_from (l : list Z) (a : Z) : fold_left Z.add l a = a + Zsum l.
Proof.
  unfold Zsum. revert a. induction l as [|x r IH]; intros a; simpl.
  - lia.
  - rewrite IH, (IH x). lia.
Qed.

Lemma Zsum_cons (x : Z) (l : list Z) : Zsum (x :: l) = x + Zsum l.
Proof. unfold Zsum at 1. simpl. apply Zsum_from. Qed.

Lemma Zsum_perm (l l' : list Z) : Permutation l l' -> Zsum l = Zsum l'.
Proof.
  induction 1 as [|x l l' _ IH|x y l|l l' l'' _ IH1 _ IH2].
  - reflexivity.
  - rewrite !Zsum_cons, IH. reflexivity.
  - rewrite !Zsum_cons. lia.
  - congruence.
Qed.

Lemma Qgtb_true_iff (x y : Q) : Qgtb x y = true <-> (y < x)%Q.
Proof.
  unfold Qgtb. rewrite Qgt_alt. destruct (Qcompare x y); split; congruence.
Qed.


(** Dictionaries with string keys. *)
Section ODictFacts.
Context {V : Type}.
Implicit Types (d : list (string * V)) (k : string) (v : V).

Lemma od_get_set_same d k v : od_get String.eqb (od_set String.eqb d k v) k = Some v.
Proof.
  induction d as [|[k' v'] r IH]; simpl.
  - rewrite String.eqb_refl. reflexivity.
  - destruct (String.eqb k k') eqn:E; simpl; rewrite E; auto.
Qed.

Lemma od_get_set_other d k k' v :
  k <> k' -> od_get String.eqb (od_set String.eqb d k v) k' = od_get String.eqb d k'.
Proof.
  intros Hne. induction d as [|[k0 v0] r IH]; simpl.
  - destruct (String.eqb_spec k' k); [congruence | reflexivity].
  - destruct (String.eqb_spec k k0) as [->|Hk]; simpl.
    + destruct (String.eqb_spec k' k0); [congruence | reflexivity].
    + destruct (String.eqb k' k0); [reflexivity | exact IH].
Qed.

Lemma od_keys_set d k v :
  map fst (od_set String.eqb d k v)
  = if od_mem String.eqb d k then map fst d else map fst d ++ [k].
Proof.
  unfold od_mem. induction d as [|[k0 v0] r IH]; simpl.
  - reflexivity.
  - destruct (String.eqb k k0); simpl.
    + reflexivity.
    + rewrite IH. destruct (od_get String.eqb r k); reflexivity.
Qed.

Lemma od_mem_In d k : od_mem String.eqb d k = true <-> In k (map fst d).
Proof.
  unfold od_mem. induction d as [|[k0 v0] r IH]; simpl.
  - split; [discriminate | tauto].
  - destruct (String.eqb_spec k k0) as [->|Hne].
    + split; auto.
    + rewrite IH. split; [auto | intros [H|H]; congruence].
Qed.

Lemma od_get_In d k v : od_get String.eqb d k = Some v -> In (k, v) d.
Proof.
  induction d as [|[k0 v0] r IH]; simpl; [discriminate|].
  destruct (String.eqb_spec k k0) as [->|Hne].
  - intros [= ->]. left. reflexivity.
  - intros H. right. auto.
Qed.

Lemma od_In_get d k v :
  NoDup (map fst d) -> In (k, v) d -> od_get String.eqb d k = Some v.
Proof.
  induction d as [|[k0 v0] r IH]; simpl; [tauto|].
  intros Hnd [H|H].
  - inversion H; subst. rewrite String.eqb_refl. reflexivity.
  - inversion Hnd as [|? ? Hnot Hnd']; subst.
    destruct (String.eqb_spec k k0) as [->|Hne].
    + exfalso. apply Hnot. apply (in_map fst) in H. exact H.
    + auto.
Qed.

Lemma od_set_NoDup d k v :
  NoDup (map fst d) -> NoDup (map fst (od_set String.eqb d k v)).
Proof.
  intros Hnd. rewrite od_keys_set.
  destruct (od_mem String.eqb d k) eqn:E; [exact Hnd|].
  apply NoDup_app; [exact Hnd | repeat constructor; simpl; tauto |].
  intros x Hx [<-|[]]. apply od_mem_In in Hx. congruence.
Qed.

Lemma od_mem_set d k k' v :
  od_mem String.eqb (od_set String.eqb d k v) k'
  = od_mem String.eqb d k' || String.eqb k k'.
Proof.
  unfold od_mem. destruct (String.eqb_spec k k') as [<-|Hne].
  - rewrite od_get_set_same. apply eq_sym, orb_true_r.
  - rewrite od_get_set_other by exact Hne. rewrite orb_false_r. reflexivity.
Qed.

Lemma od_get_or_upd_same (dflt : V) d k (f : V -> V) :
  od_get_or String.eqb dflt (od_upd String.eqb dflt d k f) k
  = f (od_get_or String.eqb dflt d k).
Proof. unfold od_upd, od_get_or at 1. rewrite od_get_set_same. reflexivity. Qed.

Lemma od_get_or_upd_other (dflt dflt' : V) d k k' (f : V -> V) :
  k <> k' ->
  od_get_or String.eqb dflt' (od_upd String.eqb dflt d k f) k'
  = od_get_or String.eqb dflt' d k'.
Proof.
  intros H. unfold od_upd, od_get_or. rewrite od_get_set_other by exact H.
  reflexivity.
Qed.

End ODictFacts.

(* ===================================================================== *)
(** ** Identity resolution *)
(* ===================================================================== *)

Section Resolver.
Import Espn Claims.

Lemma team_key_owner (z : Z) :
  exists o,
    match od_get Z.eqb Config.TEAM_ID_MAP z with
    | Some tk =>
        if str_truthy tk
        then ret (od_get_or String.eqb UNKNOWN_OWNER Config.TEAM_TO_OWNER_MAP tk)
        else ret UNKNOWN_OWNER
    | None => ret UNKNOWN_OWNER
    end = inr o
    /\ (o = UNKNOWN_OWNER \/ known_owner o = true).
Proof.
  unfold Config.TEAM_ID_MAP. simpl.
  repeat match goal with
         | |- context [Z.eqb z ?n] => destruct (Z.eqb z n)
         end;
    eexists; (split; [reflexivity|]); (right; reflexivity) || (left; reflexivity).
Qed.

Lemma map_team_to_owner_hashable (team_id : PyVal) :
  hashable team_id = true ->
  exists o, _map_team_to_owner team_id = inr o
            /\ (o = UNKNOWN_OWNER \/ known_owner o = true).
Proof.
  intros Hh. unfold _map_team_to_owner.
  destruct team_id as [|b|z|q|s|l|d]; try discriminate Hh; simpl.
  - exists UNKNOWN_OWNER. auto.
  - apply team_key_owner.
  - apply team_key_owner.
  - destruct (Qeq_bool q (inject_Z (Qfloor q))).
    + apply team_key_owner.
    + exists UNKNOWN_OWNER. auto.
  - exists UNKNOWN_OWNER. auto.
Qed.

(** C4, as amended.  Owner resolution returns a value for every string,
    integer, dict or None owner value and for every hashable team
    identifier.  [_map_team_to_owner] answers with an owner of the identity
    table or with the sentinel "Unknown Owner", the latter for every
    identifier outside the table.  [_get_owner_name] answers the sentinel
    for input that is neither a string nor a dict; a string always resolves
    to a string (an unmapped plain string to itself); a dict resolves to its
    [displayName], else to its [firstName], else to "Unknown". *)
Theorem owner_resolution_total :
  (forall team_id, hashable team_id = true ->
     exists o, _map_team_to_owner team_id = inr o
               /\ (o = UNKNOWN_OWNER \/ known_owner o = true))
  /\ (forall z, od_get Z.eqb Config.TEAM_ID_MAP z = None ->
        _map_team_to_owner (PInt z) = inr UNKNOWN_OWNER)
  /\ _map_team_to_owner PNone = inr UNKNOWN_OWNER
  /\ (forall v, shapeless v = true -> _get_owner_name v = PStr UNKNOWN_OWNER)
  /\ (forall s, exists o, _get_owner_name (PStr s) = PStr o)
  /\ (forall s, od_get String.eqb Config.OWNER_UUID_MAP s = None ->
        startswith "{" s = false -> _get_owner_name (PStr s) = PStr s)
  /\ (forall d n, od_get String.eqb d "displayName" = Some n ->
        _get_owner_name (PDict d) = n)
  /\ (forall d n, od_get String.eqb d "displayName" = None ->
        od_get String.eqb d "firstName" = Some n ->
        _get_owner_name (PDict d) = n)
  /\ (forall d, od_get String.eqb d "displayName" = None ->
        od_get String.eqb d "firstName" = None ->
        _get_owner_name (PDict d) = PStr "Unknown").
Proof.
  repeat split.
  - apply map_team_to_owner_hashable.
  - intros z Hz. unfold _map_team_to_owner, int_key, bind, ret.
    rewrite Hz. reflexivity.
  - intros v Hv. destruct v; try discriminate Hv; reflexivity.
  - intros s. unfold _get_owner_name.
    destruct (od_get String.eqb Config.OWNER_UUID_MAP s) as [m|];
      [destruct (str_truthy m)|];
      try destruct (startswith "{" s && endswith "}" s); eexists; reflexivity.
  - intros s Hs Hb. unfold _get_owner_name. rewrite Hs, Hb. reflexivity.
  - intros d n Hd. unfold _get_owner_name, od_get_or. rewrite Hd. reflexivity.
  - intros d n Hd Hf. unfold _get_owner_name, od_get_or. rewrite Hd, Hf.
    reflexivity.
  - intros d Hd Hf. unfold _get_owner_name, od_get_or. rewrite Hd, Hf.
    reflexivity.
Qed.

Lemma owner_resolution_total_witness :
  exists o, _map_team_to_owner (PInt 3) = inr o
            /\ (o = UNKNOWN_OWNER \/ known_owner o = true).
Proof.
  apply (proj1 owner_resolution_total). reflexivity.
Defined.

(** C4 as stated fails on an object without names: the answer is "Unknown",
    not the sentinel "Unknown Owner". *)
Lemma owner_resolution_sentinel_cx :
  _get_owner_name (PDict []) = PStr "Unknown"
  /\ _get_owner_name (PDict []) <> PStr UNKNOWN_OWNER.
Proof.
  split; [reflexivity | discriminate].
Qed.

(** A dict or a list is no dictionary key: handed one as team identifier,
    the lookup in [TEAM_ID_MAP] raises. *)
Example map_team_to_owner_unhashable :
  _map_team_to_owner (PDict []) = inl "unhashable type: 'dict'"
  /\ _map_team_to_owner (PList []) = inl "unhashable type: 'list'".
Proof. split; reflexivity. Qed.

End Resolver.

(* ===================================================================== *)
(** ** The season fetcher *)
(* ===================================================================== *)

Section Fetcher.
Import Espn Claims.
Variables (net : Network) (params : list (string * string)).

Lemma try_host_failure (url e : string) :
  try_host net url params = inl e <-> HostFailure net url params e.
Proof.
  unfold try_host. split.
  - destruct (net url params) as [r|m] eqn:En.
    + destruct (Z.eqb_spec (status_code r) 200) as [Hs|Hs].
      * destruct (contains "application/json" (opt_or (content_type r) ""))
          eqn:Ec.
        -- destruct (json r) as [m|b] eqn:Ej; [|discriminate].
           intros [= <-]. eapply undecodable_200_response; eauto.
        -- intros [= <-]. eapply non_json_200_response; eauto.
      * intros [= <-]. eapply non_200_response; eauto.
    + intros [= <-]. apply transport_error. exact En.
  - intros [m Hn|r Hn Hs|r Hn Hs Hc|r m Hn Hs Hc Hj]; rewrite Hn.
    + reflexivity.
    + destruct (Z.eqb_spec (status_code r) 200); [contradiction|reflexivity].
    + rewrite Hs. simpl. rewrite Hc. reflexivity.
    + rewrite Hs. simpl. rewrite Hc, Hj. reflexivity.
Qed.

Lemma try_host_success (url : string) (body : JsonBody) :
  try_host net url params = inr body <-> host_wins net url params body.
Proof.
  unfold try_host, host_wins. split.
  - destruct (net url params) as [r|m] eqn:En; [|discriminate].
    destruct (Z.eqb_spec (status_code r) 200) as [Hs|Hs]; [|discriminate].
    destruct (contains "application/json" (opt_or (content_type r) "")) eqn:Ec;
      [|discriminate].
    destruct (json r) as [m|b] eqn:Ej; [discriminate|].
    intros [= <-]. exists r. auto.
  - intros (r & Hn & Hs & Hc & Hj). rewrite Hn, Hs. simpl.
    rewrite Hc, Hj. reflexivity.
Qed.

Lemma request_loop_success (path : string) (hosts : list string)
    (last : option string) (body : JsonBody) :
  request_loop net hosts path params last = inr body <->
  exists before h after,
    hosts = before ++ h :: after
    /\ Forall (fun x => exists e, HostFailure net (x ++ path)%string params e)
              before
    /\ host_wins net (h ++ path)%string params body.
Proof.
  revert last. induction hosts as [|h0 rest IH]; intros last; simpl.
  - split; [discriminate|].
    intros (b & h & a & Heq & _). destruct b; discriminate.
  - destruct (try_host net (h0 ++ path)%string params) as [e|b0] eqn:Et.
    + rewrite IH. apply try_host_failure in Et. split.
      * intros (b & h & a & -> & Hf & Hw).
        exists (h0 :: b), h, a. repeat split; auto.
        constructor; eauto.
      * intros (b & h & a & Heq & Hf & Hw).
        destruct b as [|x b]; simpl in Heq; injection Heq as <- Heq.
        -- apply try_host_success in Hw.
           apply try_host_failure in Et. congruence.
        -- exists b, h, a. inversion Hf; subst. auto.
    + apply try_host_success in Et. split.
      * intros [= <-]. exists [], h0, rest. repeat split; auto.
      * intros (b & h & a & Heq & Hf & Hw).
        destruct b as [|x b]; simpl in Heq; injection Heq as <- Heq.
        -- apply try_host_success in Hw, Et. unfold ret. congruence.
        -- inversion Hf as [|? ? [e He] _]; subst.
           apply try_host_failure in He. apply try_host_success in Et.
           congruence.
Qed.

Lemma last_opt_cons {A} (x : A) (l : list A) (d : option A) :
  match last_opt (x :: l) with Some e => Some e | None => d end
  = match last_opt l with Some e => Some e | None => Some x end.
Proof.
  unfold last_opt. simpl. destruct (rev l) as [|y r]; reflexivity.
Qed.

Lemma request_loop_failure (path : string) (hosts : list string)
    (last : option string) (msg : string) :
  request_loop net hosts path params last = inl msg <->
  exists errs,
    Forall2 (fun h e => HostFailure net (h ++ path)%string params e) hosts errs
    /\ msg = ("All API hosts failed. Last error: "
                ++ str_of_last_error
                     match last_opt errs with
                     | Some e => Some e
                     | None => last
                     end)%string.
Proof.
  revert last. induction hosts as [|h0 rest IH]; intros last; simpl.
  - split.
    + intros [= <-]. exists []. split; [constructor | reflexivity].
    + intros (errs & HF & ->). inversion HF; subst. reflexivity.
  - destruct (try_host net (h0 ++ path)%string params) as [e|b0] eqn:Et.
    + rewrite IH. apply try_host_failure in Et. split.
      * intros (errs & HF & ->). exists (e :: errs). split.
        -- constructor; assumption.
        -- rewrite last_opt_cons. reflexivity.
      * intros (errs & HF & ->). inversion HF as [|? e' ? errs' He HF']; subst.
        exists errs'. split; [assumption|].
        rewrite last_opt_cons.
        apply try_host_failure in Et, He.
        assert (e' = e) by congruence. subst. reflexivity.
    + apply try_host_success in Et. split; [discriminate|].
      intros (errs & HF & _). inversion HF as [|? e' ? ? He _]; subst.
      apply try_host_failure in He. apply try_host_success in Et. congruence.
Qed.

End Fetcher.

Section FetcherClaims.
Import Espn Claims.

(** C5, as amended.  [_make_request] tries the hosts in order.  It returns
    the body of the first host that answers HTTP 200 with a JSON content
    type and a decodable body, every host before it having failed; it
    raises exactly when every host has failed (transport error, non-200
    response, 200 response that is not JSON), and the message then carries
    the failure of the last host only ("None" for an empty host list). *)
Theorem make_request_first_success_or_last_error
    (hosts : list string) (cfg : ServiceConfig) (net : Network) (year : Z)
    (params : list (string * string)) :
  let path := api_path year (LEAGUE_ID cfg) in
  (forall body,
     make_request_on hosts cfg net year params = inr body <->
     exists before h after,
       hosts = before ++ h :: after
       /\ Forall (fun x => exists e, HostFailure net (x ++ path)%string params e)
                 before
       /\ host_wins net (h ++ path)%string params body)
  /\ (forall msg,
        make_request_on hosts cfg net year params = inl msg <->
        exists errs,
          Forall2 (fun h e => HostFailure net (h ++ path)%string params e)
                  hosts errs
          /\ msg = ("All API hosts failed. Last error: "
                      ++ str_of_last_error (last_opt errs))%string).
Proof.
  intros path. split.
  - intros body. apply request_loop_success.
  - intros msg. unfold make_request_on. fold path.
    rewrite request_loop_failure.
    split; intros (errs & HF & ->); exists errs; (split; [assumption|]);
      destruct (last_opt errs); reflexivity.
Qed.

(** C5 as stated fails: with both hosts failing, the message names the
    failure of the second host and not that of the first. *)
Lemma error_message_not_aggregated_cx :
  exists msg,
    _make_request sample_config failing_net 2024 [("view", "mTeam")] = inl msg
    /\ ~ aggregates_failures api_hosts failing_net
           (api_path 2024 (LEAGUE_ID sample_config)) [("view", "mTeam")] msg.
Proof.
  eexists. split.
  - vm_compute. reflexivity.
  - intros H.
    assert (Hf : HostFailure failing_net
                   ("https://lm-api-reads.fantasy.espn.com"
                      ++ api_path 2024 (LEAGUE_ID sample_config))%string
                   [("view", "mTeam")]
                   ("HTTP " ++ str_of_Z 500 ++ " from "
                      ++ ("https://lm-api-reads.fantasy.espn.com"
                            ++ api_path 2024 (LEAGUE_ID sample_config)))%string).
    { apply (non_200_response failing_net _ _
               (mkResponse 500 (Some "text/html") (inl "no body"))).
      - reflexivity.
      - discriminate. }
    specialize (H _ _ (or_introl eq_refl) Hf).
    vm_compute in H. discriminate H.
Qed.

End FetcherClaims.

(* ===================================================================== *)
(** ** The season normaliser *)
(* ===================================================================== *)

Section Normaliser.
Import Espn Analytics Claims.

Lemma Forall_failures_errs (net : Network) (path : string)
    (params : list (string * string)) (hosts : list string) :
  Forall (fun h => exists e, HostFailure net (h ++ path)%string params e) hosts ->
  exists errs,
    Forall2 (fun h e => HostFailure net (h ++ path)%string params e) hosts errs.
Proof.
  induction 1 as [|h r [e He] _ [errs IH]].
  - exists []. constructor.
  - exists (e :: errs). constructor; assumption.
Qed.

Lemma make_request_all_fail (cfg : ServiceConfig) (net : Network) (year : Z)
    (params : list (string * string)) :
  Forall (fun h => exists e,
            HostFailure net (h ++ api_path year (LEAGUE_ID cfg))%string params e)
         api_hosts ->
  exists msg, _make_request cfg net year params = inl msg.
Proof.
  intros H. destruct (Forall_failures_errs _ _ _ _ H) as [errs HF].
  eexists. apply request_loop_failure. exists errs.
  split; [exact HF | reflexivity].
Qed.

(** The resolver never raises on the identifiers the normaliser hands it. *)
Lemma map_team_to_owner_id (o : option Z) :
  exists owner, _map_team_to_owner (py_of_id o) = inr owner.
Proof.
  destruct (map_team_to_owner_hashable (py_of_id o)) as (owner & H & _).
  - destruct o; reflexivity.
  - exists owner. exact H.
Qed.


Lemma season_body_year (cfg : ServiceConfig) (net : Network) (year : Z)
    (s : Season) :
  season_body cfg net year = inr s -> season s = year.
Proof.
  unfold season_body, bind, ret.
  repeat match goal with
         | |- context [match ?c with inl _ => _ | inr _ => _ end] =>
             destruct c; try discriminate
         end.
  intros [= <-]. reflexivity.
Qed.

(** C3.  Whenever the fetch or the normalisation of a season raises,
    [get_season_data] returns the record of that year with no teams, no
    matchups, no champion, no runner-up and the text of the exception as
    its error; this covers the failure of every API host on either request.
    The function returns a record of the requested year in every case. *)
Theorem get_season_data_absorbs_exceptions
    (cfg : ServiceConfig) (net : Network) (year : Z) :
  (forall e, season_body cfg net year = inl e ->
     let r := get_season_data cfg net year in
     season r = year /\ teams r = [] /\ matchups r = []
     /\ champion r = None /\ runner_up r = None /\ error r = Some e)
  /\ (Forall (fun h => exists e,
                HostFailure net (h ++ api_path year (LEAGUE_ID cfg))%string
                            [("view", "mTeam")] e)
             api_hosts ->
      exists e, season_body cfg net year = inl e)
  /\ season (get_season_data cfg net year) = year.
Proof.
  split; [|split].
  - intros e He. unfold get_season_data. rewrite He. simpl. auto 10.
  - intros H. destruct (make_request_all_fail cfg net year _ H) as [msg Hm].
    exists msg. unfold season_body. rewrite Hm. reflexivity.
  - unfold get_season_data.
    destruct (season_body cfg net year) as [e|s] eqn:E.
    + reflexivity.
    + apply (season_body_year _ _ _ _ E).
Qed.

Lemma get_season_data_absorbs_exceptions_witness :
  let r := get_season_data sample_config failing_net 2024 in
  season r = 2024 /\ teams r = [] /\ matchups r = []
  /\ champion r = None /\ runner_up r = None
  /\ error r
     = Some "All API hosts failed. Last error: HTTP 404 from https://fantasy.espn.com/apis/v3/games/ffl/seasons/2024/segments/0/leagues/1".
Proof.
  apply (proj1 (get_season_data_absorbs_exceptions sample_config failing_net 2024)).
  vm_compute. reflexivity.
Defined.

End Normaliser.

(* ===================================================================== *)
(** ** All-time statistics *)
(* ===================================================================== *)

Section AllTime.
Import Espn Analytics Claims.

Lemma Zlen_app {A} (l l' : list A) : Zlen (l ++ l') = Zlen l + Zlen l'.
Proof. unfold Zlen. rewrite length_app. lia. Qed.

Lemma Zlen_cons {A} (x : A) (l : list A) : Zlen (x :: l) = 1 + Zlen l.
Proof. unfold Zlen. simpl List.length. lia. Qed.






End AllTime.

(* ===================================================================== *)
(** ** Head-to-head tallies *)
(* ===================================================================== *)

Section HeadToHeadTable.
Import Espn Analytics Claims.

Lemma h2h_lookup_upd (t : H2HTable) (a b c d : string)
    (f : H2HRecord -> H2HRecord) :
  h2h_lookup (h2h_upd t a b f) c d
  = if String.eqb a c && String.eqb b d
    then f (h2h_lookup t c d) else h2h_lookup t c d.
Proof.
  unfold h2h_lookup, h2h_upd.
  destruct (String.eqb_spec a c) as [<-|Hac]; simpl.
  - rewrite od_get_or_upd_same.
    destruct (String.eqb_spec b d) as [<-|Hbd].
    + apply od_get_or_upd_same.
    + apply od_get_or_upd_other. exact Hbd.
  - rewrite od_get_or_upd_other by exact Hac. reflexivity.
Qed.

Lemma h2h_has_upd (t : H2HTable) (a b c d : string)
    (f : H2HRecord -> H2HRecord) :
  h2h_has (h2h_upd t a b f) c d
  = h2h_has t c d || (String.eqb a c && String.eqb b d).
Proof.
  unfold h2h_has, h2h_upd.
  destruct (String.eqb_spec a c) as [<-|Hac]; simpl.
  - rewrite od_get_or_upd_same. unfold od_upd. apply od_mem_set.
  - rewrite od_get_or_upd_other by exact Hac. rewrite orb_false_r. reflexivity.
Qed.

Lemma h2h_upd_NoDup (t : H2HTable) (a b : string)
    (f : H2HRecord -> H2HRecord) :
  NoDup (map fst t) -> NoDup (map fst (h2h_upd t a b f)).
Proof. intros H. unfold h2h_upd, od_upd. apply od_set_NoDup. exact H. Qed.

(** What one valid game adds to the record of [a] against [b]. *)
Lemma record_game_lookup (t : H2HTable) (n1 n2 : string) (s1 s2 : Q)
    (a b : string) :
  let r := h2h_lookup t a b in
  let r' := h2h_lookup (record_game t n1 n2 s1 s2) a b in
  let fwd := String.eqb n1 a && String.eqb n2 b in
  let bwd := String.eqb n2 a && String.eqb n1 b in
  h_games r' = h_games r + (if fwd then 1 else 0) + (if bwd then 1 else 0)
  /\ h_wins r'
     = h_wins r + (if fwd && Qgtb s1 s2 then 1 else 0)
       + (if bwd && negb (Qgtb s1 s2) then 1 else 0)
  /\ h_losses r'
     = h_losses r + (if fwd && negb (Qgtb s1 s2) then 1 else 0)
       + (if bwd && Qgtb s1 s2 then 1 else 0).
Proof.
  cbv zeta. unfold record_game.
  destruct (Qgtb s1 s2); rewrite !h2h_lookup_upd;
    destruct (String.eqb n1 a), (String.eqb n2 b), (String.eqb n2 a),
             (String.eqb n1 b); simpl; repeat split; lia.
Qed.

Lemma record_game_has (t : H2HTable) (n1 n2 : string) (s1 s2 : Q)
    (a b : string) :
  h2h_has (record_game t n1 n2 s1 s2) a b
  = h2h_has t a b || between a b (n1, n2, s1, s2).
Proof.
  unfold record_game, between.
  destruct (Qgtb s1 s2); rewrite !h2h_has_upd;
    destruct (h2h_has t a b), (String.eqb n1 a), (String.eqb n2 b),
             (String.eqb n2 a), (String.eqb n1 b); reflexivity.
Qed.

Lemma record_game_NoDup (t : H2HTable) (n1 n2 : string) (s1 s2 : Q) :
  NoDup (map fst t) -> NoDup (map fst (record_game t n1 n2 s1 s2)).
Proof.
  intros H. unfold record_game.
  destruct (Qgtb s1 s2); repeat apply h2h_upd_NoDup; exact H.
Qed.



End HeadToHeadTable.

Section HeadToHeadReport.
Import Espn Analytics Claims.

Lemma fold_left_flat_map {A B C} (f : A -> C -> A) (g : B -> list C)
    (l : list B) (a : A) :
  fold_left f (flat_map g l) a = fold_left (fun a x => fold_left f (g x) a) l a.
Proof.
  revert a. induction l as [|x r IH]; intros a; simpl.
  - reflexivity.
  - rewrite fold_left_app. apply IH.
Qed.

Lemma fold_left_map {A B C} (f : A -> C -> A) (g : B -> C) (l : list B) (a : A) :
  fold_left f (map g l) a = fold_left (fun a x => f a (g x)) l a.
Proof.
  revert a. induction l as [|x r IH]; intros a; simpl; auto.
Qed.

Lemma fold_left_ext {A B} (f g : A -> B -> A) (l : list B) (a : A) :
  (forall a x, f a x = g a x) -> fold_left f l a = fold_left g l a.
Proof.
  intros H. revert a. induction l as [|x r IH]; intros a; simpl.
  - reflexivity.
  - rewrite H. apply IH.
Qed.

Lemma record_matchup_play (t : H2HTable) (m : Matchup) :
  record_matchup t m = fold_left play (valid_game m) t.
Proof.
  unfold record_matchup, valid_game.
  destruct (m_teams m) as [|a [|b [|c r]]]; try reflexivity.
  destruct (Qgtb (score a) (0 # 1) && Qgtb (score b) (0 # 1)); reflexivity.
Qed.

(** The table is the fold of the valid games, in order. *)
Lemma h2h_records_games (hist : list Season) :
  h2h_records hist = fold_left play (valid_games hist) [].
Proof.
  unfold h2h_records, valid_games. rewrite fold_left_flat_map.
  apply fold_left_ext. intros t sd. rewrite fold_left_flat_map.
  apply fold_left_ext. intros t' m. apply record_matchup_play.
Qed.

Lemma play_all_NoDup (gs : list Game) (t : H2HTable) :
  NoDup (map fst t) -> NoDup (map fst (fold_left play gs t)).
Proof.
  revert t. induction gs as [|[[[n1 n2] s1] s2] r IH]; intros t H; simpl.
  - exact H.
  - apply IH. apply record_game_NoDup. exact H.
Qed.

Lemma play_all_has (gs : list Game) (t : H2HTable) (a b : string) :
  h2h_has (fold_left play gs t) a b = h2h_has t a b || existsb (between a b) gs.
Proof.
  revert t. induction gs as [|[[[n1 n2] s1] s2] r IH]; intros t; simpl.
  - rewrite orb_false_r. reflexivity.
  - rewrite IH. simpl play. rewrite record_game_has. simpl.
    rewrite !orb_assoc. reflexivity.
Qed.

Lemma play_all_lookup (gs : list Game) (t : H2HTable) (a b : string) :
  a <> b ->
  h_games (h2h_lookup (fold_left play gs t) a b)
  = h_games (h2h_lookup t a b) + Zlen (filter (between a b) gs)
  /\ h_wins (h2h_lookup (fold_left play gs t) a b)
     = h_wins (h2h_lookup t a b) + Zlen (filter (won_by a b) gs).
Proof.
  intros Hab. revert t.
  induction gs as [|[[[n1 n2] s1] s2] r IH]; intros t.
  - simpl. unfold Zlen. simpl. split; lia.
  - change (fold_left play ((n1, n2, s1, s2) :: r) t)
      with (fold_left play r (play t (n1, n2, s1, s2))).
    destruct (IH (play t (n1, n2, s1, s2))) as [IG IW].
    rewrite IG, IW. simpl play.
    destruct (record_game_lookup t n1 n2 s1 s2 a b) as (G & W & _).
    cbv zeta in G, W. rewrite G, W. simpl filter. unfold between, won_by.
    destruct (String.eqb_spec n1 a), (String.eqb_spec n2 b),
             (String.eqb_spec n2 a), (String.eqb_spec n1 b);
      try congruence; simpl; destruct (Qgtb s1 s2); simpl;
      rewrite ?Zlen_cons; split; lia.
Qed.

Lemma Zlen_filter_cons {A} (f : A -> bool) (x : A) (l : list A) :
  Zlen (filter f (x :: l)) = (if f x then 1 else 0) + Zlen (filter f l).
Proof.
  simpl. destruct (f x); [apply Zlen_cons | lia].
Qed.

Lemma one_winner (g : Game) (a b : string) :
  a <> b ->
  (if between a b g then 1 else 0)
  = (if won_by a b g then 1 else 0) + (if won_by b a g then 1 else 0).
Proof.
  intros Hab. destruct g as [[[n1 n2] s1] s2]. unfold between, won_by.
  destruct (String.eqb_spec n1 a), (String.eqb_spec n2 b),
           (String.eqb_spec n2 a), (String.eqb_spec n1 b);
    try congruence; simpl; destruct (Qgtb s1 s2); reflexivity.
Qed.

(** Between two different names every game has exactly one winner. *)
Lemma games_split_by_winner (gs : list Game) (a b : string) :
  a <> b ->
  Zlen (filter (between a b) gs)
  = Zlen (filter (won_by a b) gs) + Zlen (filter (won_by b a) gs).
Proof.
  intros Hab. induction gs as [|g r IH].
  - reflexivity.
  - rewrite !Zlen_filter_cons, IH, (one_winner g a b Hab). lia.
Qed.

Lemma Zlen_filter_pos {A} (f : A -> bool) (l : list A) :
  existsb f l = true -> 0 < Zlen (filter f l).
Proof.
  induction l as [|x r IH]; simpl; [discriminate|].
  destruct (f x); simpl.
  - intros _. rewrite Zlen_cons. unfold Zlen. lia.
  - exact IH.
Qed.

Lemma Zlen_nonneg {A} (l : list A) : 0 <= Zlen l.
Proof. unfold Zlen. lia. Qed.

Lemma between_sym (a b : string) (g : Game) : between a b g = between b a g.
Proof.
  destruct g as [[[n1 n2] s1] s2]. unfold between.
  destruct (String.eqb n1 a), (String.eqb n2 b), (String.eqb n2 a),
           (String.eqb n1 b); reflexivity.
Qed.

Lemma met_existsb (hist : list Season) (a b : string) :
  met hist a b <-> existsb (between a b) (valid_games hist) = true.
Proof.
  unfold met. rewrite existsb_exists. reflexivity.
Qed.

(** The keys of the table. *)
Lemma table_In_get (t : H2HTable) (k : string)
    (inner : odict string H2HRecord) :
  NoDup (map fst t) -> In (k, inner) t -> od_get_or String.eqb [] t k = inner.
Proof.
  intros Hnd Hin. pose proof (od_In_get t k inner Hnd Hin) as H.
  change (match od_get String.eqb t k with Some v => v | None => [] end = inner).
  rewrite H. reflexivity.
Qed.

Lemma table_get_In (t : H2HTable) (k b : string) :
  od_mem String.eqb (od_get_or String.eqb [] t k) b = true ->
  In (k, od_get_or String.eqb [] t k) t.
Proof.
  unfold od_get_or. destruct (od_get String.eqb t k) as [inner|] eqn:E.
  - intros _. apply od_get_In. exact E.
  - discriminate.
Qed.

Lemma key_pairs_has (t : H2HTable) (a b : string) :
  NoDup (map fst t) -> In (a, b) (key_pairs t) <-> h2h_has t a b = true.
Proof.
  intros Hnd. unfold key_pairs, h2h_has.
  rewrite in_flat_map. split.
  - intros ([k inner] & Hin & Hab). simpl in Hab.
    apply in_map_iff in Hab. destruct Hab as ([k' v] & [= <- <-] & Hv).
    rewrite (table_In_get t k inner Hnd Hin). apply od_mem_In.
    apply (in_map fst) in Hv. exact Hv.
  - intros Hm. exists (a, od_get_or String.eqb [] t a).
    split; [apply (table_get_In t a b Hm)|].
    apply od_mem_In in Hm. apply in_map_iff in Hm.
    destruct Hm as ([k v] & <- & Hv).
    simpl. apply in_map_iff. exists (k, v). auto.
Qed.

Lemma h2h_convert_pairs (t : H2HTable) :
  h2h_convert t = visit_all t (key_pairs t) ([], []).
Proof.
  unfold h2h_convert, visit_all, key_pairs. rewrite fold_left_flat_map.
  apply fold_left_ext. intros st item. rewrite fold_left_map. reflexivity.
Qed.

(** The canonical key of a pair. *)
Lemma ltb_swap (a b : string) : a <> b -> String.ltb b a = negb (String.ltb a b).
Proof.
  intros Hab. unfold String.ltb. rewrite String.compare_antisym.
  destruct (String.compare a b) eqn:E; try reflexivity.
  apply String.compare_eq_iff in E. contradiction.
Qed.

Lemma sorted_pair_swap (a b : string) : sorted_pair a b = sorted_pair b a.
Proof.
  destruct (String.eqb_spec a b) as [->|Hab]; [reflexivity|].
  unfold sorted_pair. rewrite (ltb_swap a b Hab).
  destruct (String.ltb a b); reflexivity.
Qed.

Lemma sorted_pair_inv (a b c d : string) :
  sorted_pair a b = sorted_pair c d -> (a = c /\ b = d) \/ (a = d /\ b = c).
Proof.
  unfold sorted_pair.
  destruct (String.ltb b a), (String.ltb d c); intros [= -> ->]; auto.
Qed.

Lemma pair_eqb_eq (p q : string * string) : pair_eqb p q = true <-> p = q.
Proof.
  destruct p as [a b], q as [c d]. unfold pair_eqb. simpl.
  rewrite andb_true_iff, !String.eqb_eq. split.
  - intros [-> ->]. reflexivity.
  - intros [= -> ->]. auto.
Qed.

Lemma is_pair_sorted (a b c d : string) (e : H2HEntry) :
  team1 e = c -> team2 e = d ->
  is_pair a b e = pair_eqb (sorted_pair c d) (sorted_pair a b).
Proof.
  intros <- <-. unfold is_pair.
  destruct (pair_eqb (sorted_pair (team1 e) (team2 e)) (sorted_pair a b)) eqn:E.
  - apply pair_eqb_eq in E. apply sorted_pair_inv in E.
    destruct E as [[-> ->]|[-> ->]]; rewrite !String.eqb_refl; simpl.
    + reflexivity.
    + apply orb_true_r.
  - apply not_true_is_false. intros H. apply orb_true_iff in H.
    rewrite !andb_true_iff, !String.eqb_eq in H.
    assert (sorted_pair (team1 e) (team2 e) = sorted_pair a b) as Hs.
    { destruct H as [[-> ->]|[-> ->]]; [reflexivity | apply sorted_pair_swap]. }
    apply pair_eqb_eq in Hs. congruence.
Qed.

Lemma eqb_pair_sym (p q : string * string) : pair_eqb p q = pair_eqb q p.
Proof.
  unfold pair_eqb. rewrite (String.eqb_sym (fst p)), (String.eqb_sym (snd p)).
  reflexivity.
Qed.

Lemma pair_mem_In (p : string * string) (s : list (string * string)) :
  pair_mem p s = true <-> In p s.
Proof.
  unfold pair_mem. rewrite existsb_exists. split.
  - intros (q & Hq & E). apply pair_eqb_eq in E. subst. exact Hq.
  - intros H. exists p. split; [exact H | apply pair_eqb_eq; reflexivity].
Qed.

Lemma filter_length_perm {A} (f : A -> bool) (l l' : list A) :
  Permutation l l' -> List.length (filter f l) = List.length (filter f l').
Proof.
  induction 1 as [|x l l' _ IH|x y l|l l' l'' _ IH1 _ IH2]; simpl.
  - reflexivity.
  - destruct (f x); simpl; congruence.
  - destruct (f x), (f y); reflexivity.
  - congruence.
Qed.

(** One turn of the conversion loop keeps the invariant, never forgets a
    processed pair and processes the pair it visits. *)
Lemma h2h_visit_inv (t : H2HTable) (ks : list (string * string))
    (st : H2HState) (c d : string) :
  In (c, d) ks ->
  (c <> d -> 0 < h_games (h2h_lookup t c d)) ->
  visit_inv t ks st ->
  visit_inv t ks (h2h_visit t st c d)
  /\ (forall p, pair_mem p (fst st) = true ->
                pair_mem p (fst (h2h_visit t st c d)) = true)
  /\ (c <> d -> pair_mem (sorted_pair c d) (fst (h2h_visit t st c d)) = true).
Proof.
  intros Hin Hgames [Hcount Hsrc]. destruct st as [proc res].
  unfold h2h_visit. simpl fst in *. simpl snd in *.
  destruct (String.eqb_spec c d) as [Hcd|Hcd]; simpl negb; cbv iota.
  - repeat split; auto; intros; contradiction.
  - destruct (pair_mem (sorted_pair c d) proc) eqn:Hmem; simpl negb; cbv iota.
    + repeat split; auto.
    + assert (Hg : (h_games (h2h_lookup t c d) >? 0) = true)
        by (apply Z.gtb_lt; auto).
      rewrite Hg. repeat split; simpl fst; simpl snd.
      * intros a b Hab. rewrite filter_app, length_app, (Hcount a b Hab).
        simpl filter.
        rewrite (is_pair_sorted a b c d (h2h_entry t c d) eq_refl eq_refl).
        simpl pair_mem. rewrite (eqb_pair_sym (sorted_pair a b) (sorted_pair c d)).
        destruct (pair_eqb (sorted_pair c d) (sorted_pair a b)) eqn:E; simpl.
        -- apply pair_eqb_eq in E. rewrite <- E, Hmem. reflexivity.
        -- destruct (pair_mem (sorted_pair a b) proc); reflexivity.
      * intros e He. apply in_app_or in He. destruct He as [He|[<-|[]]].
        -- apply Hsrc. exact He.
        -- exists c, d. auto.
      * intros p Hp. simpl. rewrite Hp. apply orb_true_r.
      * intros _. simpl. rewrite (proj2 (pair_eqb_eq _ _) eq_refl). reflexivity.
Qed.

Lemma visit_all_inv (t : H2HTable) (ks ps : list (string * string))
    (st : H2HState) :
  (forall c d, In (c, d) ps -> In (c, d) ks) ->
  (forall c d, In (c, d) ps -> c <> d -> 0 < h_games (h2h_lookup t c d)) ->
  visit_inv t ks st ->
  visit_inv t ks (visit_all t ps st)
  /\ (forall p, pair_mem p (fst st) = true ->
                pair_mem p (fst (visit_all t ps st)) = true)
  /\ (forall c d, In (c, d) ps -> c <> d ->
        pair_mem (sorted_pair c d) (fst (visit_all t ps st)) = true).
Proof.
  revert st. induction ps as [|[c d] r IH]; intros st Hsub Hg Hinv.
  - unfold visit_all. simpl.
    split; [exact Hinv | split; [auto | intros c d []]].
  - simpl.
    destruct (h2h_visit_inv t ks st c d (Hsub c d (or_introl eq_refl))
                (Hg c d (or_introl eq_refl)) Hinv) as (I1 & M1 & P1).
    destruct (IH (h2h_visit t st c d)
                 (fun x y H => Hsub x y (or_intror H))
                 (fun x y H => Hg x y (or_intror H)) I1) as (I2 & M2 & P2).
    unfold visit_all in *. repeat split; try apply I2.
    + intros p Hp. apply M2, M1, Hp.
    + intros x y [[= -> ->]|Hin] Hxy.
      * apply M2, P1, Hxy.
      * apply P2; assumption.
Qed.

End HeadToHeadReport.

Section HeadToHeadClaim.
Import Espn Analytics Claims.

Lemma h2h_records_NoDup (hist : list Season) :
  NoDup (map fst (h2h_records hist)).
Proof.
  rewrite h2h_records_games. apply play_all_NoDup. constructor.
Qed.

Lemma h2h_records_has (hist : list Season) (a b : string) :
  h2h_has (h2h_records hist) a b = existsb (between a b) (valid_games hist).
Proof.
  rewrite h2h_records_games, play_all_has. reflexivity.
Qed.

Lemma h2h_records_lookup (hist : list Season) (a b : string) :
  a <> b ->
  h_games (h2h_lookup (h2h_records hist) a b)
  = Zlen (filter (between a b) (valid_games hist))
  /\ h_wins (h2h_lookup (h2h_records hist) a b)
     = Zlen (filter (won_by a b) (valid_games hist)).
Proof.
  intros Hab. rewrite h2h_records_games.
  destruct (play_all_lookup (valid_games hist) [] a b Hab) as [G W].
  rewrite G, W. split; reflexivity.
Qed.

Lemma key_pairs_met (hist : list Season) (a b : string) :
  In (a, b) (key_pairs (h2h_records hist)) <-> met hist a b.
Proof.
  rewrite key_pairs_has by apply h2h_records_NoDup.
  rewrite h2h_records_has. symmetry. apply met_existsb.
Qed.

(** The state of the conversion loop at its end. *)
Lemma h2h_convert_inv (hist : list Season) :
  let t := h2h_records hist in
  visit_inv t (key_pairs t) (h2h_convert t)
  /\ (forall c d, In (c, d) (key_pairs t) -> c <> d ->
        pair_mem (sorted_pair c d) (fst (h2h_convert t)) = true).
Proof.
  intros t. rewrite h2h_convert_pairs.
  destruct (visit_all_inv t (key_pairs t) (key_pairs t) ([], [])) as (I & _ & P).
  - auto.
  - intros c d Hin Hcd. subst t.
    destruct (h2h_records_lookup hist c d Hcd) as [G _]. rewrite G.
    apply Zlen_filter_pos. apply met_existsb, key_pairs_met, Hin.
  - split.
    + intros a b _. reflexivity.
    + intros e [].
  - split; assumption.
Qed.

(** C1, as amended.  The head-to-head report holds exactly one entry for
    every pair of different display names that met in a valid matchup (two
    participants, both scores above zero).  Every entry is about two different names that
    did meet; its game count is the number of their valid matchups, its win
    counts are the games each side won, the two win counts add up to the
    game count, and its series leader is the side with strictly more wins,
    "Tied" when the win counts are equal. *)
Theorem head_to_head_one_entry_per_pair (hist : list Season) :
  let out := head_to_head (get_head_to_head_stats hist) in
  (forall a b, a <> b -> met hist a b ->
     List.length (filter (is_pair a b) out) = 1%nat)
  /\ (forall e, In e out ->
        team1 e <> team2 e
        /\ met hist (team1 e) (team2 e)
        /\ team1_wins e + team2_wins e = total_games e
        /\ total_games e
           = Zlen (filter (between (team1 e) (team2 e)) (valid_games hist))
        /\ team1_wins e
           = Zlen (filter (won_by (team1 e) (team2 e)) (valid_games hist))
        /\ team2_wins e
           = Zlen (filter (won_by (team2 e) (team1 e)) (valid_games hist))
        /\ (team1_wins e > team2_wins e -> series_leader e = team1 e)
        /\ (team2_wins e > team1_wins e -> series_leader e = team2 e)
        /\ (team1_wins e = team2_wins e -> series_leader e = "Tied")).
Proof.
  intros out. subst out. unfold get_head_to_head_stats. simpl head_to_head.
  unfold sorted_by_desc.
  destruct (h2h_convert_inv hist) as ([Hcount Hsrc] & Hproc). cbv zeta in *.
  split.
  - intros a b Hab Hmet.
    rewrite (filter_length_perm _ _ _ (sort_stable_perm _ _)).
    rewrite (Hcount a b Hab).
    rewrite (Hproc a b (proj2 (key_pairs_met hist a b) Hmet) Hab). reflexivity.
  - intros e He. apply sort_stable_In in He.
    destruct (Hsrc e He) as (c & d & -> & Hcd & Hin).
    destruct (h2h_records_lookup hist c d Hcd) as [G W].
    destruct (h2h_records_lookup hist d c (not_eq_sym Hcd)) as [_ W'].
    pose proof (games_split_by_winner (valid_games hist) c d Hcd) as Hsplit.
    unfold h2h_entry. simpl.
    rewrite G, W, W'. repeat split; try assumption; try lia.
    + apply key_pairs_met. exact Hin.
    + intros H. apply Z.gt_lt, Z.gtb_lt in H. rewrite H. reflexivity.
    + intros H.
      destruct (Z.gtb_spec (Zlen (filter (won_by c d) (valid_games hist)))
                           (Zlen (filter (won_by d c) (valid_games hist))));
        [lia|].
      apply Z.gt_lt, Z.gtb_lt in H. rewrite H. reflexivity.
    + intros H. rewrite H.
      destruct (Z.gtb_spec (Zlen (filter (won_by d c) (valid_games hist)))
                           (Zlen (filter (won_by d c) (valid_games hist))));
        [lia | reflexivity].
Qed.

Lemma head_to_head_one_entry_per_pair_witness :
  List.length (filter (is_pair "Owner A" "Owner B")
                      (head_to_head (get_head_to_head_stats scenario1)))
  = 1%nat.
Proof.
  apply (proj1 (head_to_head_one_entry_per_pair scenario1)).
  - discriminate.
  - exists ("Owner A", "Owner B", 150 # 1, 100 # 1).
    split; [left; reflexivity | reflexivity].
Defined.

(** Scenario 1, evaluated. *)
Example scenario1_head_to_head :
  map (fun e => (team1 e, team2 e, team1_wins e, team2_wins e, total_games e,
                 series_leader e))
      (head_to_head (get_head_to_head_stats scenario1))
  = [("Owner A", "Owner B", 1, 0, 1, "Owner A")].
Proof. vm_compute. reflexivity. Qed.

(** The loop skips a key pair made of one name twice ([team1 != team2]):
    two participants sharing a display name leave no entry. *)
Example same_name_no_entry :
  head_to_head (get_head_to_head_stats same_name_history) = [].
Proof. vm_compute. reflexivity. Qed.

(** C1 as stated fails when the two participants share a display name: the
    names met in a valid matchup and the report has no entry for them. *)
Lemma same_name_pair_cx :
  met [get_season_data sample_config namesakes_net 2023] "Dynasty" "Dynasty"
  /\ filter (is_pair "Dynasty" "Dynasty")
            (head_to_head
               (get_head_to_head_stats
                  [get_season_data sample_config namesakes_net 2023]))
     = [].
Proof.
  split.
  - exists ("Dynasty", "Dynasty", 120 # 1, 90 # 1).
    split; [left; vm_compute; reflexivity | reflexivity].
  - vm_compute. reflexivity.
Qed.

End HeadToHeadClaim.

(* ===================================================================== *)
(** ** Payouts *)
(* ===================================================================== *)

Section PayoutClaims.
Import Espn Payout Claims.

Lemma Zsum_app (l l' : list Z) : Zsum (l ++ l') = Zsum l + Zsum l'.
Proof.
  induction l as [|x r IH]; simpl.
  - reflexivity.
  - rewrite !Zsum_cons, IH. lia.
Qed.

(** The season total is the sum of the owners' totals. *)
Lemma season_total_conserved (year : Z) (sd : Season) :
  season_total (season_payouts year sd)
  = Zsum (map total_payout (sp_payouts (season_payouts year sd))).
Proof.
  unfold season_payouts. simpl. unfold sorted_by_desc.
  rewrite (Zsum_perm _ _ (Permutation_map total_payout (sort_stable_perm _ _))).
  rewrite map_map. reflexivity.
Qed.

Lemma cumulate_total (l : list SeasonPayouts) (st : CumTable * Z) :
  snd (fold_left cumulate_season l st) = snd st + Zsum (map season_total l).
Proof.
  revert st. induction l as [|sp r IH]; intros st; simpl.
  - unfold Zsum. simpl. lia.
  - rewrite IH, Zsum_cons. simpl. lia.
Qed.

Lemma calculate_season_payouts_inr (hist : list Season) (year : Z)
    (sp : SeasonPayouts) :
  calculate_season_payouts hist year = inr sp ->
  exists sd, In sd hist /\ season sd = year /\ sp = season_payouts year sd.
Proof.
  unfold calculate_season_payouts.
  destruct (find (fun data => season data =? year) hist) as [sd|] eqn:E;
    [|discriminate].
  intros [= <-]. apply find_some in E. destruct E as [Hin Hy].
  exists sd. apply Z.eqb_eq in Hy. auto.
Qed.

(** C7.  Conservation of money: the season total reported by
    [calculate_season_payouts] is the sum of the owners' [total_payout]
    values of that season; the [total_league_payouts] of
    [get_cumulative_payouts] is the sum of [season_total] over the included
    seasons, which are the season payouts of the years before the current
    season. *)
Theorem payouts_conserve_money (hist : list Season) (current_season : Z) :
  (forall year sp,
     calculate_season_payouts hist year = inr sp ->
     season_total sp = Zsum (map total_payout (sp_payouts sp)))
  /\ total_league_payouts (get_cumulative_payouts hist current_season)
     = Zsum (map season_total
                 (asp_seasons (get_all_season_payouts hist current_season)))
  /\ (forall sp,
        In sp (asp_seasons (get_all_season_payouts hist current_season)) ->
        sp_season sp < current_season
        /\ calculate_season_payouts hist (sp_season sp) = inr sp).
Proof.
  split; [|split].
  - intros year sp H.
    destruct (calculate_season_payouts_inr hist year sp H) as (sd & _ & _ & ->).
    apply season_total_conserved.
  - unfold get_cumulative_payouts.
    pose proof (cumulate_total
                  (asp_seasons (get_all_season_payouts hist current_season))
                  ([], 0)) as H.
    destruct (fold_left cumulate_season
                (asp_seasons (get_all_season_payouts hist current_season))
                ([], 0)) as [tbl total].
    simpl in *. exact H.
  - intros sp Hin. unfold get_all_season_payouts in Hin. simpl in Hin.
    apply sort_stable_In in Hin. apply in_flat_map in Hin.
    destruct Hin as (sd & Hsd & Hsp).
    destruct (Z.geb_spec (season sd) current_season) as [|Hlt]; [destruct Hsp|].
    destruct (calculate_season_payouts hist (season sd)) as [e|sp'] eqn:E;
      [destruct Hsp|].
    destruct Hsp as [<-|[]].
    destruct (calculate_season_payouts_inr hist _ _ E) as (sd' & _ & _ & Heq).
    assert (Hy : sp_season sp' = season sd) by (rewrite Heq; reflexivity).
    rewrite Hy. split; [lia | exact E].
Qed.

Lemma payouts_conserve_money_witness :
  let sp := season_payouts 2023 scenario2 in
  season_total sp = Zsum (map total_payout (sp_payouts sp)).
Proof.
  intros sp.
  apply (proj1 (payouts_conserve_money [scenario2] 2024) 2023 sp).
  reflexivity.
Defined.

(** Scenario 2, evaluated: four ledger entries, one per owner, 570 in
    all. *)
Example scenario2_payouts :
  payout_digest (season_payouts 2023 scenario2)
  = [ ("Owner A", 300, ["Champion"]); ("Owner B", 150, ["Runner-Up"]);
      ("Owner C", 70, ["3rd Place"]); ("Owner D", 50, ["4th Place"]) ]
  /\ season_total (season_payouts 2023 scenario2) = 570.
Proof. vm_compute. split; reflexivity. Qed.

(** C6 at a season without final ranks.  [get_season_data] stores every
    final rank as 0, so the sort of [calculate_season_payouts] never reaches
    the playoff seed: the third and fourth place go to the third and fourth
    team of the listing (seeds 2 and 1), whereas the order by final rank
    with the playoff seed as fallback puts the teams of seeds 3 and 4
    there. *)
Theorem third_place_ignores_playoff_seed :
  let sd := get_season_data sample_config unranked_net 2023 in
  map final_rank (teams sd) = [Some 0; Some 0; Some 0; Some 0]
  /\ map playoff_seed (teams sd) = [Some 4; Some 3; Some 2; Some 1]
  /\ map t_owner (teams sd)
     = ["Dan Costa"; "Greg Costa"; "Scott Mackie"; "Dan S"]
  /\ (exists sp,
        calculate_season_payouts [sd] 2023 = inr sp
        /\ payout_digest sp
           = [ ("Scott Mackie", 70, ["3rd Place"]);
               ("Dan S", 50, ["4th Place"]) ])
  /\ map rt_id (sorted_by spec_rank_key unranked_teams)
     = [Some 4; Some 3; Some 2; Some 1].
Proof.
  vm_compute. repeat split. eexists. split; reflexivity.
Qed.

End PayoutClaims.

(* ===================================================================== *)
(** ** Champion and runner-up *)
(* ===================================================================== *)

Section Podium.
Import Espn Claims.

Lemma has_rank_iff (r : Z) (t : Team) :
  has_rank r t = true <-> final_rank t = Some r.
Proof.
  unfold has_rank, opt_Z_eqb. destruct (final_rank t) as [x|].
  - rewrite Z.eqb_eq. split; [intros ->; reflexivity | intros [= ->]; reflexivity].
  - split; discriminate.
Qed.

Lemma find_split {A} (f : A -> bool) (l : list A) (x : A) :
  find f l = Some x ->
  exists l1 l2, l = l1 ++ x :: l2 /\ f x = true
                /\ forall y, In y l1 -> f y = false.
Proof.
  induction l as [|a r IH]; simpl; [discriminate|].
  destruct (f a) eqn:E.
  - intros [= <-]. exists [], r. repeat split; auto. intros y [].
  - intros H. destruct (IH H) as (l1 & l2 & -> & Hx & Hl1).
    exists (a :: l1), l2. repeat split; auto.
    intros y [<-|Hy]; auto.
Qed.

Lemma find_skip {A} (f : A -> bool) (l1 l2 : list A) (x : A) :
  f x = false -> find f (l1 ++ x :: l2) = find f (l1 ++ l2).
Proof.
  intros Hx. induction l1 as [|a r IH]; simpl.
  - rewrite Hx. reflexivity.
  - destruct (f a); [reflexivity | exact IH].
Qed.

Lemma filter_nil_all {A} (f : A -> bool) (l : list A) :
  List.length (filter f l) = 0%nat -> forall y, In y l -> f y = false.
Proof.
  induction l as [|a r IH]; simpl; intros H y Hy; [destruct Hy|].
  destruct (f a) eqn:E; [discriminate|].
  destruct Hy as [<-|Hy]; auto.
Qed.

(** At most one element passes [f], and [x] does: nobody else does. *)
Lemma unique_pass {A} (f : A -> bool) (l1 l2 : list A) (x : A) :
  (List.length (filter f (l1 ++ x :: l2)) <= 1)%nat ->
  f x = true ->
  forall y, In y (l1 ++ l2) -> f y = false.
Proof.
  intros Hlen Hx. rewrite filter_app in Hlen. simpl in Hlen.
  rewrite Hx, length_app in Hlen. simpl in Hlen.
  intros y Hy. apply in_app_or in Hy. destruct Hy as [Hy|Hy].
  - apply (filter_nil_all f l1); [lia | exact Hy].
  - apply (filter_nil_all f l2); [lia | exact Hy].
Qed.

(** The sort key of a team with a sensible rank. *)
Lemma rank_key_bounds (t : Team) :
  (forall r, final_rank t = Some r -> 0 <= r) ->
  1 <= rank_or_999 t
  /\ (rank_or_999 t = 1 <-> has_rank 1 t = true)
  /\ (rank_or_999 t = 2 <-> has_rank 2 t = true).
Proof.
  intros H. rewrite !has_rank_iff. unfold rank_or_999.
  destruct (final_rank t) as [r|].
  - specialize (H r eq_refl). destruct (Z.eqb_spec r 0) as [->|Hr].
    + repeat split; try lia; try discriminate.
    + repeat split; try lia; try (intros ->; reflexivity);
        intros [= ->]; reflexivity.
  - repeat split; try lia; discriminate.
Qed.

(** The first team of a given rank comes out of the sort in front, when no
    team sorts below that rank. *)
Lemma sorted_front (ts : list Team) (k : Z) (x : Team) (f : Team -> bool) :
  (forall t, In t ts -> k <= rank_or_999 t) ->
  (forall t, In t ts -> (rank_or_999 t = k <-> f t = true)) ->
  find f ts = Some x ->
  exists l1 l2,
    ts = l1 ++ x :: l2
    /\ sorted_by rank_or_999 ts = x :: sorted_by rank_or_999 (l1 ++ l2).
Proof.
  intros Hlow Hkey Hfind.
  destruct (find_split f ts x Hfind) as (l1 & l2 & -> & Hx & Hl1).
  exists l1, l2. split; [reflexivity|].
  assert (Kx : rank_or_999 x = k).
  { apply Hkey; [apply in_elt | exact Hx]. }
  unfold sorted_by. apply sort_stable_first.
  - intros y Hy. apply Z.leb_gt. rewrite Kx.
    assert (Iy : In y (l1 ++ x :: l2)) by (apply in_or_app; left; exact Hy).
    pose proof (Hlow y Iy) as Hge.
    assert (rank_or_999 y <> k).
    { intros E. apply (Hkey y Iy) in E. rewrite (Hl1 y Hy) in E. discriminate. }
    lia.
  - intros y Hy. apply Z.leb_le. rewrite Kx. apply Hlow.
    apply in_or_app. right. right. exact Hy.
Qed.

Lemma pick_runner_up_none (x : Team) (rest : list Team) :
  (forall t, In t rest -> has_rank 2 t = false) ->
  pick_runner_up (x :: sorted_by rank_or_999 rest) = None.
Proof.
  intros H. unfold pick_runner_up.
  destruct (sorted_by rank_or_999 rest) as [|t1 r] eqn:E; [reflexivity|].
  rewrite H; [reflexivity|].
  apply (sort_stable_In (fun x y => rank_or_999 x <=? rank_or_999 y) rest t1).
  unfold sorted_by in E. rewrite E. left. reflexivity.
Qed.

(** The podium picked from the sorted teams, for final ranks that form a
    ranking: no negative rank, at most one team of rank 1 and of rank 2. *)
Lemma podium_of_ranking (ts : list Team) :
  (forall t r, In t ts -> final_rank t = Some r -> 0 <= r) ->
  (List.length (filter (has_rank 1) ts) <= 1)%nat ->
  (List.length (filter (has_rank 2) ts) <= 1)%nat ->
  pick_champion (sorted_by rank_or_999 ts) = find (has_rank 1) ts
  /\ pick_runner_up (sorted_by rank_or_999 ts)
     = match find (has_rank 1) ts with
       | Some _ => find (has_rank 2) ts
       | None => None
       end.
Proof.
  intros Hpos H1 H2.
  assert (B : forall t, In t ts ->
                1 <= rank_or_999 t
                /\ (rank_or_999 t = 1 <-> has_rank 1 t = true)
                /\ (rank_or_999 t = 2 <-> has_rank 2 t = true)).
  { intros t Ht. apply rank_key_bounds. intros r. apply Hpos. exact Ht. }
  destruct (find (has_rank 1) ts) as [x|] eqn:F1.
  - (* a team of rank 1 *)
    destruct (sorted_front ts 1 x (has_rank 1)) as (l1 & l2 & -> & ->);
      [intros t Ht; apply B, Ht | intros t Ht; apply B, Ht | exact F1 |].
    apply find_some in F1. destruct F1 as [_ Hx].
    pose proof (unique_pass _ l1 l2 x H1 Hx) as Hrest.
    assert (Hx2 : has_rank 2 x = false).
    { apply has_rank_iff in Hx. apply not_true_is_false. intros E.
      apply has_rank_iff in E. congruence. }
    split; [simpl; rewrite Hx; reflexivity|].
    rewrite (find_skip _ l1 l2 x Hx2).
    assert (Brest : forall t, In t (l1 ++ l2) -> In t (l1 ++ x :: l2)).
    { intros t Ht. apply in_app_or in Ht. apply in_or_app.
      destruct Ht; [left | right; right]; assumption. }
    destruct (find (has_rank 2) (l1 ++ l2)) as [y|] eqn:F2.
    + destruct (sorted_front (l1 ++ l2) 2 y (has_rank 2)) as (m1 & m2 & _ & ->).
      * intros t Ht. destruct (B t (Brest t Ht)) as (Hge & Hone & _).
        assert (rank_or_999 t <> 1).
        { intros E. apply Hone in E. rewrite (Hrest t Ht) in E. discriminate. }
        lia.
      * intros t Ht. apply B, Brest, Ht.
      * exact F2.
      * apply find_some in F2. destruct F2 as [_ Hy].
        simpl. rewrite Hy. reflexivity.
    + apply pick_runner_up_none. intros t Ht.
      apply (find_none _ _ F2 t Ht).
  - (* no team of rank 1 *)
    pose proof (find_none _ _ F1) as Hno1.
    assert (Hlow2 : forall t, In t ts -> 2 <= rank_or_999 t).
    { intros t Ht. destruct (B t Ht) as (Hge & Hone & _).
      assert (rank_or_999 t <> 1).
      { intros E. apply Hone in E. rewrite (Hno1 t Ht) in E. discriminate. }
      lia. }
    destruct (find (has_rank 2) ts) as [y|] eqn:F2.
    + destruct (sorted_front ts 2 y (has_rank 2)) as (m1 & m2 & -> & ->);
        [exact Hlow2 | intros t Ht; apply B, Ht | exact F2 |].
      apply find_some in F2. destruct F2 as [Hin Hy].
      split.
      * simpl. rewrite (Hno1 y Hin). reflexivity.
      * apply pick_runner_up_none. exact (unique_pass _ m1 m2 y H2 Hy).
    + pose proof (find_none _ _ F2) as Hno2.
      destruct (sorted_by rank_or_999 ts) as [|t0 r] eqn:E; [split; reflexivity|].
      assert (Hin : forall t, In t (t0 :: r) -> In t ts).
      { intros t Ht. rewrite <- E in Ht. unfold sorted_by in Ht.
        exact (proj1 (sort_stable_In _ ts t) Ht). }
      split.
      * simpl. rewrite (Hno1 t0 (Hin t0 (or_introl eq_refl))). reflexivity.
      * unfold pick_runner_up. destruct r as [|t1 r']; [reflexivity|].
        rewrite (Hno2 t1 (Hin t1 (or_intror (or_introl eq_refl)))).
        reflexivity.
Qed.

Lemma at_most_one_eq {A} (l : list A) (x y : A) :
  (List.length l <= 1)%nat -> In x l -> In y l -> x = y.
Proof.
  destruct l as [|a [|b r]]; simpl; intros H Hx Hy.
  - destruct Hx.
  - destruct Hx as [<-|[]], Hy as [<-|[]]. reflexivity.
  - lia.
Qed.

Lemma find_unique {A} (f : A -> bool) (l : list A) (t : A) :
  (List.length (filter f l) <= 1)%nat ->
  find f l = Some t <-> In t l /\ f t = true.
Proof.
  intros Hlen. split.
  - apply find_some.
  - intros [Hin Hf]. destruct (find f l) as [x|] eqn:E.
    + apply find_some in E. f_equal.
      apply (at_most_one_eq (filter f l)); [exact Hlen | |];
        apply filter_In; auto.
    + rewrite (find_none _ _ E t Hin) in Hf. discriminate.
Qed.

(** The podium of a season record is picked from the sorted teams. *)
Lemma get_season_data_podium (cfg : ServiceConfig) (net : Network) (year : Z) :
  let s := get_season_data cfg net year in
  champion s = pick_champion (sorted_by rank_or_999 (teams s))
  /\ runner_up s = pick_runner_up (sorted_by rank_or_999 (teams s)).
Proof.
  unfold get_season_data.
  destruct (season_body cfg net year) as [e|s] eqn:E.
  - split; reflexivity.
  - revert E. unfold season_body, bind, ret.
    repeat match goal with
           | |- context [match ?c with inl _ => _ | inr _ => _ end] =>
               destruct c; try discriminate
           end.
    intros [= <-]. split; reflexivity.
Qed.

(** C2, as amended.  In the record of [get_season_data], for final ranks
    that form a ranking (no negative rank, at most one team of rank 1 and at
    most one of rank 2): the champion is exactly the team whose final rank
    is 1; when there is a champion, the runner-up is exactly the team whose
    final rank is 2; when no team holds final rank 1, champion and runner-up
    are both absent.  Without the proviso the statement fails: see
    [runner_up_without_champion_cx]. *)
Theorem champion_and_runner_up_by_final_rank
    (cfg : ServiceConfig) (net : Network) (year : Z) :
  let s := get_season_data cfg net year in
  (forall t r, In t (teams s) -> final_rank t = Some r -> 0 <= r) ->
  (List.length (filter (has_rank 1) (teams s)) <= 1)%nat ->
  (List.length (filter (has_rank 2) (teams s)) <= 1)%nat ->
  (forall t, champion s = Some t <-> In t (teams s) /\ final_rank t = Some 1)
  /\ (champion s <> None ->
      forall t, runner_up s = Some t <-> In t (teams s) /\ final_rank t = Some 2)
  /\ ((forall t, In t (teams s) -> final_rank t <> Some 1) ->
      champion s = None /\ runner_up s = None).
Proof.
  intros s Hpos H1 H2.
  destruct (get_season_data_podium cfg net year) as [Hc Hr].
  fold s in Hc, Hr.
  destruct (podium_of_ranking (teams s) Hpos H1 H2) as [Pc Pr].
  rewrite <- Hc in Pc. rewrite <- Hr in Pr.
  split; [|split].
  - intros t. rewrite Pc, (find_unique _ _ t H1), has_rank_iff. reflexivity.
  - intros Hsome t. rewrite Pr. rewrite <- Pc.
    destruct (champion s) as [c|]; [|contradiction].
    rewrite (find_unique _ _ t H2), has_rank_iff. reflexivity.
  - intros Hno. rewrite Pr, Pc.
    destruct (find (has_rank 1) (teams s)) as [x|] eqn:F; [|split; reflexivity].
    apply find_some in F. destruct F as [Hin Hx].
    apply has_rank_iff in Hx. destruct (Hno x Hin Hx).
Qed.

Lemma champion_and_runner_up_by_final_rank_witness :
  let s := get_season_data sample_config namesakes_net 2023 in
  let t := mkTeam (Some 1) "Dynasty" "Dan Costa" empty_record (Some 1) (Some 1) in
  champion s = Some t <-> In t (teams s) /\ final_rank t = Some 1.
Proof.
  intros s t.
  apply (champion_and_runner_up_by_final_rank sample_config namesakes_net 2023).
  - intros t' r Hin Hr. vm_compute in Hin.
    destruct Hin as [<-|[<-|[]]]; vm_compute in Hr; injection Hr as <-; lia.
  - vm_compute. lia.
  - vm_compute. lia.
Defined.

(** Two teams of final rank 2 and none of rank 1: the second of the sorted
    teams has rank 2, so a runner-up is reported although no team holds
    final rank 1 and no champion is reported. *)
Lemma runner_up_without_champion_cx :
  let s := get_season_data sample_config two_seconds_net 2023 in
  existsb (has_rank 1) (teams s) = false
  /\ map final_rank (teams s) = [Some 2; Some 2]
  /\ champion s = None
  /\ runner_up s
     = Some (mkTeam (Some 2) "Numbnutsss" "Greg Costa" empty_record
                    (Some 2) (Some 2)).
Proof. vm_compute. repeat split. Qed.

End Podium.

(* ===================================================================== *)
(** ** Seasons without matchups *)
(* ===================================================================== *)

Section EmptyMatchups.
Import Espn Analytics Claims.

Lemma season_stats_entry_empty (sd : Season) :
  matchups sd = [] -> season_stats_entry sd = [].
Proof.
  intros H. unfold season_stats_entry. rewrite H.
  destruct (teams sd); reflexivity.
Qed.

Lemma season_stats_skip (h1 h2 : list Season) (sd : Season) :
  matchups sd = [] ->
  get_season_stats (h1 ++ sd :: h2) = get_season_stats (h1 ++ h2).
Proof.
  intros H. unfold get_season_stats. rewrite !flat_map_app. simpl.
  rewrite (season_stats_entry_empty sd H). reflexivity.
Qed.

Lemma collect_scores_skip (h1 h2 : list Season) (sd : Season) :
  matchups sd = [] ->
  collect_scores (h1 ++ sd :: h2) = collect_scores (h1 ++ h2).
Proof.
  intros H. unfold collect_scores. rewrite !fold_left_app. simpl.
  rewrite H. reflexivity.
Qed.

Lemma valid_scores_skip (h1 h2 : list Season) (sd : Season) :
  matchups sd = [] ->
  valid_scores (h1 ++ sd :: h2) = valid_scores (h1 ++ h2).
Proof.
  intros H. unfold valid_scores. rewrite !flat_map_app. simpl.
  rewrite H. reflexivity.
Qed.

Lemma total_games_skip (h1 h2 : list Season) (sd : Season) :
  matchups sd = [] ->
  Zsum (map (fun s => Zlen (matchups s)) (h1 ++ sd :: h2))
  = Zsum (map (fun s => Zlen (matchups s)) (h1 ++ h2)).
Proof.
  intros H. rewrite !map_app, !Zsum_app. simpl map. rewrite Zsum_cons, H.
  reflexivity.
Qed.

Lemma collect_scores_none (hist : list Season) :
  (forall s, In s hist -> matchups s = []) ->
  collect_scores hist = mkScoreAcc [] [] [].
Proof.
  unfold collect_scores. generalize (mkScoreAcc [] [] []).
  induction hist as [|sd r IH]; intros acc H; simpl.
  - reflexivity.
  - rewrite (H sd (or_introl eq_refl)). simpl. apply IH.
    intros s Hs. apply H. right. exact Hs.
Qed.

Lemma valid_scores_none (hist : list Season) :
  (forall s, In s hist -> matchups s = []) -> valid_scores hist = [].
Proof.
  unfold valid_scores. induction hist as [|sd r IH]; intros H; simpl.
  - reflexivity.
  - rewrite (H sd (or_introl eq_refl)). simpl. apply IH.
    intros s Hs. apply H. right. exact Hs.
Qed.

Lemma season_stats_none (hist : list Season) :
  (forall s, In s hist -> matchups s = []) ->
  flat_map season_stats_entry hist = [].
Proof.
  induction hist as [|sd r IH]; intros H; simpl.
  - reflexivity.
  - rewrite (season_stats_entry_empty sd (H sd (or_introl eq_refl))). simpl.
    apply IH. intros s Hs. apply H. right. exact Hs.
Qed.

Lemma total_games_none (hist : list Season) :
  (forall s, In s hist -> matchups s = []) ->
  Zsum (map (fun s => Zlen (matchups s)) hist) = 0.
Proof.
  induction hist as [|sd r IH]; intros H; simpl.
  - reflexivity.
  - rewrite Zsum_cons, (H sd (or_introl eq_refl)), IH; [reflexivity|].
    intros s Hs. apply H. right. exact Hs.
Qed.

(** C8, as amended.  A season whose matchup list is empty makes no report
    raise and adds nothing: the season-stats report is the same as without
    that season (the season is left out, it gets no zero-valued entry), and
    so are the score collections of the scoring report and the game count
    and scores of the dashboard summary.  When no season has a matchup, the
    scoring report is the error value "No scoring data available", the
    season-stats list is empty, and the dashboard summary counts 0 games
    with highest, lowest and average score 0. *)
Theorem empty_matchups_contribute_nothing
    (h1 h2 : list Season) (sd : Season) (cs : CurrentSeason) :
  matchups sd = [] ->
  let hist := h1 ++ sd :: h2 in
  get_season_stats hist = get_season_stats (h1 ++ h2)
  /\ collect_scores hist = collect_scores (h1 ++ h2)
  /\ valid_scores hist = valid_scores (h1 ++ h2)
  /\ ds_total_games (get_dashboard_summary hist cs)
     = ds_total_games (get_dashboard_summary (h1 ++ h2) cs)
  /\ highest_score_ever (get_dashboard_summary hist cs)
     = highest_score_ever (get_dashboard_summary (h1 ++ h2) cs)
  /\ lowest_score_ever (get_dashboard_summary hist cs)
     = lowest_score_ever (get_dashboard_summary (h1 ++ h2) cs)
  /\ ds_average_score (get_dashboard_summary hist cs)
     = ds_average_score (get_dashboard_summary (h1 ++ h2) cs)
  /\ ((forall s, In s (h1 ++ h2) -> matchups s = []) ->
      get_scoring_stats hist = ScoringError "No scoring data available"
      /\ get_season_stats hist = mkSeasonStatsReport [] 0
      /\ ds_total_games (get_dashboard_summary hist cs) = 0
      /\ (highest_score_ever (get_dashboard_summary hist cs) == 0)%Q
      /\ (lowest_score_ever (get_dashboard_summary hist cs) == 0)%Q
      /\ (ds_average_score (get_dashboard_summary hist cs) == 0)%Q).
Proof.
  intros Hsd hist. subst hist.
  pose proof (valid_scores_skip h1 h2 sd Hsd) as Hv.
  repeat split.
  - apply season_stats_skip, Hsd.
  - apply collect_scores_skip, Hsd.
  - exact Hv.
  - apply total_games_skip, Hsd.
  - unfold get_dashboard_summary. simpl. rewrite Hv. reflexivity.
  - unfold get_dashboard_summary. simpl. rewrite Hv. reflexivity.
  - unfold get_dashboard_summary. simpl. rewrite Hv. reflexivity.
  - unfold get_scoring_stats. rewrite collect_scores_skip by exact Hsd.
    rewrite collect_scores_none by assumption. reflexivity.
  - rewrite season_stats_skip by exact Hsd. unfold get_season_stats.
    rewrite season_stats_none by assumption. reflexivity.
  - unfold get_dashboard_summary. simpl.
    rewrite total_games_skip by exact Hsd. apply total_games_none. assumption.
  - unfold get_dashboard_summary. simpl. rewrite Hv.
    rewrite valid_scores_none by assumption. reflexivity.
  - unfold get_dashboard_summary. simpl. rewrite Hv.
    rewrite valid_scores_none by assumption. reflexivity.
  - unfold get_dashboard_summary. simpl. rewrite Hv.
    rewrite valid_scores_none by assumption. reflexivity.
Qed.

Lemma empty_matchups_contribute_nothing_witness :
  let sd := get_season_data sample_config unranked_net 2023 in
  get_season_stats ([] ++ sd :: scenario1) = get_season_stats ([] ++ scenario1).
Proof.
  intros sd.
  assert (H : matchups sd = []) by (vm_compute; reflexivity).
  exact (proj1 (empty_matchups_contribute_nothing [] scenario1 sd
                  (get_current_season sample_config unranked_net) H)).
Defined.

(** C8 as stated fails: for a season with teams and no matchups the scoring
    report is an error value, and the season-stats report has no entry for
    the season instead of a zero-valued one. *)
Lemma empty_matchups_error_value_cx :
  let sd := get_season_data sample_config unranked_net 2023 in
  matchups sd = []
  /\ get_scoring_stats [sd] = ScoringError "No scoring data available"
  /\ seasons (get_season_stats [sd]) = [].
Proof.
  vm_compute. repeat split.
Qed.

End EmptyMatchups.

(* ===================================================================== *)
(** ** The scenarios of the specification, evaluated *)
(* ===================================================================== *)

Section Scenarios.
Import Espn Analytics Payout Claims.

(** A body that is not an object makes the normalisation raise; the record
    carries the text of the exception. *)
Example array_body_absorbed :
  get_season_data sample_config array_net 2024
  = error_record 2024 "'list' object has no attribute 'get'".
Proof. vm_compute. reflexivity. Qed.

(** Scenario 1: the weekly high of week 1 goes to "Owner A". *)
Example scenario1_weekly_high :
  map (fun sd => (payout_digest (season_payouts 2023 sd),
                  map (fun item => (fst item, wh_owner (snd item)))
                      (sp_weekly_highs (season_payouts 2023 sd))))
      scenario1
  = [ ([("Owner A", 50, ["Most Points (Regular)"; "Weekly High Scores"])],
       [(1, Some "Owner A")]) ].
Proof. vm_compute. reflexivity. Qed.

(** Scenario 3: "Owner A" leads the ranking by owner with two
    championships. *)
Example scenario3_ranking :
  map (fun o => (of_owner o, championships o, runner_ups o))
      (by_owner (get_champions_history scenario3))
  = [("Owner A", 2, 1); ("Owner B", 1, 1); ("Owner C", 0, 1)].
Proof. vm_compute. reflexivity. Qed.

(** Scenario 4: the scoreless matchup is in no scoring statistic and wins
    no weekly high. *)
Example scenario4_zero_scores :
  map sr_week (all_scores (collect_scores [scenario4])) = [2; 2]
  /\ map fst (weekly_scores (collect_scores [scenario4])) = [2]
  /\ map fst (weekly_highs_of (matchups scenario4)) = [2]
  /\ head_to_head (get_head_to_head_stats [scenario4])
     = [ h2h_entry (h2h_records [scenario4]) "Owner A" "Owner B" ]
  /\ map total_games (head_to_head (get_head_to_head_stats [scenario4])) = [1].
Proof. vm_compute. repeat split. Qed.

End Scenarios.

(* ===================================================================== *)
(** ** Sorted reports *)
(* ===================================================================== *)

Section SortedFacts.
Context {A : Type} (leb : A -> A -> bool).
Hypothesis leb_total : forall x y, leb x y = false -> leb y x = true.
Hypothesis leb_trans :
  forall x y z, leb x y = true -> leb y z = true -> leb x z = true.

Lemma insert_sorted_sorted (x : A) (l : list A) :
  StronglySorted (fun a b => leb a b = true) l ->
  StronglySorted (fun a b => leb a b = true) (insert_sorted leb x l).
Proof.
  induction l as [|y r IH]; simpl; intros Hs.
  - constructor; constructor.
  - inversion Hs as [|? ? Hr Hy]; subst.
    destruct (leb x y) eqn:E.
    + constructor; [exact Hs|]. constructor; [exact E|].
      rewrite Forall_forall in *. intros z Hz. eapply leb_trans; eauto.
    + constructor; [apply IH; exact Hr|].
      eapply Permutation_Forall.
      * apply Permutation_sym, insert_sorted_perm.
      * constructor; [apply leb_total; exact E | exact Hy].
Qed.

Lemma sort_stable_sorted (l : list A) :
  StronglySorted (fun a b => leb a b = true) (sort_stable leb l).
Proof.
  induction l as [|x r IH]; simpl.
  - constructor.
  - apply insert_sorted_sorted. exact IH.
Qed.

End SortedFacts.

Section SortedReports.
Import Espn Analytics Payout Props.

Lemma StronglySorted_weaken {A} (R R' : A -> A -> Prop) (l : list A) :
  (forall a b, R a b -> R' a b) -> StronglySorted R l -> StronglySorted R' l.
Proof.
  intros H. induction 1 as [|a r Hs IH Ha]; constructor; auto.
  rewrite Forall_forall in *. auto.
Qed.

(** [sorted(..., reverse=True)] on integer keys is in descending order. *)
Lemma sorted_by_desc_sorted {A} (key : A -> Z) (l : list A) :
  sorted_wrt (fun a b => key b <= key a) (sorted_by_desc key l).
Proof.
  unfold sorted_wrt, sorted_by_desc.
  apply (StronglySorted_weaken (fun a b => (key b <=? key a) = true)).
  - intros a b H. apply Z.leb_le. exact H.
  - apply sort_stable_sorted.
    + intros x y H. apply Z.leb_gt in H. apply Z.leb_le. lia.
    + intros x y z H1 H2. apply Z.leb_le in H1, H2. apply Z.leb_le. lia.
Qed.

(** X1.  The head-to-head report lists the series by games played, most
    played first, and [total_matchups] is the number of series. *)
Theorem head_to_head_most_played_first (hist : list Season) :
  sorted_wrt (fun e1 e2 => total_games e2 <= total_games e1)
             (head_to_head (get_head_to_head_stats hist))
  /\ total_matchups (get_head_to_head_stats hist)
     = Zlen (head_to_head (get_head_to_head_stats hist)).
Proof.
  split; [apply sorted_by_desc_sorted | reflexivity].
Qed.

End SortedReports.

(* ===================================================================== *)
(** ** Dictionaries over any key with a decidable equality *)
(* ===================================================================== *)

Section KeyedDicts.
Context {K V : Type} (keqb : K -> K -> bool).
Hypothesis keqb_spec : forall a b, reflect (a = b) (keqb a b).
Implicit Types (d : list (K * V)) (k : K) (v : V).

Lemma odk_get_set_same d k v : od_get keqb (od_set keqb d k v) k = Some v.
Proof.
  induction d as [|[k' v'] r IH]; simpl.
  - destruct (keqb_spec k k); [reflexivity | contradiction].
  - destruct (keqb_spec k k') as [->|Hne]; simpl.
    + destruct (keqb_spec k' k'); [reflexivity | contradiction].
    + destruct (keqb_spec k k'); [contradiction | exact IH].
Qed.

Lemma odk_get_set_other d k k' v :
  k <> k' -> od_get keqb (od_set keqb d k v) k' = od_get keqb d k'.
Proof.
  intros Hne. induction d as [|[k0 v0] r IH]; simpl.
  - destruct (keqb_spec k' k); [congruence | reflexivity].
  - destruct (keqb_spec k k0) as [->|Hk]; simpl.
    + destruct (keqb_spec k' k0); [congruence | reflexivity].
    + destruct (keqb_spec k' k0); [reflexivity | exact IH].
Qed.

Lemma odk_get_In d k v : od_get keqb d k = Some v -> In (k, v) d.
Proof.
  induction d as [|[k0 v0] r IH]; simpl; [discriminate|].
  destruct (keqb_spec k k0) as [->|Hne].
  - intros [= ->]. left. reflexivity.
  - intros H. right. auto.
Qed.

Lemma odk_mem_In d k : od_mem keqb d k = true <-> In k (map fst d).
Proof.
  unfold od_mem. induction d as [|[k0 v0] r IH]; simpl.
  - split; [discriminate | tauto].
  - destruct (keqb_spec k k0) as [->|Hne].
    + split; auto.
    + rewrite IH. split; [auto | intros [H|H]; congruence].
Qed.

Lemma odk_In_get d k v :
  NoDup (map fst d) -> In (k, v) d -> od_get keqb d k = Some v.
Proof.
  induction d as [|[k0 v0] r IH]; simpl; [tauto|].
  intros Hnd [H|H].
  - inversion H; subst. destruct (keqb_spec k k); [reflexivity | contradiction].
  - inversion Hnd as [|? ? Hnot Hnd']; subst.
    destruct (keqb_spec k k0) as [->|Hne].
    + exfalso. apply Hnot. apply (in_map fst) in H. exact H.
    + auto.
Qed.

Lemma odk_keys_set d k v :
  map fst (od_set keqb d k v)
  = if od_mem keqb d k then map fst d else map fst d ++ [k].
Proof.
  unfold od_mem. induction d as [|[k0 v0] r IH]; simpl.
  - reflexivity.
  - destruct (keqb k k0); simpl.
    + reflexivity.
    + rewrite IH. destruct (od_get keqb r k); reflexivity.
Qed.

Lemma odk_set_NoDup d k v :
  NoDup (map fst d) -> NoDup (map fst (od_set keqb d k v)).
Proof.
  intros Hnd. rewrite odk_keys_set.
  destruct (od_mem keqb d k) eqn:E; [exact Hnd|].
  apply NoDup_app; [exact Hnd | repeat constructor; simpl; tauto |].
  intros x Hx [<-|[]]. apply odk_mem_In in Hx. congruence.
Qed.

(** Writing back the value a key already has changes nothing. *)
Lemma odk_set_same d k v : od_get keqb d k = Some v -> od_set keqb d k v = d.
Proof.
  induction d as [|[k0 v0] r IH]; simpl; [discriminate|].
  destruct (keqb_spec k k0) as [->|Hne].
  - intros [= ->]. reflexivity.
  - intros H. rewrite IH by exact H. reflexivity.
Qed.

Lemma odk_set_set d k v v' :
  od_set keqb (od_set keqb d k v) k v' = od_set keqb d k v'.
Proof.
  induction d as [|[k0 v0] r IH]; simpl.
  - destruct (keqb_spec k k); [reflexivity | contradiction].
  - destruct (keqb_spec k k0) as [->|Hne]; simpl.
    + destruct (keqb_spec k0 k0); [reflexivity | contradiction].
    + destruct (keqb_spec k k0); [contradiction|]. rewrite IH. reflexivity.
Qed.

Lemma odk_length_set d k v :
  List.length (od_set keqb d k v)
  = if od_mem keqb d k then List.length d else S (List.length d).
Proof.
  pose proof (f_equal (@List.length K) (odk_keys_set d k v)) as H.
  rewrite length_map in H. rewrite H.
  destruct (od_mem keqb d k); rewrite ?length_app, length_map; simpl; lia.
Qed.

End KeyedDicts.

(** Sums over the values of a dictionary. *)
Section DictSums.
Context {V : Type} (g : V -> Z) (dflt : V).
Hypothesis g_dflt : g dflt = 0.

Lemma Zsum_od_set (d : list (string * V)) (k : string) (v : V) :
  Zsum (map (fun it => g (snd it)) (od_set String.eqb d k v))
  = Zsum (map (fun it => g (snd it)) d)
    - g (od_get_or String.eqb dflt d k) + g v.
Proof.
  unfold od_get_or. induction d as [|[k0 v0] r IH]; simpl.
  - rewrite Zsum_cons, g_dflt. simpl. unfold Zsum. simpl. lia.
  - destruct (String.eqb k k0); simpl.
    + rewrite !Zsum_cons. simpl. lia.
    + rewrite !Zsum_cons, IH. simpl. lia.
Qed.

Lemma Zsum_od_upd (d : list (string * V)) (k : string) (f : V -> V) :
  Zsum (map (fun it => g (snd it)) (od_upd String.eqb dflt d k f))
  = Zsum (map (fun it => g (snd it)) d)
    - g (od_get_or String.eqb dflt d k)
    + g (f (od_get_or String.eqb dflt d k)).
Proof. unfold od_upd. apply Zsum_od_set. Qed.

End DictSums.

(* ===================================================================== *)
(** ** The season ledger as a sequence of payments *)
(* ===================================================================== *)

Section PaymentFacts.
Import Espn Payout Props.

Lemma apply_payments_app (a b : list (string * Z)) (p : list (string * Z)) :
  apply_payments (a ++ b) p = apply_payments b (apply_payments a p).
Proof. unfold apply_payments. apply fold_left_app. Qed.

Lemma payouts_award_podium (year : Z) (sd : Season) (l : Ledger) :
  payouts (award_podium year sd l)
  = apply_payments (podium_payments sd) (payouts l).
Proof.
  unfold award_podium, podium_payments.
  destruct (champion sd), (runner_up sd); reflexivity.
Qed.

Lemma payouts_award_places (year : Z) (sd : Season) (l : Ledger) :
  payouts (award_places year sd l)
  = apply_payments (place_payments sd) (payouts l).
Proof.
  unfold award_places, place_payments.
  destruct (nth_error (sorted_by standing_key (teams sd)) 2),
           (nth_error (sorted_by standing_key (teams sd)) 3); reflexivity.
Qed.

Lemma payouts_award_most_points (year : Z) (sd : Season) (l : Ledger) :
  payouts (award_most_points year sd l)
  = apply_payments (most_points_payments sd) (payouts l).
Proof.
  unfold award_most_points, most_points_payments.
  destruct (regular_season_leader_of (regular_season_totals (matchups sd)))
    as [[o pts]|]; reflexivity.
Qed.

Lemma payouts_notes (whd : list (string * Z)) (l : Ledger) :
  payouts (fold_left (fun l item => note l (fst item) (weekly_detail (snd item)))
                     whd l)
  = payouts l.
Proof.
  revert l. induction whd as [|it r IH]; intros l; simpl.
  - reflexivity.
  - rewrite IH. reflexivity.
Qed.

Lemma payouts_award_weeks (highs : list (Z * WeekHigh)) (l : Ledger)
    (w : list (string * Z)) :
  payouts (fst (fold_left award_week highs (l, w)))
  = apply_payments (weekly_payments highs) (payouts l).
Proof.
  revert l w. induction highs as [|it r IH]; intros l w.
  - reflexivity.
  - simpl fold_left. unfold weekly_payments. simpl flat_map.
    fold (weekly_payments r). rewrite apply_payments_app.
    unfold award_week at 2.
    destruct (wh_owner (snd it)) as [o|]; [destruct (str_truthy o)|];
      simpl; rewrite IH; reflexivity.
Qed.

Lemma payouts_award_weekly (highs : list (Z * WeekHigh)) (l : Ledger) :
  payouts (award_weekly highs l)
  = apply_payments (weekly_payments highs) (payouts l).
Proof.
  unfold award_weekly.
  pose proof (payouts_award_weeks highs l []) as H.
  destruct (fold_left award_week highs (l, [])) as [l' whd].
  rewrite payouts_notes. exact H.
Qed.

(** The [payouts] dict of a season is the fold of its payments. *)
Lemma payouts_season_ledger (year : Z) (sd : Season) :
  payouts (season_ledger year sd) = apply_payments (payments sd) [].
Proof.
  unfold season_ledger, payments.
  rewrite payouts_award_weekly, payouts_award_most_points.
  rewrite !apply_payments_app. do 2 f_equal.
  destruct (teams sd) eqn:E.
  - unfold place_payments. rewrite E.
    apply (payouts_award_podium year sd (mkLedger [] [])).
  - rewrite payouts_award_places, payouts_award_podium. reflexivity.
Qed.

Lemma apply_payments_sum (ps p : list (string * Z)) :
  Zsum (map snd (apply_payments ps p)) = Zsum (map snd p) + Zsum (map snd ps).
Proof.
  revert p. induction ps as [|[o a] r IH]; intros p.
  - simpl. unfold Zsum at 3. simpl. lia.
  - unfold apply_payments. simpl fold_left. fold (apply_payments r).
    rewrite IH. simpl map. rewrite Zsum_cons. cbn [fst snd].
    assert (H : Zsum (map snd (od_upd String.eqb 0 p o (fun x => x + a)))
                = Zsum (map snd p) - od_get_or String.eqb 0 p o
                  + (od_get_or String.eqb 0 p o + a))
      by exact (Zsum_od_upd (fun x : Z => x) 0 eq_refl p o (fun x => x + a)).
    rewrite H. lia.
Qed.

Lemma apply_payments_NoDup (ps p : list (string * Z)) :
  NoDup (map fst p) -> NoDup (map fst (apply_payments ps p)).
Proof.
  revert p. induction ps as [|[o a] r IH]; intros p H.
  - exact H.
  - unfold apply_payments. simpl fold_left. fold (apply_payments r).
    apply IH. unfold od_upd. apply od_set_NoDup. exact H.
Qed.

(** With amounts above zero every owner of the dict holds an amount above
    zero. *)
Lemma apply_payments_positive (ps p : list (string * Z)) :
  (forall m, In m ps -> 0 < snd m) ->
  (forall o, 0 <= od_get_or String.eqb 0 p o) ->
  (forall o, od_mem String.eqb p o = true -> 0 < od_get_or String.eqb 0 p o) ->
  (forall o, 0 <= od_get_or String.eqb 0 (apply_payments ps p) o)
  /\ (forall o, od_mem String.eqb (apply_payments ps p) o = true ->
                0 < od_get_or String.eqb 0 (apply_payments ps p) o).
Proof.
  revert p. induction ps as [|[k a] r IH]; intros p Hps H0 H1.
  - split; assumption.
  - unfold apply_payments. simpl fold_left. fold (apply_payments r).
    assert (Ha : 0 < a) by (apply (Hps (k, a)); left; reflexivity).
    apply IH.
    + intros m Hm. apply Hps. right. exact Hm.
    + intros o. destruct (String.eqb_spec k o) as [<-|Hne].
      * rewrite od_get_or_upd_same. specialize (H0 k). lia.
      * rewrite od_get_or_upd_other by exact Hne. apply H0.
    + intros o. unfold od_upd at 1. rewrite od_mem_set.
      destruct (String.eqb_spec k o) as [<-|Hne].
      * intros _. rewrite od_get_or_upd_same. specialize (H0 k). lia.
      * rewrite orb_false_r, od_get_or_upd_other by exact Hne. apply H1.
Qed.

(** Every amount of the rule table is above zero. *)
Lemma payments_positive (sd : Season) :
  forall m, In m (payments sd) -> 0 < snd m.
Proof.
  intros m. unfold payments, podium_payments, place_payments,
    most_points_payments, weekly_payments.
  rewrite !in_app_iff, in_flat_map.
  intros [[H|H]|[[H|H]|[H|H]]].
  - destruct (champion sd); simpl in H;
      first [contradiction | destruct H as [<-|[]]; reflexivity].
  - destruct (runner_up sd); simpl in H;
      first [contradiction | destruct H as [<-|[]]; reflexivity].
  - destruct (nth_error _ 2); simpl in H;
      first [contradiction | destruct H as [<-|[]]; reflexivity].
  - destruct (nth_error _ 3); simpl in H;
      first [contradiction | destruct H as [<-|[]]; reflexivity].
  - destruct (regular_season_leader_of _) as [[o q]|]; simpl in H;
      first [contradiction | destruct H as [<-|[]]; reflexivity].
  - destruct H as (it & _ & H).
    destruct (wh_owner (snd it)) as [o|]; [destruct (str_truthy o)|];
      simpl in H; first [contradiction | destruct H as [<-|[]]; reflexivity].
Qed.

End PaymentFacts.

Section PayoutOwners.
Import Espn Payout Props.

Lemma get_owner_name_truthy (owner : string) (team_id : option Z) :
  str_truthy (Payout._get_owner_name owner team_id) = true.
Proof.
  unfold Payout._get_owner_name.
  destruct (str_truthy owner && negb (String.eqb owner "Unknown")) eqn:E.
  - apply andb_true_iff in E. tauto.
  - destruct team_id as [i|]; [|reflexivity].
    destruct (i =? 0); [reflexivity|].
    unfold Config.TEAM_ID_MAP. simpl.
    repeat match goal with
           | |- context [Z.eqb i ?n] => destruct (Z.eqb i n)
           end; reflexivity.
Qed.

Lemma entry_owner_truthy (t : MatchupTeam) : str_truthy (entry_owner t) = true.
Proof. apply get_owner_name_truthy. Qed.

(** X2.  The owner a payout goes to is never the empty string: it is
    the ["owner"] entry of the team when that is non-empty and not
    "Unknown"; without a usable owner and without a team id (missing or 0)
    it is "Unknown Team". *)
Theorem payout_owner_never_empty (owner : string) (team_id : option Z) :
  str_truthy (Payout._get_owner_name owner team_id) = true
  /\ (str_truthy owner = true -> owner <> "Unknown" ->
      Payout._get_owner_name owner team_id = owner)
  /\ (str_truthy owner = false \/ owner = "Unknown" ->
      team_id = None \/ team_id = Some 0 ->
      Payout._get_owner_name owner team_id = "Unknown Team").
Proof.
  split; [apply get_owner_name_truthy|]. unfold Payout._get_owner_name. split.
  - intros Ht Hne. rewrite Ht.
    destruct (String.eqb_spec owner "Unknown"); [contradiction | reflexivity].
  - intros Ho Hid.
    assert (E : str_truthy owner && negb (String.eqb owner "Unknown") = false).
    { destruct Ho as [Ho| ->]; [rewrite Ho; reflexivity | apply andb_false_r]. }
    rewrite E. destruct Hid as [->| ->]; reflexivity.
Qed.

Lemma payout_owner_never_empty_witness :
  Payout._get_owner_name "Unknown" None = "Unknown Team".
Proof.
  apply (proj2 (proj2 (payout_owner_never_empty "Unknown" None))).
  - right. reflexivity.
  - left. reflexivity.
Defined.

(** The season payouts behind a successful [calculate_season_payouts]. *)
Lemma season_payouts_list (year : Z) (sd : Season) :
  Permutation (sp_payouts (season_payouts year sd))
    (map (fun item =>
            mkOwnerPayout (fst item) (snd item)
              (od_get_or String.eqb []
                 (payout_details (season_ledger year sd)) (fst item)))
         (apply_payments (payments sd) []))
  /\ NoDup (map fst (apply_payments (payments sd) []))
  /\ (forall item, In item (apply_payments (payments sd) []) -> 0 < snd item).
Proof.
  split; [|split].
  - unfold season_payouts. simpl sp_payouts. unfold sorted_by_desc.
    rewrite <- payouts_season_ledger with (year := year).
    apply sort_stable_perm.
  - apply apply_payments_NoDup. constructor.
  - intros [o v] Hin.
    destruct (apply_payments_positive (payments sd) [] (payments_positive sd))
      as [_ Hpos].
    + intros o'. reflexivity.
    + intros o'. discriminate.
    + pose proof (od_In_get _ o v
                    (apply_payments_NoDup (payments sd) [] (NoDup_nil _)) Hin)
        as Hget.
      specialize (Hpos o). unfold od_mem, od_get_or in Hpos.
      rewrite Hget in Hpos. simpl. apply Hpos. reflexivity.
Qed.

(** X3.  In the result of [calculate_season_payouts] every owner
    appears once, every listed owner has a total above zero, and the list
    runs from the highest total to the lowest. *)
Theorem payout_list_one_entry_per_owner
    (hist : list Season) (year : Z) (sp : SeasonPayouts) :
  calculate_season_payouts hist year = inr sp ->
  sp_season sp = year
  /\ NoDup (map op_owner (sp_payouts sp))
  /\ (forall e, In e (sp_payouts sp) -> 0 < total_payout e)
  /\ sorted_wrt (fun a b => total_payout b <= total_payout a) (sp_payouts sp).
Proof.
  intros H. destruct (calculate_season_payouts_inr hist year sp H)
    as (sd & _ & _ & ->).
  destruct (season_payouts_list year sd) as (Hperm & Hnd & Hpos).
  split; [reflexivity|]. split; [|split].
  - eapply Permutation_NoDup.
    + apply Permutation_sym, Permutation_map, Hperm.
    + rewrite map_map. exact Hnd.
  - intros e He. apply (Permutation_in _ Hperm) in He.
    apply in_map_iff in He. destruct He as (item & <- & Hin).
    apply Hpos. exact Hin.
  - apply sorted_by_desc_sorted.
Qed.

Lemma payout_list_one_entry_per_owner_witness :
  NoDup (map op_owner (sp_payouts (season_payouts 2023 Claims.scenario2))).
Proof.
  apply (payout_list_one_entry_per_owner [Claims.scenario2] 2023
           (season_payouts 2023 Claims.scenario2) eq_refl).
Defined.

End PayoutOwners.

(* ===================================================================== *)
(** ** Weekly high scores *)
(* ===================================================================== *)

Section WeeklyHighs.
Import Espn Payout Props.

Lemma Qgtb_false_iff (x y : Q) : Qgtb x y = false <-> (x <= y)%Q.
Proof.
  unfold Qgtb. rewrite Qle_alt.
  destruct (Qcompare x y); split; congruence.
Qed.

Lemma best_of_spec (scores : list WeekHigh) (cur : WeekHigh) :
  (best_of scores cur = cur \/ In (best_of scores cur) scores)
  /\ (wh_score cur <= wh_score (best_of scores cur))%Q
  /\ (forall s, In s scores -> (wh_score s <= wh_score (best_of scores cur))%Q).
Proof.
  revert cur. induction scores as [|sd r IH]; intros cur.
  - simpl. split; [left; reflexivity|]. split; [apply Qle_refl|]. intros s [].
  - unfold best_of. simpl fold_left. fold (best_of r (pick_high cur sd)).
    destruct (IH (pick_high cur sd)) as (I1 & I2 & I3).
    assert (Hc : (wh_score cur <= wh_score (pick_high cur sd))%Q
                 /\ (wh_score sd <= wh_score (pick_high cur sd))%Q
                 /\ (pick_high cur sd = cur \/ pick_high cur sd = sd)).
    { unfold pick_high. destruct (Qgtb (wh_score sd) (wh_score cur)) eqn:E.
      - apply Qgtb_true_iff in E. repeat split; auto using Qle_refl, Qlt_le_weak.
      - apply Qgtb_false_iff in E. repeat split; auto using Qle_refl. }
    destruct Hc as (C1 & C2 & C3).
    split; [|split].
    + destruct I1 as [I1|I1].
      * rewrite I1. destruct C3 as [->| ->]; [left | right; left]; reflexivity.
      * right. right. exact I1.
    + eapply Qle_trans; eassumption.
    + intros s [<-|Hs]; [eapply Qle_trans; eassumption | apply I3, Hs].
Qed.

(** The inner loop writes the best score of the matchup into the entry of
    the week. *)
Lemma inner_loop_best (w : Z) (scores : list WeekHigh)
    (highs : list (Z * WeekHigh)) (cur : WeekHigh) :
  od_get Z.eqb highs w = Some cur ->
  fold_left
    (fun highs score_data =>
       if Qgtb (wh_score score_data)
               (wh_score (od_get_or Z.eqb (mkWeekHigh None (0 # 1)) highs w))
       then od_set Z.eqb highs w score_data
       else highs)
    scores highs
  = od_set Z.eqb highs w (best_of scores cur).
Proof.
  revert highs cur. induction scores as [|sd r IH]; intros highs cur Hget.
  - simpl. symmetry. apply (odk_set_same Z.eqb Z.eqb_spec). exact Hget.
  - assert (Hg : od_get_or Z.eqb (mkWeekHigh None (0 # 1)) highs w = cur)
      by (unfold od_get_or; rewrite Hget; reflexivity).
    cbn [fold_left]. rewrite Hg.
    unfold best_of. cbn [fold_left]. fold (best_of r (pick_high cur sd)).
    unfold pick_high. destruct (Qgtb (wh_score sd) (wh_score cur)).
    + rewrite (IH _ sd) by apply (odk_get_set_same Z.eqb Z.eqb_spec).
      apply (odk_set_set Z.eqb Z.eqb_spec).
    + apply IH. exact Hget.
Qed.

Lemma weekly_high_matchup_eq (highs : list (Z * WeekHigh)) (m : Matchup) :
  0 < week m -> week_scores m <> [] ->
  weekly_high_matchup highs m
  = od_set Z.eqb highs (week m)
      (best_of (week_scores m)
               (od_get_or Z.eqb (mkWeekHigh None (0 # 1)) highs (week m))).
Proof.
  intros Hw Hs. unfold weekly_high_matchup.
  destruct (Z.leb_spec (week m) 0) as [|_]; [lia|].
  destruct (week_scores m) as [|s0 r] eqn:E; [contradiction|].
  unfold od_mem, od_get_or.
  destruct (od_get Z.eqb highs (week m)) as [cur|] eqn:G.
  - apply inner_loop_best. exact G.
  - rewrite (inner_loop_best (week m) (s0 :: r) _ (mkWeekHigh None (0 # 1)))
      by apply (odk_get_set_same Z.eqb Z.eqb_spec).
    apply (odk_set_set Z.eqb Z.eqb_spec).
Qed.

Lemma week_scores_In (m : Matchup) (s : WeekHigh) :
  In s (week_scores m) <->
  exists t, In t (m_teams m) /\ (0 < score t)%Q
            /\ s = mkWeekHigh (Some (entry_owner t)) (score t).
Proof.
  unfold week_scores. rewrite in_flat_map. split.
  - intros (t & Ht & Hs). destruct (Qgtb (score t) (0 # 1)) eqn:E.
    + destruct Hs as [<-|[]]. exists t. apply Qgtb_true_iff in E. auto.
    + destruct Hs.
  - intros (t & Ht & Hp & ->). exists t. split; [exact Ht|].
    apply Qgtb_true_iff in Hp. rewrite Hp. left. reflexivity.
Qed.

Lemma week_entries_app (seen : list Matchup) (m : Matchup) (w : Z) :
  week_entries (seen ++ [m]) w
  = week_entries seen w ++ (if week m =? w then m_teams m else []).
Proof.
  unfold week_entries. rewrite flat_map_app. simpl. rewrite app_nil_r.
  reflexivity.
Qed.

Lemma is_week_high_extend (seen : list Matchup) (m : Matchup) (w : Z)
    (h : WeekHigh) :
  is_week_high seen w h ->
  (forall t, week m = w -> In t (m_teams m) -> (score t <= wh_score h)%Q) ->
  is_week_high (seen ++ [m]) w h.
Proof.
  intros (Hw & Hp & (t & Ht & Ho & Hs) & Hub) Hm.
  unfold is_week_high. rewrite week_entries_app. repeat split; auto.
  - exists t. split; [apply in_or_app; left; exact Ht | auto].
  - intros t' Ht'. apply in_app_or in Ht'. destruct Ht' as [Ht'|Ht'].
    + apply Hub, Ht'.
    + destruct (Z.eqb_spec (week m) w) as [E|E]; [apply Hm; assumption|].
      destruct Ht'.
Qed.

Lemma no_scores_nonpositive (m : Matchup) :
  week_scores m = [] -> forall t, In t (m_teams m) -> (score t <= 0)%Q.
Proof.
  intros E t Ht. apply Qnot_lt_le. intros Hp.
  assert (H : In (mkWeekHigh (Some (entry_owner t)) (score t)) (week_scores m))
    by (apply week_scores_In; exists t; auto).
  rewrite E in H. destruct H.
Qed.

Lemma entries_below_best (m : Matchup) (cur : WeekHigh) :
  (0 <= wh_score (best_of (week_scores m) cur))%Q ->
  forall t, In t (m_teams m) ->
            (score t <= wh_score (best_of (week_scores m) cur))%Q.
Proof.
  intros H0 t Ht. destruct (Qlt_le_dec 0 (score t)) as [Hp|Hn].
  - destruct (best_of_spec (week_scores m) cur) as (_ & _ & B3).
    apply (B3 (mkWeekHigh (Some (entry_owner t)) (score t))).
    apply week_scores_In. exists t. auto.
  - eapply Qle_trans; eassumption.
Qed.

(** One matchup keeps the invariant of [weekly_highs]. *)
Lemma highs_step (seen : list Matchup) (highs : list (Z * WeekHigh))
    (m : Matchup) :
  highs_inv seen highs -> highs_inv (seen ++ [m]) (weekly_high_matchup highs m).
Proof.
  intros (Hnd & Hhigh & Hcov).
  destruct (Z.leb_spec (week m) 0) as [Hle|Hpos].
  - (* not a week *)
    assert (E : weekly_high_matchup highs m = highs).
    { unfold weekly_high_matchup.
      destruct (Z.leb_spec (week m) 0); [reflexivity | lia]. }
    rewrite E. split; [exact Hnd|]. split.
    + intros w h G. pose proof (Hhigh w h G) as Hi.
      apply is_week_high_extend; [exact Hi|].
      intros t Hw. destruct Hi as (Hi & _). lia.
    + intros w t Hw Ht Hp. rewrite week_entries_app in Ht.
      destruct (Z.eqb_spec (week m) w); [lia|]. rewrite app_nil_r in Ht.
      eapply Hcov; eauto.
  - destruct (week_scores m) as [|s0 r] eqn:Es.
    + (* no valid score in the matchup *)
      assert (E : weekly_high_matchup highs m = highs).
      { unfold weekly_high_matchup.
        destruct (Z.leb_spec (week m) 0); [lia|]. rewrite Es. reflexivity. }
      rewrite E. pose proof (no_scores_nonpositive m Es) as Hnp.
      split; [exact Hnd|]. split.
      * intros w h G. pose proof (Hhigh w h G) as Hi.
        apply is_week_high_extend; [exact Hi|].
        intros t _ Ht. destruct Hi as (_ & Hp & _).
        apply Qlt_le_weak. eapply Qle_lt_trans; [apply Hnp, Ht | exact Hp].
      * intros w t Hw Ht Hp. rewrite week_entries_app in Ht.
        apply in_app_or in Ht. destruct Ht as [Ht|Ht]; [eapply Hcov; eauto|].
        destruct (Z.eqb_spec (week m) w); [|destruct Ht].
        exfalso. apply (Qlt_not_le _ _ Hp). apply Hnp, Ht.
    + (* the matchup has valid scores *)
      rewrite weekly_high_matchup_eq; [| lia | rewrite Es; discriminate].
      rewrite Es.
      set (cur0 := od_get_or Z.eqb (mkWeekHigh None (0 # 1)) highs (week m)).
      set (best := best_of (s0 :: r) cur0).
      destruct (best_of_spec (s0 :: r) cur0) as (B1 & B2 & B3). fold best in B1, B2, B3.
      assert (Hs0 : (0 < wh_score s0)%Q).
      { assert (H : In s0 (week_scores m)) by (rewrite Es; left; reflexivity).
        apply week_scores_In in H. destruct H as (t & _ & Hp & ->). exact Hp. }
      assert (Hbest : (0 < wh_score best)%Q).
      { eapply Qlt_le_trans; [exact Hs0 | apply B3; left; reflexivity]. }
      assert (Hm : forall t, In t (m_teams m) -> (score t <= wh_score best)%Q).
      { intros t Ht. pose proof (entries_below_best m cur0) as H.
        rewrite Es in H. apply H; [apply Qlt_le_weak; exact Hbest | exact Ht]. }
      split; [apply (odk_set_NoDup Z.eqb Z.eqb_spec); exact Hnd|]. split.
      * intros w h G. destruct (Z.eq_dec (week m) w) as [<-|Hne].
        -- rewrite (odk_get_set_same Z.eqb Z.eqb_spec) in G.
           injection G as <-.
           destruct (od_get Z.eqb highs (week m)) as [cur|] eqn:G0.
           ++ assert (Ec : cur0 = cur)
                by (unfold cur0, od_get_or; rewrite G0; reflexivity).
              pose proof (Hhigh _ _ G0) as Hi. rewrite <- Ec in Hi.
              destruct B1 as [B1|B1].
              ** rewrite B1. apply is_week_high_extend; [exact Hi|].
                 intros t _ Ht. rewrite <- B1. apply Hm, Ht.
              ** destruct Hi as (Hw & _ & _ & Hub).
                 rewrite <- Es in B1. apply week_scores_In in B1.
                 destruct B1 as (t & Ht & Hp & Hb).
                 unfold is_week_high. rewrite week_entries_app.
                 rewrite Z.eqb_refl. repeat split; auto.
                 --- exists t. split; [apply in_or_app; right; exact Ht|].
                     rewrite Hb. auto.
                 --- intros t' Ht'. apply in_app_or in Ht'.
                     destruct Ht' as [Ht'|Ht'];
                       [eapply Qle_trans; [apply Hub, Ht' | exact B2]
                       | apply Hm, Ht'].
           ++ assert (Ec : wh_score cur0 = (0 # 1))
                by (unfold cur0, od_get_or; rewrite G0; reflexivity).
              destruct B1 as [B1|B1].
              ** exfalso. rewrite B1, Ec in Hbest. discriminate Hbest.
              ** rewrite <- Es in B1. apply week_scores_In in B1.
                 destruct B1 as (t & Ht & Hp & Hb).
                 unfold is_week_high. rewrite week_entries_app.
                 rewrite Z.eqb_refl. repeat split; auto.
                 --- exists t. split; [apply in_or_app; right; exact Ht|].
                     rewrite Hb. auto.
                 --- intros t' Ht'. apply in_app_or in Ht'.
                     destruct Ht' as [Ht'|Ht']; [|apply Hm, Ht'].
                     apply Qlt_le_weak. eapply Qle_lt_trans; [|exact Hbest].
                     apply Qnot_lt_le. intros Hp'.
                     pose proof (Hcov (week m) t' Hpos Ht' Hp') as Hc.
                     unfold od_mem in Hc. rewrite G0 in Hc. discriminate.
        -- rewrite (odk_get_set_other Z.eqb Z.eqb_spec) in G by exact Hne.
           apply is_week_high_extend; [apply Hhigh, G|].
           intros t E. contradiction.
      * intros w t Hw Ht Hp. unfold od_mem.
        destruct (Z.eq_dec (week m) w) as [<-|Hne].
        -- rewrite (odk_get_set_same Z.eqb Z.eqb_spec). reflexivity.
        -- rewrite (odk_get_set_other Z.eqb Z.eqb_spec) by exact Hne.
           rewrite week_entries_app in Ht.
           destruct (Z.eqb_spec (week m) w); [contradiction|].
           rewrite app_nil_r in Ht. apply (Hcov w t Hw Ht Hp).
Qed.

Lemma highs_fold (ms seen : list Matchup) (highs : list (Z * WeekHigh)) :
  highs_inv seen highs ->
  highs_inv (seen ++ ms) (fold_left weekly_high_matchup ms highs).
Proof.
  revert seen highs. induction ms as [|m r IH]; intros seen highs H.
  - rewrite app_nil_r. exact H.
  - simpl. replace (seen ++ m :: r) with ((seen ++ [m]) ++ r)
      by (rewrite <- app_assoc; reflexivity).
    apply IH, highs_step, H.
Qed.

Lemma weekly_highs_inv (ms : list Matchup) : highs_inv ms (weekly_highs_of ms).
Proof.
  apply (highs_fold ms [] []). split; [constructor|]. split.
  - intros w h. discriminate.
  - intros w t _ [].
Qed.

(** X4.  [weekly_highs] holds each week once; the entry of a week
    carries a score above zero that a participant of that week posted, with
    that participant's owner, and no participant of the week scored more;
    every week with a score above zero has an entry. *)
Theorem weekly_high_is_the_week_maximum (ms : list Matchup) :
  NoDup (map fst (weekly_highs_of ms))
  /\ (forall w h, In (w, h) (weekly_highs_of ms) -> is_week_high ms w h)
  /\ (forall w t, 0 < w -> In t (week_entries ms w) -> (0 < score t)%Q ->
                  In w (map fst (weekly_highs_of ms))).
Proof.
  destruct (weekly_highs_inv ms) as (Hnd & Hhigh & Hcov).
  split; [exact Hnd|]. split.
  - intros w h Hin. apply Hhigh.
    apply (odk_In_get Z.eqb Z.eqb_spec); assumption.
  - intros w t Hw Ht Hp. apply (odk_mem_In Z.eqb Z.eqb_spec).
    apply (Hcov w t Hw Ht Hp).
Qed.

End WeeklyHighs.

(* ===================================================================== *)
(** ** What a season pays out *)
(* ===================================================================== *)

Section SeasonTotal.
Import Espn Payout Props.

Lemma weekly_payments_sum (highs : list (Z * WeekHigh)) :
  (forall it, In it highs ->
     exists o, wh_owner (snd it) = Some o /\ str_truthy o = true) ->
  Zsum (map snd (weekly_payments highs))
  = ps_weekly_high PAYOUT_STRUCTURE * Zlen highs.
Proof.
  unfold weekly_payments. induction highs as [|it r IH]; intros H.
  - reflexivity.
  - cbn [flat_map].
    destruct (H it (or_introl eq_refl)) as (o & Ho & Ht). rewrite Ho, Ht.
    cbn [app map snd]. rewrite Zsum_cons, Zlen_cons, IH.
    + lia.
    + intros it' Hin. apply H. right. exact Hin.
Qed.

Lemma weekly_highs_owners (ms : list Matchup) :
  forall it, In it (weekly_highs_of ms) ->
    exists o, wh_owner (snd it) = Some o /\ str_truthy o = true.
Proof.
  intros [w h] Hin. destruct (weekly_highs_inv ms) as (Hnd & Hhigh & _).
  destruct (Hhigh w h (odk_In_get Z.eqb Z.eqb_spec _ _ _ Hnd Hin))
    as (_ & _ & (t & _ & Ho & _) & _).
  exists (entry_owner t). split; [exact Ho | apply entry_owner_truthy].
Qed.

Lemma nth_error_sorted_length {A} (key : A -> Z) (l : list A) (n : nat) :
  match nth_error (sorted_by key l) n with
  | Some _ => (n <? List.length l)%nat = true
  | None => (n <? List.length l)%nat = false
  end.
Proof.
  destruct (nth_error (sorted_by key l) n) eqn:E.
  - apply Nat.ltb_lt. rewrite <- (sort_stable_length (fun x y => key x <=? key y) l).
    apply nth_error_Some. unfold sorted_by in E. rewrite E. discriminate.
  - apply Nat.ltb_ge. rewrite <- (sort_stable_length (fun x y => key x <=? key y) l).
    apply nth_error_None. exact E.
Qed.

(** X5.  The season total is the sum of the awards made: 300 for a
    champion, 150 for a runner-up, 70 and 50 when the season has a third and
    a fourth team, 40 when there is a regular-season points leader, and 10
    for every week of the returned [weekly_highs]. *)
Theorem season_total_is_sum_of_awards (year : Z) (sd : Season) :
  let sp := season_payouts year sd in
  season_total sp
  = (match champion sd with Some _ => 300 | None => 0 end)
    + (match runner_up sd with Some _ => 150 | None => 0 end)
    + (if (2 <? List.length (teams sd))%nat then 70 else 0)
    + (if (3 <? List.length (teams sd))%nat then 50 else 0)
    + (match regular_season_leader sp with Some _ => 40 | None => 0 end)
    + 10 * Zlen (sp_weekly_highs sp).
Proof.
  intros sp. subst sp. unfold season_payouts.
  cbn [season_total regular_season_leader sp_weekly_highs].
  rewrite payouts_season_ledger, apply_payments_sum. unfold payments.
  rewrite !map_app, !Zsum_app.
  rewrite (weekly_payments_sum _ (weekly_highs_owners (matchups sd))).
  unfold podium_payments, place_payments, most_points_payments.
  rewrite !map_app, !Zsum_app.
  pose proof (nth_error_sorted_length standing_key (teams sd) 2) as H2.
  pose proof (nth_error_sorted_length standing_key (teams sd) 3) as H3.
  destruct (nth_error (sorted_by standing_key (teams sd)) 2);
    destruct (nth_error (sorted_by standing_key (teams sd)) 3);
    rewrite H2, H3;
    destruct (champion sd), (runner_up sd),
      (regular_season_leader_of (regular_season_totals (matchups sd)))
        as [[o q]|];
    cbn [map snd app]; rewrite ?Zsum_cons; change (Zsum []) with 0;
    cbv [PAYOUT_STRUCTURE ps_champion ps_runner_up ps_third_place
         ps_fourth_place ps_most_points_regular ps_weekly_high]; lia.
Qed.

End SeasonTotal.

(* ===================================================================== *)
(** ** Cumulative payouts *)
(* ===================================================================== *)

Section Cumulative.
Import Espn Payout Props.

Lemma count_detail_earnings (st : CumStats) (d : Detail) :
  total_earnings (count_detail st d) = total_earnings st
  /\ seasons_participated (count_detail st d) = seasons_participated st.
Proof.
  unfold count_detail.
  repeat match goal with
         | |- context [if ?c then _ else _] => destruct c
         end; split; reflexivity.
Qed.

Lemma count_details_earnings (ds : list Detail) (st : CumStats) :
  total_earnings (fold_left count_detail ds st) = total_earnings st
  /\ seasons_participated (fold_left count_detail ds st)
     = seasons_participated st.
Proof.
  revert st. induction ds as [|d r IH]; intros st; simpl.
  - split; reflexivity.
  - destruct (IH (count_detail st d)) as [H1 H2].
    destruct (count_detail_earnings st d) as [E1 E2].
    rewrite H1, H2, E1, E2. split; reflexivity.
Qed.

Lemma add_payout_earnings (year : Z) (payout : OwnerPayout) (st : CumStats) :
  total_earnings (add_payout year payout st)
  = total_earnings st + total_payout payout.
Proof.
  unfold add_payout.
  match goal with
  | |- total_earnings (fold_left count_detail ?ds ?s) = _ =>
      rewrite (proj1 (count_details_earnings ds s))
  end.
  reflexivity.
Qed.

Lemma cumulate_payouts_sum (year : Z) (ps : list OwnerPayout) (tbl : CumTable) :
  (forall e, In e ps -> 0 < total_payout e) ->
  Zsum (map (fun it => total_earnings (snd it))
            (fold_left (cumulate_payout year) ps tbl))
  = Zsum (map (fun it => total_earnings (snd it)) tbl)
    + Zsum (map total_payout ps).
Proof.
  revert tbl. induction ps as [|e r IH]; intros tbl Hpos.
  - simpl. unfold Zsum at 3. simpl. lia.
  - cbn [fold_left]. rewrite IH by (intros e' He'; apply Hpos; right; exact He').
    cbn [map]. rewrite Zsum_cons. unfold cumulate_payout.
    pose proof (Hpos e (or_introl eq_refl)) as He.
    destruct (Z.gtb_spec (total_payout e) 0) as [_|]; [|lia].
    rewrite (Zsum_od_upd total_earnings cum_default eq_refl).
    rewrite add_payout_earnings. lia.
Qed.

Lemma cumulate_seasons_sum (l : list SeasonPayouts) (st : CumTable * Z) :
  (forall sp, In sp l ->
     (forall e, In e (sp_payouts sp) -> 0 < total_payout e)
     /\ season_total sp = Zsum (map total_payout (sp_payouts sp))) ->
  Zsum (map (fun it => total_earnings (snd it))
            (fst (fold_left cumulate_season l st)))
  = Zsum (map (fun it => total_earnings (snd it)) (fst st))
    + Zsum (map season_total l).
Proof.
  revert st. induction l as [|sp r IH]; intros st H.
  - simpl. unfold Zsum at 3. simpl. lia.
  - cbn [fold_left]. rewrite IH by (intros sp' Hsp; apply H; right; exact Hsp).
    destruct (H sp (or_introl eq_refl)) as [Hpos Htot].
    unfold cumulate_season. cbn [fst]. rewrite cumulate_payouts_sum by exact Hpos.
    cbn [map]. rewrite Zsum_cons, Htot. lia.
Qed.

Lemma season_payouts_sound (year : Z) (sd : Season) :
  (forall e, In e (sp_payouts (season_payouts year sd)) -> 0 < total_payout e)
  /\ season_total (season_payouts year sd)
     = Zsum (map total_payout (sp_payouts (season_payouts year sd))).
Proof.
  split; [|apply season_total_conserved].
  destruct (season_payouts_list year sd) as (Hperm & _ & Hpos).
  intros e He. apply (Permutation_in _ Hperm) in He.
  apply in_map_iff in He. destruct He as (item & <- & Hin). apply Hpos, Hin.
Qed.

Lemma all_season_payouts_sound (hist : list Season) (current_season : Z) :
  forall sp, In sp (asp_seasons (get_all_season_payouts hist current_season)) ->
    (forall e, In e (sp_payouts sp) -> 0 < total_payout e)
    /\ season_total sp = Zsum (map total_payout (sp_payouts sp)).
Proof.
  intros sp Hin. unfold get_all_season_payouts in Hin. simpl in Hin.
  apply sort_stable_In in Hin. apply in_flat_map in Hin.
  destruct Hin as (sd & _ & Hsp).
  destruct (season sd >=? current_season); [destruct Hsp|].
  destruct (calculate_season_payouts hist (season sd)) as [e|sp'] eqn:E;
    [destruct Hsp|].
  destruct Hsp as [<-|[]].
  destruct (calculate_season_payouts_inr hist _ _ E) as (sd' & _ & _ & ->).
  apply season_payouts_sound.
Qed.

(** X6.  The lifetime earnings of all owners in the cumulative report
    add up to [total_league_payouts]; the owners are listed from the highest
    earnings to the lowest and [total_owners] counts them. *)
Theorem cumulative_earnings_add_up (hist : list Season) (current_season : Z) :
  let report := get_cumulative_payouts hist current_season in
  Zsum (map (fun e => total_earnings (ce_stats e)) (cumulative_payouts report))
  = total_league_payouts report
  /\ sorted_wrt (fun a b => total_earnings (ce_stats b)
                            <= total_earnings (ce_stats a))
                (cumulative_payouts report)
  /\ total_owners report = Zlen (cumulative_payouts report).
Proof.
  intros report. subst report. unfold get_cumulative_payouts.
  pose proof (cumulate_seasons_sum
                (asp_seasons (get_all_season_payouts hist current_season))
                ([], 0) (all_season_payouts_sound hist current_season)) as Hs.
  pose proof (cumulate_total
                (asp_seasons (get_all_season_payouts hist current_season))
                ([], 0)) as Ht.
  destruct (fold_left cumulate_season
              (asp_seasons (get_all_season_payouts hist current_season))
              ([], 0)) as [tbl total].
  cbn [fst snd] in Hs, Ht.
  cbn [cumulative_payouts total_league_payouts total_owners].
  split; [|split].
  - unfold sorted_by_desc.
    rewrite (Zsum_perm _ _ (Permutation_map _ (sort_stable_perm _ _))).
    rewrite map_map. cbn [map] in Hs.
    change (fun x : string * CumStats => total_earnings (ce_stats (cum_entry x)))
      with (fun it : string * CumStats => total_earnings (snd it)).
    rewrite Hs, Ht. unfold Zsum at 1. simpl. lia.
  - apply sorted_by_desc_sorted.
  - reflexivity.
Qed.

End Cumulative.

(* ===================================================================== *)
(** ** The itemised ledger *)
(* ===================================================================== *)

Section ItemisedLedger.
Import Espn Payout Props.

Lemma Zsum_amount_snoc (ds : list Detail) (d : Detail) :
  Zsum (map amount (ds ++ [d])) = Zsum (map amount ds) + amount d.
Proof.
  rewrite map_app, Zsum_app. simpl. rewrite Zsum_cons. unfold Zsum at 2.
  simpl. lia.
Qed.

Lemma award_balanced (l : Ledger) (owner : string) (d : Detail) :
  ledger_balanced l -> ledger_balanced (award l owner d).
Proof.
  intros H o. unfold award, note, pay. cbn [payouts payout_details].
  destruct (String.eqb_spec owner o) as [<-|Hne].
  - rewrite !od_get_or_upd_same, Zsum_amount_snoc, H. reflexivity.
  - rewrite !od_get_or_upd_other by exact Hne. apply H.
Qed.

Lemma award_podium_balanced (year : Z) (sd : Season) (l : Ledger) :
  ledger_balanced l -> ledger_balanced (award_podium year sd l).
Proof.
  intros H. unfold award_podium.
  destruct (champion sd), (runner_up sd); repeat apply award_balanced; exact H.
Qed.

Lemma award_places_balanced (year : Z) (sd : Season) (l : Ledger) :
  ledger_balanced l -> ledger_balanced (award_places year sd l).
Proof.
  intros H. unfold award_places.
  destruct (nth_error (sorted_by standing_key (teams sd)) 2),
           (nth_error (sorted_by standing_key (teams sd)) 3);
    repeat apply award_balanced; exact H.
Qed.

Lemma award_most_points_balanced (year : Z) (sd : Season) (l : Ledger) :
  ledger_balanced l -> ledger_balanced (award_most_points year sd l).
Proof.
  intros H. unfold award_most_points.
  destruct (regular_season_leader_of (regular_season_totals (matchups sd)))
    as [[o q]|]; [apply award_balanced|]; exact H.
Qed.

Lemma award_week_balanced (st : Ledger * list (string * Z))
    (item : Z * WeekHigh) :
  weekly_balanced st /\ NoDup (map fst (snd st)) ->
  weekly_balanced (award_week st item)
  /\ NoDup (map fst (snd (award_week st item))).
Proof.
  intros [H Hnd]. unfold award_week.
  destruct (wh_owner (snd item)) as [owner|]; [|split; assumption].
  destruct (str_truthy owner); [|split; assumption].
  split.
  - intros o. cbn [fst snd]. unfold pay. cbn [payouts payout_details].
    destruct (String.eqb_spec owner o) as [<-|Hne].
    + rewrite !od_get_or_upd_same, (H owner). lia.
    + rewrite !od_get_or_upd_other by exact Hne. apply H.
  - cbn [snd]. unfold od_upd. apply od_set_NoDup. exact Hnd.
Qed.

Lemma award_weeks_balanced (highs : list (Z * WeekHigh))
    (st : Ledger * list (string * Z)) :
  weekly_balanced st /\ NoDup (map fst (snd st)) ->
  weekly_balanced (fold_left award_week highs st)
  /\ NoDup (map fst (snd (fold_left award_week highs st))).
Proof.
  revert st. induction highs as [|it r IH]; intros st H.
  - exact H.
  - cbn [fold_left]. apply IH, award_week_balanced, H.
Qed.

Lemma od_get_or_absent {V} (dflt : V) (d : list (string * V)) (k : string) :
  ~ In k (map fst d) -> od_get_or String.eqb dflt d k = dflt.
Proof.
  intros H. unfold od_get_or.
  destruct (od_get String.eqb d k) as [v|] eqn:E; [|reflexivity].
  exfalso. apply H. apply od_mem_In. unfold od_mem. rewrite E. reflexivity.
Qed.

(** Itemising the weekly highs closes the balance. *)
Lemma weekly_notes_balanced (whd : list (string * Z)) (l : Ledger) :
  NoDup (map fst whd) ->
  weekly_balanced (l, whd) ->
  ledger_balanced
    (fold_left (fun l item => note l (fst item) (weekly_detail (snd item)))
               whd l).
Proof.
  revert l. induction whd as [|[k c] r IH]; intros l Hnd H.
  - intros o. specialize (H o). cbn [fst snd] in H. cbn [fold_left].
    rewrite H. change (od_get_or String.eqb 0 (@nil (string * Z)) o) with 0.
    lia.
  - cbn [fold_left fst snd]. inversion Hnd as [|? ? Hk Hr]; subst.
    apply IH; [exact Hr|].
    intros o. cbn [fst snd]. unfold note. cbn [payouts payout_details].
    specialize (H o). cbn [fst snd] in H. rewrite H.
    assert (E : od_get_or String.eqb 0 ((k, c) :: r) o
                = if String.eqb o k then c else od_get_or String.eqb 0 r o).
    { unfold od_get_or. cbn [od_get]. destruct (String.eqb o k); reflexivity. }
    rewrite E.
    destruct (String.eqb_spec o k) as [->|Hne].
    + rewrite od_get_or_upd_same, Zsum_amount_snoc.
      rewrite (od_get_or_absent 0 r k Hk). cbn [amount weekly_detail]. lia.
    + rewrite od_get_or_upd_other by (intros E'; apply Hne; symmetry; exact E').
      reflexivity.
Qed.

Lemma award_weekly_balanced (highs : list (Z * WeekHigh)) (l : Ledger) :
  ledger_balanced l -> ledger_balanced (award_weekly highs l).
Proof.
  intros H. unfold award_weekly.
  assert (H0 : weekly_balanced (l, []) /\ NoDup (map fst (snd (l, @nil (string * Z))))).
  { split; [|constructor]. intros o. cbn [fst snd]. rewrite (H o). cbn. lia. }
  destruct (award_weeks_balanced highs (l, []) H0) as [Hb Hnd].
  destruct (fold_left award_week highs (l, [])) as [l' whd].
  apply weekly_notes_balanced; assumption.
Qed.

Lemma season_ledger_balanced (year : Z) (sd : Season) :
  ledger_balanced (season_ledger year sd).
Proof.
  unfold season_ledger.
  apply award_weekly_balanced, award_most_points_balanced.
  assert (H0 : ledger_balanced (award_podium year sd (mkLedger [] []))).
  { apply award_podium_balanced. intros o. reflexivity. }
  destruct (teams sd); [exact H0 | apply award_places_balanced, H0].
Qed.

(** X7.  In the result of [calculate_season_payouts] the total of
    every owner is the sum of the amounts of the details listed for that
    owner. *)
Theorem total_payout_is_sum_of_details
    (hist : list Season) (year : Z) (sp : SeasonPayouts) :
  calculate_season_payouts hist year = inr sp ->
  forall e, In e (sp_payouts sp) ->
            total_payout e = Zsum (map amount (details e)).
Proof.
  intros H e He.
  destruct (calculate_season_payouts_inr hist year sp H) as (sd & _ & _ & ->).
  destruct (season_payouts_list year sd) as (Hperm & Hnd & _).
  apply (Permutation_in _ Hperm) in He. apply in_map_iff in He.
  destruct He as ([o v] & <- & Hin). cbn [total_payout details fst snd].
  rewrite <- (season_ledger_balanced year sd o).
  rewrite payouts_season_ledger. unfold od_get_or.
  rewrite (od_In_get _ o v Hnd Hin). reflexivity.
Qed.

Lemma total_payout_is_sum_of_details_witness :
  let e := mkOwnerPayout "Owner A" 300
             [mkDetail "Champion" 300 "2023 League Champion"] in
  total_payout e = Zsum (map amount (details e)).
Proof.
  intros e.
  apply (total_payout_is_sum_of_details [Claims.scenario2] 2023
           (season_payouts 2023 Claims.scenario2) eq_refl e).
  vm_compute. left. reflexivity.
Defined.

End ItemisedLedger.

(* ===================================================================== *)
(** ** Shape of the canonical season record *)
(* ===================================================================== *)

Section RecordShape.
Import Espn Props.

Lemma mapM_inr {A B} (f : A -> M B) (l : list A) (ys : list B) :
  mapM f l = inr ys -> Forall2 (fun x y => f x = inr y) l ys.
Proof.
  revert ys. induction l as [|x r IH]; intros ys; simpl.
  - intros [= <-]. constructor.
  - unfold bind, ret. destruct (f x) as [e|y] eqn:E; [discriminate|].
    destruct (mapM f r) as [e|ys'] eqn:E'; [discriminate|].
    intros [= <-]. constructor; [exact E | apply IH; reflexivity].
Qed.

Lemma Forall2_In_r {A B} (R : A -> B -> Prop) (l : list A) (l' : list B)
    (y : B) :
  Forall2 R l l' -> In y l' -> exists x, In x l /\ R x y.
Proof.
  induction 1 as [|x y' l l' Hxy HF IH]; intros Hin; [destruct Hin|].
  destruct Hin as [<-|Hin].
  - exists x. split; [left; reflexivity | exact Hxy].
  - destruct (IH Hin) as (x' & Hx' & HR). exists x'. split; [right|]; assumption.
Qed.


(** What a successful [try] block is made of. *)
Lemma season_body_parts (cfg : ServiceConfig) (net : Network) (year : Z)
    (s : Season) :
  season_body cfg net year = inr s ->
  exists raw_teams schedule minfos,
    Forall2 (fun rt t => team_info rt = inr t) raw_teams (teams s)
    /\ Forall2 (fun rm ms => matchup_info raw_teams rm = inr ms) schedule minfos
    /\ matchups s = List.concat minfos
    /\ season s = year /\ error s = None.
Proof.
  unfold season_body, bind, ret.
  destruct (_make_request cfg net year [("view", "mTeam")]) as [e|td];
    [discriminate|].
  destruct (_make_request cfg net year [("view", "mMatchup")]) as [e|md];
    [discriminate|].
  destruct (body_teams td) as [e|rts]; [discriminate|].
  destruct (body_schedule md) as [e|sch]; [discriminate|].
  destruct (mapM team_info rts) as [e|infos] eqn:E1; [discriminate|].
  destruct (mapM (matchup_info rts) sch) as [e|minfos] eqn:E2; [discriminate|].
  intros [= <-]. exists rts, sch, minfos. cbn.
  repeat split; auto using mapM_inr.
Qed.

Lemma map_team_to_owner_resolved (v : PyVal) (o : string) :
  _map_team_to_owner v = inr o -> resolved_owner o.
Proof.
  intros H. destruct (Claims.hashable v) eqn:Hh.
  - destruct (map_team_to_owner_hashable v Hh) as (o' & Ho & Hr).
    rewrite H in Ho. injection Ho as <-. exact Hr.
  - destruct v; try discriminate Hh; discriminate H.
Qed.

Lemma team_name_truthy (rt : RawTeam) : str_truthy (_get_team_name rt) = true.
Proof.
  unfold _get_team_name, str_or.
  destruct (str_truthy (opt_or (rt_name rt) "")) eqn:E1; [exact E1|].
  match goal with
  | |- context [str_truthy (strip ?x)] => destruct (str_truthy (strip x)) eqn:E2
  end; [exact E2 | reflexivity].
Qed.

Lemma side_entry_shape (raw_teams : list RawTeam) (rm : RawMatchup)
    (side : option Z) (es : list MatchupTeam) :
  side_entry raw_teams rm side = inr es ->
  (List.length es <= 1)%nat
  /\ forall t, In t es ->
       Some (mt_id t) = side /\ mt_id t <> 0 /\ resolved_owner (mt_owner t)
       /\ str_truthy (mt_name t) = true.
Proof.
  unfold side_entry. destruct side as [tid|].
  - destruct (Z.eqb_spec tid 0) as [->|Hne].
    + intros [= <-]. split; [simpl; lia | intros t []].
    + unfold bind, ret.
      destruct (_map_team_to_owner (PInt tid)) as [e|owner] eqn:E;
        [discriminate|].
      intros [= <-]. split; [simpl; lia|].
      intros t [<-|[]]. cbn. repeat split; auto.
      * apply (map_team_to_owner_resolved _ _ E).
      * apply team_name_truthy.
  - intros [= <-]. split; [simpl; lia | intros t []].
Qed.

Lemma matchup_info_shape (raw_teams : list RawTeam) (rm : RawMatchup)
    (ms : list Matchup) :
  matchup_info raw_teams rm = inr ms ->
  forall m, In m ms ->
    0 < week m
    /\ (List.length (m_teams m) <= 2)%nat
    /\ forall t, In t (m_teams m) ->
         mt_id t <> 0 /\ resolved_owner (mt_owner t)
         /\ str_truthy (mt_name t) = true.
Proof.
  unfold matchup_info.
  destruct (Z.gtb_spec (opt_or (rm_matchupPeriodId rm) 0) 0) as [Hw|_].
  - unfold bind, ret.
    destruct (side_entry raw_teams rm (side_teamId (rm_away rm))) as [e|a] eqn:Ea;
      [discriminate|].
    destruct (side_entry raw_teams rm (side_teamId (rm_home rm))) as [e|h] eqn:Eh;
      [discriminate|].
    intros [= <-] m [<-|[]]. cbn.
    destruct (side_entry_shape _ _ _ _ Ea) as [La Ha].
    destruct (side_entry_shape _ _ _ _ Eh) as [Lh Hh].
    split; [lia|]. split; [rewrite length_app; lia|].
    intros t Ht. apply in_app_or in Ht.
    destruct Ht as [Ht|Ht]; [apply Ha in Ht | apply Hh in Ht]; tauto.
  - intros [= <-] m [].
Qed.

(** X8.  Every matchup of the record [get_season_data] returns has
    a week number above zero and at most two participants; every participant
    has a non-zero team id, a non-empty display name and an owner of the
    identity table or "Unknown Owner". *)
Theorem season_matchups_well_formed
    (cfg : ServiceConfig) (net : Network) (year : Z) :
  forall m, In m (matchups (get_season_data cfg net year)) ->
    0 < week m
    /\ (List.length (m_teams m) <= 2)%nat
    /\ forall t, In t (m_teams m) ->
         mt_id t <> 0 /\ resolved_owner (mt_owner t)
         /\ str_truthy (mt_name t) = true.
Proof.
  intros m. unfold get_season_data.
  destruct (season_body cfg net year) as [e|s] eqn:E; [intros []|].
  destruct (season_body_parts _ _ _ _ E) as (rts & sch & minfos & _ & HF & -> & _).
  intros Hin. apply in_concat in Hin. destruct Hin as (ms & Hms & Hm).
  destruct (Forall2_In_r _ _ _ _ HF Hms) as (rm & _ & Hrm).
  apply (matchup_info_shape rts rm ms Hrm m Hm).
Qed.

Lemma season_matchups_well_formed_witness :
  let m := nth 0 (matchups (get_season_data Claims.sample_config Claims.namesakes_net 2023))
               (mkMatchup 0 false []) in
  0 < week m /\ (List.length (m_teams m) <= 2)%nat.
Proof.
  intros m.
  destruct (season_matchups_well_formed Claims.sample_config Claims.namesakes_net 2023 m)
    as (H1 & H2 & _).
  - subst m. vm_compute. left. reflexivity.
  - split; assumption.
Defined.

End RecordShape.

Section RecordTeams.
Import Espn Props.

Lemma team_info_shape (rt : RawTeam) (t : Team) :
  team_info rt = inr t ->
  t_id t = rt_id rt /\ final_rank t <> None /\ playoff_seed t <> None
  /\ resolved_owner (t_owner t) /\ str_truthy (t_name t) = true.
Proof.
  unfold team_info, bind, ret.
  destruct (_map_team_to_owner (py_of_id (rt_id rt))) as [e|owner] eqn:E;
    [discriminate|].
  intros [= <-]. cbn. repeat split; try discriminate.
  - apply (map_team_to_owner_resolved _ _ E).
  - apply team_name_truthy.
Qed.

Lemma pick_champion_some (l : list Team) (c : Team) :
  pick_champion l = Some c -> In c l /\ final_rank c = Some 1.
Proof.
  destruct l as [|t0 r]; [discriminate|]. simpl.
  destruct (has_rank 1 t0) eqn:E; [|discriminate].
  intros [= <-]. split; [left; reflexivity | apply has_rank_iff, E].
Qed.

Lemma pick_runner_up_some (l : list Team) (c : Team) :
  pick_runner_up l = Some c -> In c l /\ final_rank c = Some 2.
Proof.
  destruct l as [|t0 [|t1 r]]; try discriminate. simpl.
  destruct (has_rank 2 t1) eqn:E; [|discriminate].
  intros [= <-]. split; [right; left; reflexivity | apply has_rank_iff, E].
Qed.

Lemma get_season_data_teams (cfg : ServiceConfig) (net : Network) (year : Z)
    (t : Team) :
  In t (teams (get_season_data cfg net year)) ->
  final_rank t <> None /\ playoff_seed t <> None
  /\ resolved_owner (t_owner t) /\ str_truthy (t_name t) = true.
Proof.
  unfold get_season_data.
  destruct (season_body cfg net year) as [e|s] eqn:E; [intros []|].
  destruct (season_body_parts _ _ _ _ E) as (rts & sch & minfos & HF & _).
  intros Hin. destruct (Forall2_In_r _ _ _ _ HF Hin) as (rt & _ & Hrt).
  apply team_info_shape in Hrt. tauto.
Qed.

(** X9.  Whatever the network answers, a champion reported by
    [get_season_data] is one of the record's teams and has final rank 1, a
    reported runner-up is one of the record's teams and has final rank 2 (so
    the two are never the same team), and every team of the record carries a
    final rank, a playoff seed, a non-empty name and an owner of the identity
    table or "Unknown Owner". *)
Theorem podium_members_carry_their_rank
    (cfg : ServiceConfig) (net : Network) (year : Z) :
  let s := get_season_data cfg net year in
  (forall c, champion s = Some c -> In c (teams s) /\ final_rank c = Some 1)
  /\ (forall r, runner_up s = Some r -> In r (teams s) /\ final_rank r = Some 2)
  /\ (forall c r, champion s = Some c -> runner_up s = Some r -> c <> r)
  /\ (forall t, In t (teams s) ->
        final_rank t <> None /\ playoff_seed t <> None
        /\ resolved_owner (t_owner t) /\ str_truthy (t_name t) = true).
Proof.
  intros s. destruct (get_season_data_podium cfg net year) as [Hc Hr].
  fold s in Hc, Hr.
  assert (C : forall c, champion s = Some c ->
                In c (teams s) /\ final_rank c = Some 1).
  { intros c H. rewrite Hc in H. apply pick_champion_some in H.
    destruct H as [Hin Hrk]. split; [|exact Hrk].
    unfold sorted_by in Hin. apply sort_stable_In in Hin. exact Hin. }
  assert (R : forall r, runner_up s = Some r ->
                In r (teams s) /\ final_rank r = Some 2).
  { intros r H. rewrite Hr in H. apply pick_runner_up_some in H.
    destruct H as [Hin Hrk]. split; [|exact Hrk].
    unfold sorted_by in Hin. apply sort_stable_In in Hin. exact Hin. }
  repeat split; try (apply C; assumption); try (apply R; assumption).
  - intros c r H1 H2 ->. apply C in H1. apply R in H2.
    destruct H1 as [_ H1]. destruct H2 as [_ H2]. congruence.
  - apply (get_season_data_teams cfg net year t H).
  - apply (get_season_data_teams cfg net year t H).
  - apply (get_season_data_teams cfg net year t H).
  - apply (get_season_data_teams cfg net year t H).
Qed.

Lemma py_range_In (a b y : Z) : In y (py_range a b) <-> a <= y < b.
Proof.
  unfold py_range. rewrite in_map_iff. split.
  - intros (i & <- & Hi). apply in_seq in Hi. lia.
  - intros H. exists (Z.to_nat (y - a)). split; [lia|].
    apply in_seq. lia.
Qed.

Lemma py_range_length (a b : Z) : Zlen (py_range a b) = Z.max 0 (b - a).
Proof.
  unfold py_range, Zlen. rewrite length_map, length_seq. lia.
Qed.

Lemma py_range_sorted (a b : Z) : StronglySorted Z.lt (py_range a b).
Proof.
  unfold py_range. generalize (Z.to_nat (b - a)) as n. intros n.
  generalize 0%nat as k. induction n as [|n IH]; intros k; simpl.
  - constructor.
  - constructor; [apply IH|].
    apply Forall_forall. intros y Hy. apply in_map_iff in Hy.
    destruct Hy as (i & <- & Hi). apply in_seq in Hi. lia.
Qed.

Lemma get_season_data_year (cfg : ServiceConfig) (net : Network) (year : Z) :
  season (get_season_data cfg net year) = year.
Proof.
  unfold get_season_data.
  destruct (season_body cfg net year) as [e|s] eqn:E; [reflexivity|].
  apply (season_body_year _ _ _ _ E).
Qed.

Lemma historical_years (cfg : ServiceConfig) (net : Network) :
  map season (get_historical_data cfg net)
  = py_range (START_SEASON cfg) (CURRENT_SEASON cfg + 1).
Proof.
  unfold get_historical_data. rewrite map_map.
  rewrite <- (map_id (py_range _ _)) at 2.
  apply map_ext. intros y. apply get_season_data_year.
Qed.

(** X10.  Whatever the network answers, [get_historical_data] returns
    exactly one record per year from START_SEASON to CURRENT_SEASON
    inclusive, in ascending order of year (none when the start lies after
    the current season); the record of a year is the one [get_season_data]
    returns for it. *)
Theorem historical_data_one_record_per_year
    (cfg : ServiceConfig) (net : Network) :
  let hist := get_historical_data cfg net in
  (forall y, In y (map season hist)
             <-> START_SEASON cfg <= y <= CURRENT_SEASON cfg)
  /\ StronglySorted Z.lt (map season hist)
  /\ Zlen hist = Z.max 0 (CURRENT_SEASON cfg + 1 - START_SEASON cfg)
  /\ (forall sd, In sd hist -> sd = get_season_data cfg net (season sd)).
Proof.
  intros hist. unfold hist. rewrite historical_years.
  split; [|split; [|split]].
  - intros y. rewrite py_range_In. lia.
  - apply py_range_sorted.
  - rewrite <- py_range_length. unfold get_historical_data, Zlen.
    rewrite length_map. reflexivity.
  - intros sd Hin. unfold get_historical_data in Hin.
    apply in_map_iff in Hin. destruct Hin as (y & <- & _).
    rewrite get_season_data_year. reflexivity.
Qed.

End RecordTeams.

(* ===================================================================== *)
(** ** Invariants of dictionaries filled by a loop *)
(* ===================================================================== *)

Section DictInvariants.
Context {K V : Type} (keqb : K -> K -> bool) (P : V -> Prop).

Lemma od_set_Forall (d : list (K * V)) (k : K) (v : V) :
  Forall (fun it => P (snd it)) d -> P v ->
  Forall (fun it => P (snd it)) (od_set keqb d k v).
Proof.
  intros Hd Hv. induction d as [|[k' v'] r IH]; simpl.
  - constructor; [exact Hv | constructor].
  - inversion Hd as [|x l Hx Hr]; subst.
    destruct (keqb k k'); constructor; auto.
Qed.

Lemma od_get_or_Forall (dflt : V) (d : list (K * V)) (k : K) :
  Forall (fun it => P (snd it)) d -> P dflt -> P (od_get_or keqb dflt d k).
Proof.
  intros Hd Hdf. unfold od_get_or. induction d as [|[k' v'] r IH]; simpl.
  - exact Hdf.
  - inversion Hd as [|x l Hx Hr]; subst.
    destruct (keqb k k'); [exact Hx | apply IH, Hr].
Qed.

Lemma od_upd_Forall (dflt : V) (d : list (K * V)) (k : K) (f : V -> V) :
  Forall (fun it => P (snd it)) d -> P dflt -> (forall x, P x -> P (f x)) ->
  Forall (fun it => P (snd it)) (od_upd keqb dflt d k f).
Proof.
  intros Hd Hdf Hf. unfold od_upd. apply od_set_Forall; [exact Hd|].
  apply Hf, od_get_or_Forall; assumption.
Qed.

End DictInvariants.

Lemma NoDup_map_filter {K V} (keep : V -> bool) (key : V -> K)
    (items : list V) :
  NoDup (map key items) -> NoDup (map key (filter keep items)).
Proof.
  induction items as [|x r IH]; simpl; intros H; [constructor|].
  inversion H as [|y l' Hnin Hnd]; subst.
  destruct (keep x); simpl; [|apply IH, Hnd].
  constructor; [|apply IH, Hnd].
  intros Hin. apply Hnin. apply in_map_iff in Hin.
  destruct Hin as (z & Hz & Hin). apply filter_In in Hin.
  apply in_map_iff. exists z. tauto.
Qed.

(* ===================================================================== *)
(** ** All-time records *)
(* ===================================================================== *)

Section AllTimeRecords.
Import Espn Analytics Claims Props.

Lemma tallies_default : tallies_consistent owner_stats_default.
Proof. unfold tallies_consistent, Zlen. simpl. lia. Qed.

Lemma update_owner_stats_consistent (sd : Season) (t : Team) (s : OwnerStats) :
  tallies_consistent s -> tallies_consistent (update_owner_stats sd t s).
Proof.
  unfold tallies_consistent, update_owner_stats.
  intros (G & S & C & R & Pl & C' & R'). cbn.
  destruct (playoff_test t);
    destruct (podium_owner_is (champion sd) (t_owner t));
    destruct (podium_owner_is (runner_up sd) (t_owner t));
    rewrite ?Zlen_app; change (Zlen [season sd]) with 1; lia.
Qed.

Lemma owner_stats_fold_consistent (hist : list Season) (tbl : OwnerTable) :
  Forall (fun it => tallies_consistent (snd it)) tbl ->
  NoDup (map fst tbl) ->
  let out := fold_left (fun tbl sd => fold_left (all_time_team sd) (teams sd) tbl)
                       hist tbl in
  Forall (fun it => tallies_consistent (snd it)) out /\ NoDup (map fst out).
Proof.
  revert tbl. induction hist as [|sd r IH]; intros tbl HF HN; simpl.
  - split; assumption.
  - apply IH.
    + clear IH. revert tbl HF HN.
      induction (teams sd) as [|t ts IHt]; intros tbl HF HN; simpl;
        [exact HF|].
      apply IHt.
      * unfold all_time_team. apply od_upd_Forall;
          [exact HF | apply tallies_default
           | apply update_owner_stats_consistent].
      * unfold all_time_team, od_upd. apply od_set_NoDup, HN.
    + clear IH. revert tbl HF HN.
      induction (teams sd) as [|t ts IHt]; intros tbl HF HN; simpl;
        [exact HN|].
      apply IHt.
      * unfold all_time_team. apply od_upd_Forall;
          [exact HF | apply tallies_default
           | apply update_owner_stats_consistent].
      * unfold all_time_team, od_upd. apply od_set_NoDup, HN.
Qed.

Lemma owner_stats_consistent (hist : list Season) :
  Forall (fun it => tallies_consistent (snd it)) (owner_stats hist)
  /\ NoDup (map fst (owner_stats hist)).
Proof.
  apply (owner_stats_fold_consistent hist []); constructor.
Qed.

Lemma leaders_owners (tbl : OwnerTable) :
  map ls_owner (all_time_leaders tbl)
  = map fst (filter (fun it => games_played (snd it) >? 0) tbl).
Proof.
  unfold all_time_leaders. induction tbl as [|[o s] r IH]; simpl;
    [reflexivity|].
  destruct (games_played s >? 0); simpl; rewrite IH; reflexivity.
Qed.

Lemma leaders_In (tbl : OwnerTable) (x : LeaderStats) :
  In x (all_time_leaders tbl) <->
  exists o s, In (o, s) tbl /\ 0 < games_played s /\ x = leader_stats o s.
Proof.
  unfold all_time_leaders. rewrite in_flat_map. split.
  - intros ([o s] & Hin & Hx). simpl in Hx.
    destruct (Z.gtb_spec (games_played s) 0) as [Hg|Hg]; [|destruct Hx].
    destruct Hx as [<-|[]]. exists o, s. auto.
  - intros (o & s & Hin & Hg & ->). exists (o, s). split; [exact Hin|].
    simpl. destruct (Z.gtb_spec (games_played s) 0) as [_|Hn]; [|lia].
    left. reflexivity.
Qed.

Lemma all_time_records_facts (hist : list Season) :
  let recs := all_time_records (get_all_time_stats hist) in
  NoDup (map ls_owner recs)
  /\ (forall x, In x recs ->
        ls_stats x = stats_of hist (ls_owner x)
        /\ 0 < games_played (ls_stats x)
        /\ tallies_consistent (ls_stats x))
  /\ (forall o, 0 < games_played (stats_of hist o) ->
        In o (map ls_owner recs)).
Proof.
  cbn. destruct (owner_stats_consistent hist) as [HF HN].
  split; [|split].
  - rewrite leaders_owners. apply NoDup_map_filter, HN.
  - intros x Hx. apply leaders_In in Hx.
    destruct Hx as (o & s & Hin & Hg & ->). cbn.
    split; [|split; [exact Hg|]].
    + unfold stats_of, od_get_or. rewrite (od_In_get _ _ _ HN Hin).
      reflexivity.
    + rewrite Forall_forall in HF. apply (HF (o, s) Hin).
  - intros o Hg. unfold stats_of, od_get_or in Hg.
    destruct (od_get String.eqb (owner_stats hist) o) as [s|] eqn:E;
      [|simpl in Hg; lia].
    apply od_get_In in E. apply in_map_iff.
    exists (leader_stats o s). split; [reflexivity|].
    apply leaders_In. exists o, s. auto.
Qed.

(** X11.  The all-time records hold one entry per owner, exactly for
    the owners with a positive number of games played.  In every entry the
    games played are wins plus losses plus ties, the seasons played are the
    number of listed seasons, the championships and runner-up finishes are
    the numbers of listed years, and none of playoff appearances,
    championships and runner-up finishes exceeds the seasons played. *)
Theorem all_time_records_consistent (hist : list Season) :
  let recs := all_time_records (get_all_time_stats hist) in
  NoDup (map ls_owner recs)
  /\ (forall x, In x recs ->
        ls_stats x = stats_of hist (ls_owner x)
        /\ 0 < games_played (ls_stats x)
        /\ tallies_consistent (ls_stats x))
  /\ (forall o, 0 < games_played (stats_of hist o) ->
        In o (map ls_owner recs)).
Proof. exact (all_time_records_facts hist). Qed.

End AllTimeRecords.

(* ===================================================================== *)
(** ** Playoff appearances of teams without a final rank *)
(* ===================================================================== *)

Section PlayoffAppearances.
Import Espn Analytics Claims Props.







End PlayoffAppearances.

(* ===================================================================== *)
(** ** Champions history *)
(* ===================================================================== *)

Section ChampionsHistory.
Import Espn Analytics Claims Props.

Lemma Zsum_map_add {A} (f g : A -> Z) (l : list A) :
  Zsum (map (fun x => f x + g x) l) = Zsum (map f l) + Zsum (map g l).
Proof.
  induction l as [|x r IH]; simpl map; [reflexivity|].
  rewrite !Zsum_cons, IH. lia.
Qed.

Lemma Zsum_indicator_out (k : string) (S : list string) :
  ~ In k S -> Zsum (map (fun o => if String.eqb k o then 1 else 0) S) = 0.
Proof.
  induction S as [|o r IH]; simpl map; intros H; [reflexivity|].
  rewrite Zsum_cons, IH by (intros H'; apply H; right; exact H').
  destruct (String.eqb_spec k o) as [->|_]; [|reflexivity].
  exfalso. apply H. left. reflexivity.
Qed.

Lemma Zsum_indicator_in (k : string) (S : list string) :
  NoDup S -> In k S ->
  Zsum (map (fun o => if String.eqb k o then 1 else 0) S) = 1.
Proof.
  induction S as [|o r IH]; simpl map; intros Hnd Hin; [destruct Hin|].
  inversion Hnd as [|x l Hnin Hnd']; subst. rewrite Zsum_cons.
  destruct (String.eqb_spec k o) as [->|Hne].
  - rewrite Zsum_indicator_out by exact Hnin. reflexivity.
  - destruct Hin as [->|Hin]; [contradiction|]. rewrite IH by assumption.
    reflexivity.
Qed.

(** Counting a list owner by owner counts every element once. *)
Lemma Zsum_count_by_owner (S : list string) (l : list PodiumInfo) :
  NoDup S -> (forall p, In p l -> In (pi_owner p) S) ->
  Zsum (map (fun o => Zlen (filter (fun p => String.eqb (pi_owner p) o) l)) S)
  = Zlen l.
Proof.
  intros Hnd. induction l as [|x r IH]; intros Hin.
  - simpl filter. change (@Zlen PodiumInfo []) with 0.
    clear Hnd Hin. induction S as [|o S' IHS]; simpl map; [reflexivity|].
    rewrite Zsum_cons, IHS. reflexivity.
  - rewrite (map_ext _
      (fun o => (if String.eqb (pi_owner x) o then 1 else 0)
                + Zlen (filter (fun p => String.eqb (pi_owner p) o) r))).
    + rewrite Zsum_map_add, IH by (intros p Hp; apply Hin; right; exact Hp).
      rewrite Zsum_indicator_in;
        [rewrite Zlen_cons; reflexivity | exact Hnd
         | apply Hin; left; reflexivity].
    + intros o. simpl filter.
      destruct (String.eqb (pi_owner x) o); [apply Zlen_cons | lia].
Qed.

Lemma count_owners_from (l : list PodiumInfo) (c : list (string * Z))
    (o : string) :
  od_get_or String.eqb 0
    (fold_left (fun c p => od_upd String.eqb 0 c (pi_owner p) (fun n => n + 1))
               l c) o
  = od_get_or String.eqb 0 c o
    + Zlen (filter (fun p => String.eqb (pi_owner p) o) l).
Proof.
  revert c. induction l as [|x r IH]; intros c; simpl fold_left; simpl filter.
  - change (@Zlen PodiumInfo []) with 0. lia.
  - rewrite IH. destruct (String.eqb_spec (pi_owner x) o) as [<-|Hne].
    + rewrite od_get_or_upd_same, Zlen_cons. lia.
    + rewrite od_get_or_upd_other by exact Hne. reflexivity.
Qed.

Lemma count_owners_get (l : list PodiumInfo) (o : string) :
  od_get_or String.eqb 0 (count_owners l) o
  = Zlen (filter (fun p => String.eqb (pi_owner p) o) l).
Proof. unfold count_owners. rewrite count_owners_from. reflexivity. Qed.

Lemma count_owners_keys_from (l : list PodiumInfo) (c : list (string * Z))
    (o : string) :
  In o (map fst
          (fold_left
             (fun c p => od_upd String.eqb 0 c (pi_owner p) (fun n => n + 1))
             l c))
  <-> In o (map fst c) \/ In o (map pi_owner l).
Proof.
  revert c. induction l as [|x r IH]; intros c; simpl fold_left; simpl map.
  - simpl. tauto.
  - rewrite IH. unfold od_upd. rewrite od_keys_set.
    destruct (od_mem String.eqb c (pi_owner x)) eqn:E.
    + apply od_mem_In in E. simpl. split; [tauto|].
      intros [H|[<-|H]]; auto.
    + rewrite in_app_iff. simpl. tauto.
Qed.

Lemma count_owners_keys (l : list PodiumInfo) (o : string) :
  In o (map fst (count_owners l)) <-> In o (map pi_owner l).
Proof.
  unfold count_owners. rewrite count_owners_keys_from. simpl. tauto.
Qed.

Lemma owner_set_from (ks acc : list string) :
  NoDup acc ->
  let out :=
    fold_left (fun acc k => if existsb (String.eqb k) acc then acc
                            else acc ++ [k]) ks acc in
  NoDup out /\ forall o, In o out <-> In o acc \/ In o ks.
Proof.
  revert acc. induction ks as [|k r IH]; intros acc Hnd; simpl.
  - split; [exact Hnd | intros o; tauto].
  - destruct (existsb (String.eqb k) acc) eqn:E.
    + destruct (IH acc Hnd) as [N I]. split; [exact N|].
      intros o. rewrite (I o). split; [tauto|].
      intros [H|[<-|H]]; auto. left.
      apply existsb_exists in E. destruct E as (x & Hx & Hk).
      apply String.eqb_eq in Hk. subst x. exact Hx.
    + assert (Hnin : ~ In k acc).
      { intros Hin. assert (existsb (String.eqb k) acc = true); [|congruence].
        apply existsb_exists. exists k. split; [exact Hin|].
        apply String.eqb_refl. }
      destruct (IH (acc ++ [k])) as [N I].
      * apply NoDup_app; [exact Hnd | repeat constructor; simpl; tauto |].
        intros x Hx [<-|[]]. contradiction.
      * split; [exact N|]. intros o. rewrite (I o), in_app_iff. simpl. tauto.
Qed.

Lemma owner_set_spec (a b : list (string * Z)) :
  NoDup (owner_set a b)
  /\ forall o, In o (owner_set a b) <-> In o (map fst a) \/ In o (map fst b).
Proof.
  destruct (owner_set_from (map fst a ++ map fst b) [] (NoDup_nil _)) as [N I].
  split; [exact N|]. intros o. unfold owner_set. rewrite (I o), in_app_iff.
  simpl. tauto.
Qed.

Lemma pairZ_leb_total (p q : Z * Z) : pairZ_leb p q = false -> pairZ_leb q p = true.
Proof.
  unfold pairZ_leb. intros H. apply orb_false_iff in H. destruct H as [H1 H2].
  apply Z.ltb_ge in H1. apply andb_false_iff in H2.
  apply orb_true_iff.
  destruct (Z.eq_dec (fst p) (fst q)) as [E|E].
  - destruct H2 as [H2|H2]; [apply Z.eqb_neq in H2; congruence|].
    apply Z.leb_gt in H2. right. apply andb_true_iff.
    split; [apply Z.eqb_eq; congruence | apply Z.leb_le; lia].
  - left. apply Z.ltb_lt. lia.
Qed.

Lemma pairZ_leb_trans (p q r : Z * Z) :
  pairZ_leb p q = true -> pairZ_leb q r = true -> pairZ_leb p r = true.
Proof.
  unfold pairZ_leb. rewrite !orb_true_iff, !andb_true_iff, !Z.ltb_lt,
    !Z.eqb_eq, !Z.leb_le. lia.
Qed.

Lemma pairZ_leb_fst (p q : Z * Z) : pairZ_leb p q = true -> fst p <= fst q.
Proof.
  unfold pairZ_leb. rewrite !orb_true_iff, !andb_true_iff, !Z.ltb_lt,
    !Z.eqb_eq, !Z.leb_le. lia.
Qed.

(** X12.  The owner summary of the champions history holds one
    entry per owner who appears as a champion or as a runner-up, and no
    other.  In every entry the championship and runner-up counts are the
    numbers of listed seasons, the finals are their sum and at least one;
    the championships of all owners add up to the number of seasons with a
    champion, and the entries come in descending order of championships. *)
Theorem champions_history_counts (hist : list Season) :
  let h := get_champions_history hist in
  NoDup (map of_owner (by_owner h))
  /\ (forall o, In o (map of_owner (by_owner h))
                <-> In o (map pi_owner (by_season h))
                    \/ In o (map pi_owner (runner_ups_by_season h)))
  /\ (forall e, In e (by_owner h) ->
        championships e = Zlen (championship_seasons e)
        /\ runner_ups e = Zlen (runner_up_seasons e)
        /\ total_finals e = championships e + runner_ups e
        /\ 0 < total_finals e)
  /\ Zsum (map championships (by_owner h)) = ch_total_seasons h
  /\ Zsum (map runner_ups (by_owner h)) = Zlen (runner_ups_by_season h)
  /\ sorted_wrt (fun a b => championships b <= championships a) (by_owner h).
Proof.
  intros h. subst h. unfold get_champions_history.
  cbn [by_owner by_season runner_ups_by_season ch_total_seasons].
  set (cs := podium_list champion hist).
  set (rs := podium_list runner_up hist).
  set (entry := fun owner : string =>
         {| of_owner := owner;
            championships := od_get_or String.eqb 0 (count_owners cs) owner;
            runner_ups := od_get_or String.eqb 0 (count_owners rs) owner;
            championship_seasons := seasons_of owner cs;
            runner_up_seasons := seasons_of owner rs;
            total_finals := od_get_or String.eqb 0 (count_owners cs) owner
                            + od_get_or String.eqb 0 (count_owners rs) owner |}).
  set (S := owner_set (count_owners cs) (count_owners rs)).
  set (leb := fun x y : OwnerFinals =>
         pairZ_leb (championships y, runner_ups y)
                   (championships x, runner_ups x)).
  destruct (owner_set_spec (count_owners cs) (count_owners rs)) as [HN HI].
  fold S in HN, HI.
  assert (HP : Permutation (sort_stable leb (map entry S)) (map entry S))
    by apply sort_stable_perm.
  assert (Hown : map of_owner (map entry S) = S).
  { rewrite map_map. simpl. apply map_id. }
  assert (HS : forall o, In o S <->
                 In o (map pi_owner cs) \/ In o (map pi_owner rs)).
  { intros o. rewrite (HI o), !count_owners_keys. tauto. }
  assert (HPo : Permutation (map of_owner (sort_stable leb (map entry S))) S).
  { eapply Permutation_trans; [apply Permutation_map, HP|].
    rewrite Hown. apply Permutation_refl. }
  split; [|split; [|split; [|split; [|split]]]].
  - apply (Permutation_NoDup (l := S)); [|exact HN].
    apply Permutation_sym, HPo.
  - intros o. rewrite <- (HS o).
    split; apply Permutation_in; [exact HPo | apply Permutation_sym, HPo].
  - intros e He. apply (Permutation_in _ HP) in He.
    apply in_map_iff in He. destruct He as (o & <- & Ho). cbn.
    rewrite !count_owners_get. unfold seasons_of, Zlen.
    rewrite !length_map. repeat split.
    apply HS in Ho. fold (Zlen (filter (fun p => String.eqb (pi_owner p) o) cs)).
    fold (Zlen (filter (fun p => String.eqb (pi_owner p) o) rs)).
    pose proof (Zlen_nonneg (filter (fun p => String.eqb (pi_owner p) o) cs)).
    pose proof (Zlen_nonneg (filter (fun p => String.eqb (pi_owner p) o) rs)).
    destruct Ho as [Ho|Ho]; apply in_map_iff in Ho;
      destruct Ho as (p & Hp & Hin).
    + assert (0 < Zlen (filter (fun p => String.eqb (pi_owner p) o) cs));
        [|lia].
      apply Zlen_filter_pos. apply existsb_exists. exists p.
      split; [exact Hin | apply String.eqb_eq, Hp].
    + assert (0 < Zlen (filter (fun p => String.eqb (pi_owner p) o) rs));
        [|lia].
      apply Zlen_filter_pos. apply existsb_exists. exists p.
      split; [exact Hin | apply String.eqb_eq, Hp].
  - rewrite (Zsum_perm _ _ (Permutation_map championships HP)).
    rewrite map_map. cbn.
    rewrite (map_ext _ (fun o => Zlen (filter (fun p => String.eqb (pi_owner p) o) cs)))
      by (intros o; apply count_owners_get).
    apply Zsum_count_by_owner; [exact HN|].
    intros p Hp. apply HS. left. apply in_map, Hp.
  - rewrite (Zsum_perm _ _ (Permutation_map runner_ups HP)).
    rewrite map_map. cbn.
    rewrite (map_ext _ (fun o => Zlen (filter (fun p => String.eqb (pi_owner p) o) rs)))
      by (intros o; apply count_owners_get).
    apply Zsum_count_by_owner; [exact HN|].
    intros p Hp. apply HS. right. apply in_map, Hp.
  - unfold sorted_wrt.
    apply (StronglySorted_weaken (fun a b => leb a b = true)).
    + intros a b H. apply pairZ_leb_fst in H. exact H.
    + apply sort_stable_sorted.
      * intros x y. apply pairZ_leb_total.
      * intros x y z H1 H2. unfold leb in *.
        eapply pairZ_leb_trans; eassumption.
Qed.

End ChampionsHistory.

(* ===================================================================== *)
(** ** Maxima *)
(* ===================================================================== *)

Section MaxBy.
Context {A : Type} (gt : A -> A -> bool) (le : A -> A -> Prop).
Hypothesis le_refl : forall x, le x x.
Hypothesis le_trans : forall x y z, le x y -> le y z -> le x z.
Hypothesis gt_true : forall y b, gt y b = true -> le b y.
Hypothesis gt_false : forall y b, gt y b = false -> le y b.

Lemma max_by_spec (l : list A) (x : A) :
  In (max_by gt x l) (x :: l)
  /\ forall y, In y (x :: l) -> le y (max_by gt x l).
Proof.
  revert x. induction l as [|a r IH]; intros x.
  - simpl. split; [left; reflexivity|]. intros y [<-|[]]. apply le_refl.
  - change (max_by gt x (a :: r))
      with (max_by gt (if gt a x then a else x) r).
    destruct (IH (if gt a x then a else x)) as [Hin Hmax].
    destruct (gt a x) eqn:E.
    + split.
      * right. exact Hin.
      * intros y [<-|Hy].
        -- apply (le_trans _ a); [apply gt_true, E|].
           apply Hmax. left. reflexivity.
        -- apply Hmax. exact Hy.
    + split.
      * destruct Hin as [<-|Hin]; [left; reflexivity | right; right; exact Hin].
      * intros y [<-|[<-|Hy]].
        -- apply Hmax. left. reflexivity.
        -- apply (le_trans _ x); [apply gt_false, E|].
           apply Hmax. left. reflexivity.
        -- apply Hmax. right. exact Hy.
Qed.

End MaxBy.

(* ===================================================================== *)
(** ** Scoring statistics *)
(* ===================================================================== *)

Section KeyedSums.
Context {K V : Type} (keqb : K -> K -> bool) (g : V -> Z) (dflt : V).
Hypothesis g_dflt : g dflt = 0.

Lemma Zsumk_od_set (d : list (K * V)) (k : K) (v : V) :
  Zsum (map (fun it => g (snd it)) (od_set keqb d k v))
  = Zsum (map (fun it => g (snd it)) d)
    - g (od_get_or keqb dflt d k) + g v.
Proof.
  unfold od_get_or. induction d as [|[k0 v0] r IH]; simpl.
  - rewrite Zsum_cons, g_dflt. simpl. unfold Zsum. simpl. lia.
  - destruct (keqb k k0); simpl.
    + rewrite !Zsum_cons. simpl. lia.
    + rewrite !Zsum_cons, IH. simpl. lia.
Qed.

End KeyedSums.

Lemma od_set_not_nil {K V} (keqb : K -> K -> bool) (d : list (K * V))
    (k : K) (v : V) :
  od_set keqb d k v <> [].
Proof.
  destruct d as [|[k0 v0] r]; simpl; [discriminate|].
  destruct (keqb k k0); discriminate.
Qed.

Section ScoringStats.
Import Espn Analytics Claims Props.

Lemma collect_team_inv (year : Z) (m : Matchup) (acc : ScoreAcc)
    (t : MatchupTeam) :
  scores_inv acc -> scores_inv (collect_team year m acc t).
Proof.
  unfold collect_team. destruct (Qgtb (score t) (0 # 1)); [|auto].
  intros (HS & HW & HNW & HT & HNT). unfold scores_inv.
  cbn [weekly_scores all_scores season_totals].
  split; [|split; [|split; [|split]]].
  - unfold od_upd.
    rewrite (Zsumk_od_set Z.eqb (@Zlen ScoreRecord) [] eq_refl).
    rewrite HS, !Zlen_app.
    change (Zlen [mkScoreRecord (score t) (mt_name t) (mt_id t) year (week m)
                                (playoff m)]) with 1.
    lia.
  - unfold od_upd.
    apply (od_set_Forall Z.eqb (fun l : list ScoreRecord => l <> []));
      [exact HW|].
    intros H. apply app_eq_nil in H. destruct H as [_ H]. discriminate.
  - unfold od_upd. apply (odk_set_NoDup Z.eqb Z.eqb_spec), HNW.
  - unfold od_upd at 1.
    apply (od_set_Forall Z.eqb (fun l : list (Z * Q) => l <> []));
      [exact HT|].
    unfold od_upd. apply od_set_not_nil.
  - unfold od_upd at 1. apply (odk_set_NoDup Z.eqb Z.eqb_spec), HNT.
Qed.

Lemma collect_team_scores (year : Z) (m : Matchup) (acc : ScoreAcc)
    (t : MatchupTeam) :
  all_scores (collect_team year m acc t)
  = all_scores acc
    ++ (if Qgtb (score t) (0 # 1)
        then [mkScoreRecord (score t) (mt_name t) (mt_id t) year (week m)
                            (playoff m)]
        else []).
Proof.
  unfold collect_team. destruct (Qgtb (score t) (0 # 1)); cbn;
    [reflexivity | rewrite app_nil_r; reflexivity].
Qed.

Lemma collect_fold (hist : list Season) (acc : ScoreAcc) :
  let out :=
    fold_left
      (fun acc sd =>
         fold_left
           (fun acc m => fold_left (collect_team (season sd) m) (m_teams m) acc)
           (matchups sd) acc)
      hist acc in
  (scores_inv acc -> scores_inv out)
  /\ all_scores out = all_scores acc ++ score_records hist.
Proof.
  revert acc. induction hist as [|sd r IH]; intros acc; simpl.
  - split; [auto | rewrite app_nil_r; reflexivity].
  - match goal with
    | |- context [fold_left _ r ?a] => destruct (IH a) as [I S]
    end.
    cbv zeta in I, S.
    assert (Hm : forall ms acc,
      let mid :=
        fold_left
          (fun acc m => fold_left (collect_team (season sd) m) (m_teams m) acc)
          ms acc in
      (scores_inv acc -> scores_inv mid)
      /\ all_scores mid
         = all_scores acc
           ++ flat_map
                (fun m =>
                   flat_map
                     (fun t =>
                        if Qgtb (score t) (0 # 1)
                        then [mkScoreRecord (score t) (mt_name t) (mt_id t)
                                            (season sd) (week m) (playoff m)]
                        else [])
                     (m_teams m))
                ms).
    { clear. induction ms as [|m ms IHm]; intros acc; simpl.
      - split; [auto | rewrite app_nil_r; reflexivity].
      - assert (Ht : forall ts acc,
          let a := fold_left (collect_team (season sd) m) ts acc in
          (scores_inv acc -> scores_inv a)
          /\ all_scores a
             = all_scores acc
               ++ flat_map
                    (fun t =>
                       if Qgtb (score t) (0 # 1)
                       then [mkScoreRecord (score t) (mt_name t) (mt_id t)
                                           (season sd) (week m) (playoff m)]
                       else [])
                    ts).
        { clear. induction ts as [|t ts IHt]; intros acc; simpl.
          - split; [auto | rewrite app_nil_r; reflexivity].
          - destruct (IHt (collect_team (season sd) m acc t)) as [I S].
            cbv zeta in I, S. split.
            + intros H. apply I, collect_team_inv, H.
            + rewrite S, collect_team_scores, <- app_assoc. reflexivity. }
        destruct (Ht (m_teams m) acc) as [I1 S1].
        destruct (IHm (fold_left (collect_team (season sd) m) (m_teams m) acc))
          as [I2 S2].
        cbv zeta in *. split.
        + intros H. apply I2, I1, H.
        + rewrite S2, S1, <- app_assoc. reflexivity. }
    destruct (Hm (matchups sd) acc) as [I1 S1]. cbv zeta in I1, S1. split.
    + intros H. apply I, I1, H.
    + rewrite S, S1, <- app_assoc. reflexivity.
Qed.

Lemma collect_scores_records (hist : list Season) :
  all_scores (collect_scores hist) = score_records hist
  /\ scores_inv (collect_scores hist).
Proof.
  destruct (collect_fold hist (mkScoreAcc [] [] [])) as [I S].
  cbv zeta in I, S. split; [exact S|]. apply I.
  unfold scores_inv. cbn. repeat split; constructor.
Qed.

Lemma score_records_scores (hist : list Season) :
  map sr_score (score_records hist) = valid_scores hist.
Proof.
  unfold score_records, valid_scores.
  induction hist as [|sd r IH]; simpl; [reflexivity|].
  rewrite map_app, IH. f_equal.
  induction (matchups sd) as [|m ms IHm]; simpl; [reflexivity|].
  rewrite map_app, IHm. f_equal.
  induction (m_teams m) as [|t ts IHt]; simpl; [reflexivity|].
  rewrite map_app, IHt. destruct (Qgtb (score t) (0 # 1)); reflexivity.
Qed.

Lemma weekly_averages_counts (ws : list (Z * list ScoreRecord)) :
  Forall (fun it => snd it <> []) ws ->
  let avgs :=
    flat_map
      (fun item =>
         match snd item with
         | [] => []
         | scores =>
             [ (fst item,
                mkWeeklyAverage (round2 (mean (map sr_score scores)))
                                (Zlen scores)) ]
         end)
      ws in
  map fst avgs = map fst ws
  /\ Zsum (map (fun it => wa_count (snd it)) avgs)
     = Zsum (map (fun it => Zlen (snd it)) ws).
Proof.
  induction 1 as [|[w l] r Hl HF IH]; [split; reflexivity|].
  cbv zeta in *. destruct IH as [IH1 IH2]. cbn [snd] in Hl.
  destruct l as [|x l]; [contradiction|].
  cbn [flat_map snd fst app map wa_count]. split.
  - f_equal. exact IH1.
  - rewrite !Zsum_cons. f_equal. exact IH2.
Qed.

Lemma season_leaders_seasons (hist : list Season)
    (st : list (Z * list (Z * Q))) :
  Forall (fun it => snd it <> []) st ->
  map sl_season
    (flat_map
       (fun item =>
          match top_scorer (snd item) with
          | Some (top_id, top_score) =>
              [ mkSeasonLeader (fst item)
                  (leader_name hist (fst item) top_id)
                  (round2 top_score) top_id ]
          | None => []
          end)
       st)
  = map fst st.
Proof.
  induction 1 as [|[y tot] r Hl HF IH]; simpl; [reflexivity|].
  simpl in Hl. destruct tot as [|first rest]; [contradiction|].
  unfold top_scorer at 1.
  destruct (max_by (fun a b => Qgtb (snd a) (snd b)) first rest) as [i q].
  simpl. rewrite IH. reflexivity.
Qed.

Lemma Zlen_map {A B} (f : A -> B) (l : list A) : Zlen (map f l) = Zlen l.
Proof. unfold Zlen. rewrite length_map. reflexivity. Qed.

Lemma Zlen_sort {A} (leb : A -> A -> bool) (l : list A) :
  Zlen (sort_stable leb l) = Zlen l.
Proof. unfold Zlen. rewrite sort_stable_length. reflexivity. Qed.

Lemma Zlen_firstn {A} (n : nat) (l : list A) :
  Zlen (firstn n l) = Z.min (Z.of_nat n) (Zlen l).
Proof. unfold Zlen. rewrite length_firstn. lia. Qed.

(** Counts of the scoring report. *)
Lemma scoring_stats_counts (hist : list Season) :
  (get_scoring_stats hist = ScoringError "No scoring data available"
   <-> valid_scores hist = [])
  /\ (forall r, get_scoring_stats hist = ScoringOk r ->
        let n := Zlen (valid_scores hist) in
        0 < n
        /\ ov_total_games (overall_stats r) = n
        /\ Zsum (map (fun it => wa_count (snd it)) (weekly_averages r)) = n
        /\ NoDup (map fst (weekly_averages r))
        /\ Zlen (highest_scores r) = Z.min 10 n
        /\ Zlen (lowest_scores r) = Z.min 10 n
        /\ NoDup (map sl_season (season_leaders r))
        /\ sorted_wrt (fun a b => sl_season b <= sl_season a)
                      (season_leaders r)).
Proof.
  destruct (collect_scores_records hist) as [HA (HS & HW & HNW & HT & HNT)].
  pose proof (score_records_scores hist) as HV.
  unfold get_scoring_stats. rewrite HA in *.
  destruct (score_records hist) as [|x l] eqn:E.
  - split.
    + split; [intros _; rewrite <- HV; reflexivity | reflexivity].
    + intros r H. discriminate H.
  - split.
    + split; [discriminate | intros H; rewrite <- HV in H; discriminate H].
    + intros r H. cbv beta iota in H.
      assert (Hpos : 0 < Zlen (x :: l)) by (rewrite Zlen_cons; pose proof (Zlen_nonneg l); lia).
      revert H HS HV Hpos. generalize (x :: l) as all. intros all H HS HV Hpos.
      assert (Hr : r = match ScoringOk r with
                       | ScoringOk r' => r'
                       | ScoringError _ => r
                       end) by reflexivity.
      rewrite <- H in Hr. cbv beta iota in Hr. rewrite Hr. clear H Hr.
      cbv beta iota zeta delta
        [overall_stats ov_total_games weekly_averages highest_scores
         lowest_scores season_leaders].
      rewrite <- HV.
      destruct (weekly_averages_counts _ HW) as [K1 K2]. cbv zeta in K1, K2.
      unfold sorted_byQ_desc, sorted_byQ.
      rewrite !Zlen_map, !Zlen_firstn, !Zlen_sort.
      split; [|split; [|split; [|split; [|split; [|split; [|split]]]]]].
      * exact Hpos.
      * reflexivity.
      * rewrite K2. exact HS.
      * rewrite K1. exact HNW.
      * reflexivity.
      * reflexivity.
      * apply (Permutation_NoDup (l := map fst (season_totals (collect_scores hist))));
          [|exact HNT].
        rewrite <- (season_leaders_seasons hist _ HT).
        apply Permutation_sym, Permutation_map. unfold sorted_by_desc.
        apply sort_stable_perm.
      * apply sorted_by_desc_sorted.
Qed.

End ScoringStats.

(* ===================================================================== *)
(** ** Season leaders and weekly averages of the scoring statistics *)
(* ===================================================================== *)

Section KeyedUpdates.
Context {K V : Type} (keqb : K -> K -> bool).
Hypothesis keqb_spec : forall a b, reflect (a = b) (keqb a b).

Lemma odk_get_or_upd_same (dflt : V) (d : list (K * V)) (k : K) (f : V -> V) :
  od_get_or keqb dflt (od_upd keqb dflt d k f) k = f (od_get_or keqb dflt d k).
Proof.
  unfold od_upd, od_get_or at 1.
  rewrite (odk_get_set_same keqb keqb_spec). reflexivity.
Qed.

Lemma odk_get_or_upd_other (dflt dflt' : V) (d : list (K * V)) (k k' : K)
    (f : V -> V) :
  k <> k' ->
  od_get_or keqb dflt' (od_upd keqb dflt d k f) k' = od_get_or keqb dflt' d k'.
Proof.
  intros H. unfold od_upd, od_get_or.
  rewrite (odk_get_set_other keqb keqb_spec) by exact H. reflexivity.
Qed.

Lemma odk_upd_keys (dflt : V) (d : list (K * V)) (k k' : K) (f : V -> V) :
  In k' (map fst (od_upd keqb dflt d k f)) <-> In k' (map fst d) \/ k' = k.
Proof.
  unfold od_upd. rewrite (odk_keys_set keqb).
  destruct (od_mem keqb d k) eqn:E.
  - apply (odk_mem_In keqb keqb_spec) in E. split; [tauto|].
    intros [H| ->]; assumption.
  - rewrite in_app_iff. simpl. intuition congruence.
Qed.

Lemma odk_upd_NoDup (dflt : V) (d : list (K * V)) (k : K) (f : V -> V) :
  NoDup (map fst d) -> NoDup (map fst (od_upd keqb dflt d k f)).
Proof. unfold od_upd. apply (odk_set_NoDup keqb keqb_spec). Qed.

End KeyedUpdates.

Section ScoringLeaders.
Import Espn Analytics Claims Props.

Lemma collect_team_flat (year : Z) (m : Matchup) (acc : ScoreAcc)
    (t : MatchupTeam) :
  collect_team year m acc t
  = fold_left collect_record
      (if Qgtb (score t) (0 # 1)
       then [mkScoreRecord (score t) (mt_name t) (mt_id t) year (week m)
                           (playoff m)]
       else [])
      acc.
Proof. unfold collect_team. destruct (Qgtb (score t) (0 # 1)); reflexivity. Qed.

(** The three nested loops process the score records one after the other. *)
Lemma collect_scores_flat (hist : list Season) :
  collect_scores hist
  = fold_left collect_record (score_records hist) (mkScoreAcc [] [] []).
Proof.
  unfold collect_scores, score_records.
  rewrite fold_left_flat_map. apply fold_left_ext. intros acc sd.
  rewrite fold_left_flat_map. apply fold_left_ext. intros acc' m.
  rewrite fold_left_flat_map. apply fold_left_ext. intros acc'' t.
  apply collect_team_flat.
Qed.

Lemma flat_parts (recs : list ScoreRecord) (acc : ScoreAcc) :
  season_totals (fold_left collect_record recs acc)
  = fold_left add_total recs (season_totals acc)
  /\ weekly_scores (fold_left collect_record recs acc)
     = fold_left add_week recs (weekly_scores acc).
Proof.
  revert acc. induction recs as [|r l IH]; intros acc; simpl;
    [split; reflexivity|].
  destruct (IH (collect_record acc r)) as [H1 H2]. rewrite H1, H2.
  split; reflexivity.
Qed.

Lemma season_totals_flat (hist : list Season) :
  season_totals (collect_scores hist)
  = fold_left add_total (score_records hist) [].
Proof. rewrite collect_scores_flat. apply flat_parts. Qed.

Lemma weekly_scores_flat (hist : list Season) :
  weekly_scores (collect_scores hist)
  = fold_left add_week (score_records hist) [].
Proof. rewrite collect_scores_flat. apply flat_parts. Qed.

(** *** Season totals *)

Lemma add_total_get (st : list (Z * list (Z * Q))) (r : ScoreRecord)
    (y i : Z) :
  team_total (add_total st r) y i
  = if in_season_team y i r
    then (team_total st y i + round2 (sr_score r))%Q
    else team_total st y i.
Proof.
  unfold team_total, add_total, in_season_team.
  destruct (Z.eqb_spec (sr_season r) y) as [<-|Hy].
  - rewrite (odk_get_or_upd_same Z.eqb Z.eqb_spec).
    destruct (Z.eqb_spec (sr_team_id r) i) as [<-|Hi]; cbn [andb].
    + rewrite (odk_get_or_upd_same Z.eqb Z.eqb_spec). reflexivity.
    + rewrite (odk_get_or_upd_other Z.eqb Z.eqb_spec) by exact Hi.
      reflexivity.
  - cbn [andb]. rewrite (odk_get_or_upd_other Z.eqb Z.eqb_spec) by exact Hy.
    reflexivity.
Qed.

Lemma fold_total_get (recs : list ScoreRecord) (st : list (Z * list (Z * Q)))
    (y i : Z) :
  team_total (fold_left add_total recs st) y i
  = fold_left Qplus
      (map (fun rec => round2 (sr_score rec))
           (filter (in_season_team y i) recs))
      (team_total st y i).
Proof.
  revert st. induction recs as [|r l IH]; intros st; simpl; [reflexivity|].
  rewrite IH, add_total_get. destruct (in_season_team y i r); reflexivity.
Qed.

Lemma fold_total_seasons (recs : list ScoreRecord)
    (st : list (Z * list (Z * Q))) :
  NoDup (map fst st) ->
  NoDup (map fst (fold_left add_total recs st))
  /\ forall y, In y (map fst (fold_left add_total recs st))
               <-> In y (map fst st) \/ In y (map sr_season recs).
Proof.
  revert st. induction recs as [|r l IH]; intros st Hnd; simpl.
  - split; [exact Hnd | intros y; tauto].
  - destruct (IH (add_total st r)) as [N I].
    + unfold add_total. apply (odk_upd_NoDup Z.eqb Z.eqb_spec), Hnd.
    + split; [exact N|]. intros y. rewrite (I y). unfold add_total.
      rewrite (odk_upd_keys Z.eqb Z.eqb_spec). intuition congruence.
Qed.

Lemma add_total_inner (st : list (Z * list (Z * Q))) (r : ScoreRecord)
    (y : Z) :
  (NoDup (map fst (od_get_or Z.eqb [] st y)) ->
   NoDup (map fst (od_get_or Z.eqb [] (add_total st r) y)))
  /\ forall i, In i (map fst (od_get_or Z.eqb [] (add_total st r) y))
               <-> In i (map fst (od_get_or Z.eqb [] st y))
                   \/ (sr_season r = y /\ sr_team_id r = i).
Proof.
  unfold add_total. destruct (Z.eqb_spec (sr_season r) y) as [<-|Hy].
  - rewrite (odk_get_or_upd_same Z.eqb Z.eqb_spec). split.
    + apply (odk_upd_NoDup Z.eqb Z.eqb_spec).
    + intros i. rewrite (odk_upd_keys Z.eqb Z.eqb_spec). intuition congruence.
  - rewrite (odk_get_or_upd_other Z.eqb Z.eqb_spec) by exact Hy.
    split; [auto|]. intros i. intuition congruence.
Qed.

Lemma fold_total_inner (recs : list ScoreRecord)
    (st : list (Z * list (Z * Q))) (y : Z) :
  NoDup (map fst (od_get_or Z.eqb [] st y)) ->
  NoDup (map fst (od_get_or Z.eqb [] (fold_left add_total recs st) y))
  /\ forall i,
       In i (map fst (od_get_or Z.eqb [] (fold_left add_total recs st) y))
       <-> In i (map fst (od_get_or Z.eqb [] st y))
           \/ exists r, In r recs /\ sr_season r = y /\ sr_team_id r = i.
Proof.
  revert st. induction recs as [|r l IH]; intros st Hnd; simpl.
  - split; [exact Hnd|]. intros i. split; [tauto|].
    intros [H|(r & [] & _)]. exact H.
  - destruct (add_total_inner st r y) as [N1 I1].
    destruct (IH (add_total st r) (N1 Hnd)) as [N I].
    split; [exact N|]. intros i. rewrite (I i), (I1 i). split.
    + intros [[H|[H1 H2]]|(r' & Hin & H1 & H2)].
      * left. exact H.
      * right. exists r. auto.
      * right. exists r'. auto.
    + intros [H|(r' & [<-|Hin] & H1 & H2)].
      * left. left. exact H.
      * left. right. auto.
      * right. exists r'. auto.
Qed.

Lemma top_scorer_spec {K} (totals : list (K * Q)) :
  match top_scorer totals with
  | Some best =>
      In best totals /\ forall it, In it totals -> (snd it <= snd best)%Q
  | None => totals = []
  end.
Proof.
  destruct totals as [|first rest]; [reflexivity|].
  unfold top_scorer.
  apply (max_by_spec (fun a b : K * Q => Qgtb (snd a) (snd b))
           (fun a b => (snd a <= snd b)%Q)).
  - intros x. apply Qle_refl.
  - intros x y z. apply Qle_trans.
  - intros y b H. apply Qgtb_true_iff in H. apply Qlt_le_weak, H.
  - intros y b H. apply Qgtb_false_iff in H. exact H.
Qed.

Lemma leaders_of_In (hist : list Season) (st : list (Z * list (Z * Q)))
    (l : SeasonLeader) :
  In l (leaders_of hist st) <->
  exists y totals i p,
    In (y, totals) st /\ top_scorer totals = Some (i, p)
    /\ l = mkSeasonLeader y (leader_name hist y i) (round2 p) i.
Proof.
  unfold leaders_of. rewrite in_flat_map. split.
  - intros ([y totals] & Hin & Hl). cbn [fst snd] in Hl.
    destruct (top_scorer totals) as [[i p]|] eqn:E; [|destruct Hl].
    destruct Hl as [<-|[]]. exists y, totals, i, p. auto.
  - intros (y & totals & i & p & Hin & E & ->). exists (y, totals).
    split; [exact Hin|]. cbn [fst snd]. rewrite E. left. reflexivity.
Qed.

(** Every season leader is a team that scored in its season, with that
    team's points, and no team of the season has more. *)
Lemma season_leaders_facts (hist : list Season) (l : SeasonLeader) :
  In l (leaders_of hist (season_totals (collect_scores hist))) ->
  scored_in hist (sl_season l) (sl_team_id l)
  /\ sl_total_points l
     = round2 (team_points hist (sl_season l) (sl_team_id l))
  /\ forall rec, In rec (score_records hist) ->
       sr_season rec = sl_season l ->
       (team_points hist (sl_season l) (sr_team_id rec)
        <= team_points hist (sl_season l) (sl_team_id l))%Q.
Proof.
  rewrite season_totals_flat.
  destruct (fold_total_seasons (score_records hist) [] (NoDup_nil _))
    as [N _].
  pose proof (fun y => fold_total_inner (score_records hist) [] y
                         (NoDup_nil _)) as FI.
  pose proof (fold_total_get (score_records hist) []) as FG.
  unfold team_points, scored_in.
  remember (score_records hist) as recs eqn:Er.
  remember (fold_left add_total recs []) as st eqn:Est.
  intros Hl. apply leaders_of_In in Hl.
  destruct Hl as (y & totals & i & p & Hin & E & ->).
  cbn [sl_season sl_team_id sl_total_points].
  assert (Hget : od_get_or Z.eqb [] st y = totals).
  { unfold od_get_or. rewrite (odk_In_get Z.eqb Z.eqb_spec _ _ _ N Hin).
    reflexivity. }
  destruct (FI y) as [Ni Ki]. rewrite Hget in Ni, Ki.
  assert (Hpts : forall i' p', In (i', p') totals ->
            p' = Qsum (map (fun rec => round2 (sr_score rec))
                           (filter (in_season_team y i') recs))).
  { intros i' p' Hin'. pose proof (FG y i') as G.
    unfold team_total in G. rewrite Hget in G.
    unfold od_get_or at 1 in G.
    rewrite (odk_In_get Z.eqb Z.eqb_spec _ _ _ Ni Hin') in G. exact G. }
  pose proof (top_scorer_spec totals) as T. rewrite E in T.
  destruct T as [Tin Tmax].
  split; [|split].
  - assert (Hk : In i (map fst totals)).
    { apply in_map_iff. exists (i, p). auto. }
    apply Ki in Hk. destruct Hk as [[]|(r & Hr & H1 & H2)]. exists r. auto.
  - rewrite (Hpts i p Tin). reflexivity.
  - intros rec Hrec Hy.
    assert (Hk : In (sr_team_id rec) (map fst totals)).
    { apply Ki. right. exists rec. auto. }
    apply in_map_iff in Hk. destruct Hk as ([i' p'] & Hi' & Hin').
    cbn [fst] in Hi'. subst i'.
    rewrite <- (Hpts _ _ Hin'), <- (Hpts _ _ Tin). apply (Tmax _ Hin').
Qed.

(** There is a leader for exactly the seasons that have a score record. *)
Lemma season_leaders_cover (hist : list Season) (y : Z) :
  In y (map sl_season (leaders_of hist (season_totals (collect_scores hist))))
  <-> exists rec, In rec (score_records hist) /\ sr_season rec = y.
Proof.
  destruct (collect_scores_records hist) as [_ (_ & _ & _ & HT & _)].
  unfold leaders_of. rewrite (season_leaders_seasons hist _ HT).
  rewrite season_totals_flat.
  destruct (fold_total_seasons (score_records hist) [] (NoDup_nil _))
    as [_ I].
  rewrite (I y). split.
  - intros [[]|H]. apply in_map_iff in H. destruct H as (rec & H1 & H2).
    exists rec. auto.
  - intros (rec & H1 & H2). right. apply in_map_iff. exists rec. auto.
Qed.

(** *** Weekly scores *)

Lemma fold_week_get (recs : list ScoreRecord)
    (ws : list (Z * list ScoreRecord)) (w : Z) :
  od_get_or Z.eqb [] (fold_left add_week recs ws) w
  = od_get_or Z.eqb [] ws w ++ filter (fun rec => sr_week rec =? w) recs.
Proof.
  revert ws. induction recs as [|r l IH]; intros ws; simpl.
  - rewrite app_nil_r. reflexivity.
  - rewrite IH. unfold add_week.
    destruct (Z.eqb_spec (sr_week r) w) as [<-|Hw].
    + rewrite (odk_get_or_upd_same Z.eqb Z.eqb_spec), <- app_assoc.
      reflexivity.
    + rewrite (odk_get_or_upd_other Z.eqb Z.eqb_spec) by exact Hw.
      reflexivity.
Qed.

Lemma fold_week_keys (recs : list ScoreRecord)
    (ws : list (Z * list ScoreRecord)) (w : Z) :
  In w (map fst (fold_left add_week recs ws))
  <-> In w (map fst ws) \/ In w (map sr_week recs).
Proof.
  revert ws. induction recs as [|r l IH]; intros ws; simpl; [tauto|].
  rewrite IH. unfold add_week. rewrite (odk_upd_keys Z.eqb Z.eqb_spec).
  intuition congruence.
Qed.

Lemma averages_of_In (ws : list (Z * list ScoreRecord)) (w : Z)
    (a : WeeklyAverage) :
  In (w, a) (averages_of ws) ->
  exists scores, In (w, scores) ws /\ scores <> []
                 /\ wa_count a = Zlen scores.
Proof.
  unfold averages_of. rewrite in_flat_map.
  intros ([w' scores] & Hin & Ha). cbn [fst snd] in Ha.
  destruct scores as [|x r]; [destruct Ha|].
  destruct Ha as [Ha|[]]. injection Ha as <- <-.
  exists (x :: r). split; [exact Hin|]. split; [discriminate | reflexivity].
Qed.

Lemma weekly_averages_facts (hist : list Season) :
  (forall w a,
     In (w, a) (averages_of (weekly_scores (collect_scores hist))) ->
     week_records hist w <> [] /\ wa_count a = Zlen (week_records hist w))
  /\ (forall rec, In rec (score_records hist) ->
        In (sr_week rec)
           (map fst (averages_of (weekly_scores (collect_scores hist))))).
Proof.
  destruct (collect_scores_records hist) as [_ (_ & HW & HNW & _)].
  destruct (weekly_averages_counts _ HW) as [K1 _]. cbv zeta in K1.
  split.
  - intros w a Hin. apply averages_of_In in Hin.
    destruct Hin as (scores & Hin & Hne & Hc).
    assert (Hget : od_get_or Z.eqb [] (weekly_scores (collect_scores hist)) w
                   = scores).
    { unfold od_get_or.
      rewrite (odk_In_get Z.eqb Z.eqb_spec _ _ _ HNW Hin). reflexivity. }
    rewrite weekly_scores_flat, fold_week_get in Hget. simpl in Hget.
    unfold week_records. rewrite Hget. split; assumption.
  - intros rec Hrec. unfold averages_of. rewrite K1.
    rewrite weekly_scores_flat. apply fold_week_keys. right.
    apply in_map, Hrec.
Qed.

Lemma scoring_ok_fields (hist : list Season) (r : ScoringReport) :
  get_scoring_stats hist = ScoringOk r ->
  season_leaders r
  = sorted_by_desc sl_season
      (leaders_of hist (season_totals (collect_scores hist)))
  /\ weekly_averages r = averages_of (weekly_scores (collect_scores hist)).
Proof.
  unfold get_scoring_stats.
  destruct (all_scores (collect_scores hist)) as [|x l]; [discriminate|].
  intros H.
  assert (Hr : r = match ScoringOk r with
                   | ScoringOk r' => r'
                   | ScoringError _ => r
                   end) by reflexivity.
  rewrite <- H in Hr. rewrite Hr. split; reflexivity.
Qed.

(** X13.  [get_scoring_stats] returns its error value exactly when the
    history holds no score above zero.  Otherwise the number of games it
    reports is the number of scores above zero; there is one weekly average
    per week number that has a score, its count is the number of scores of
    that week, and the counts add up to the number of games; the two
    top-ten lists hold min(10, games) entries each; and there is exactly one
    season leader per season that has a score above zero, most recent
    season first: a team that scored in that season, reported with the sum
    of its rounded scores of the season, rounded, and no team of the season
    has a larger sum. *)
Theorem scoring_stats_count_every_valid_score (hist : list Season) :
  (get_scoring_stats hist = ScoringError "No scoring data available"
   <-> valid_scores hist = [])
  /\ map sr_score (score_records hist) = valid_scores hist
  /\ (forall r, get_scoring_stats hist = ScoringOk r ->
        let n := Zlen (valid_scores hist) in
        0 < n
        /\ ov_total_games (overall_stats r) = n
        /\ Zsum (map (fun it => wa_count (snd it)) (weekly_averages r)) = n
        /\ NoDup (map fst (weekly_averages r))
        /\ (forall rec, In rec (score_records hist) ->
              In (sr_week rec) (map fst (weekly_averages r)))
        /\ (forall w a, In (w, a) (weekly_averages r) ->
              week_records hist w <> []
              /\ wa_count a = Zlen (week_records hist w))
        /\ Zlen (highest_scores r) = Z.min 10 n
        /\ Zlen (lowest_scores r) = Z.min 10 n
        /\ NoDup (map sl_season (season_leaders r))
        /\ sorted_wrt (fun a b => sl_season b <= sl_season a)
                      (season_leaders r)
        /\ (forall y, In y (map sl_season (season_leaders r))
                      <-> exists rec, In rec (score_records hist)
                                      /\ sr_season rec = y)
        /\ (forall l, In l (season_leaders r) ->
              scored_in hist (sl_season l) (sl_team_id l)
              /\ sl_total_points l
                 = round2 (team_points hist (sl_season l) (sl_team_id l))
              /\ forall rec, In rec (score_records hist) ->
                   sr_season rec = sl_season l ->
                   (team_points hist (sl_season l) (sr_team_id rec)
                    <= team_points hist (sl_season l) (sl_team_id l))%Q)).
Proof.
  destruct (scoring_stats_counts hist) as [He Hok].
  split; [exact He|]. split; [apply score_records_scores|].
  intros r Hr n. subst n.
  destruct (Hok r Hr) as (C1 & C2 & C3 & C4 & C5 & C6 & C7 & C8).
  destruct (scoring_ok_fields hist r Hr) as [EL EW].
  destruct (weekly_averages_facts hist) as [W1 W2].
  assert (HP : Permutation (season_leaders r)
                 (leaders_of hist (season_totals (collect_scores hist)))).
  { rewrite EL. unfold sorted_by_desc. apply sort_stable_perm. }
  repeat (split; [assumption|]).
  split; [intros rec Hrec; rewrite EW; apply W2, Hrec|].
  split; [intros w a Hin; rewrite EW in Hin; apply (W1 w a Hin)|].
  repeat (split; [assumption|]).
  split.
  - intros y. rewrite <- season_leaders_cover.
    split; apply Permutation_in;
      [apply Permutation_map, HP
      | apply Permutation_sym, Permutation_map, HP].
  - intros l Hl. apply season_leaders_facts.
    apply (Permutation_in _ HP Hl).
Qed.

End ScoringLeaders.


(* ===================================================================== *)
(** ** Season statistics *)
(* ===================================================================== *)

Section SeasonStatistics.
Import Espn Analytics Claims Props.

Lemma Zlen_filter_split {A} (f : A -> bool) (l : list A) :
  Zlen (filter (fun x => negb (f x)) l) + Zlen (filter f l) = Zlen l.
Proof.
  induction l as [|x r IH]; [reflexivity|]. simpl filter.
  destruct (f x); simpl negb; cbv iota; rewrite !Zlen_cons; lia.
Qed.

Lemma team_records_not_nil (ts : list Team) :
  ts <> [] -> map snd (team_records ts) <> [].
Proof.
  unfold team_records. intros H.
  assert (G : forall l d, d <> [] ->
            fold_left (fun d team => od_set opt_Z_eqb d (t_id team)
                                            (team_record team)) l d <> []).
  { induction l as [|t r IH]; intros d Hd; simpl; [exact Hd|].
    apply IH, od_set_not_nil. }
  destruct ts as [|t r]; [contradiction|]. cbn [fold_left].
  intros E. apply map_eq_nil in E. revert E. apply G, od_set_not_nil.
Qed.

Lemma season_stats_entry_spec (sd : Season) (e : SeasonStats) :
  In e (season_stats_entry sd) ->
  has_play sd = true
  /\ ss_season e = season sd
  /\ ss_total_teams e = Zlen (teams sd)
  /\ ss_total_games e + playoff_games e = Zlen (matchups sd)
  /\ ss_champion e = champion sd
  /\ ss_runner_up e = runner_up sd
  /\ exists b w,
       best_record e = Some b /\ worst_record e = Some w
       /\ In b (map snd (team_records (teams sd)))
       /\ In w (map snd (team_records (teams sd)))
       /\ forall rec, In rec (map snd (team_records (teams sd))) ->
            tr_wins w <= tr_wins rec <= tr_wins b.
Proof.
  unfold season_stats_entry, has_play.
  pose proof (team_records_not_nil (teams sd)) as Hrec.
  destruct (teams sd) as [|t ts] eqn:Et; [intros []|].
  destruct (matchups sd) as [|m ms] eqn:Em; [intros []|].
  intros [<-|[]].
  cbv beta iota zeta delta
    [ss_season ss_total_teams ss_total_games playoff_games ss_champion
     ss_runner_up best_record worst_record].
  repeat (split; [first [reflexivity | apply Zlen_filter_split]|]).
  destruct (map snd (team_records (t :: ts))) as [|x r] eqn:Er;
    [exfalso; apply Hrec; [discriminate | reflexivity]|].
  unfold extremal.
  destruct (max_by_spec (fun a b => tr_wins a >? tr_wins b)
              (fun a b => tr_wins a <= tr_wins b)) with (l := r) (x := x)
    as [Bin Bmax]; cbv beta.
  { intros; lia. }
  { intros; lia. }
  { intros y b H. apply Z.gtb_lt in H. lia. }
  { intros y b H. destruct (Z.gtb_spec (tr_wins y) (tr_wins b));
      [discriminate | lia]. }
  destruct (max_by_spec (fun a b => tr_wins a <? tr_wins b)
              (fun a b => tr_wins b <= tr_wins a)) with (l := r) (x := x)
    as [Win Wmax]; cbv beta.
  { intros; lia. }
  { intros; lia. }
  { intros y b H. apply Z.ltb_lt in H. lia. }
  { intros y b H. apply Z.ltb_ge in H. lia. }
  eexists. eexists. split; [reflexivity|]. split; [reflexivity|].
  split; [exact Bin|]. split; [exact Win|].
  intros rec Hrec'. split; [apply Wmax | apply Bmax]; exact Hrec'.
Qed.

(** X14.  The season statistics hold one entry per season record
    that has both teams and matchups, most recent season first; a season
    whose fetch failed gets none.  In every entry the regular-season and
    playoff game counts add up to the season's matchups, the team count is
    the season's, the podium is copied from it, and the best and worst
    records are team records with the most and the fewest wins. *)
Theorem season_stats_one_entry_per_played_season (hist : list Season) :
  let rep := get_season_stats hist in
  sr_total_seasons rep = Zlen (filter has_play hist)
  /\ Permutation (map ss_season (seasons rep))
                 (map season (filter has_play hist))
  /\ sorted_wrt (fun a b => ss_season b <= ss_season a) (seasons rep)
  /\ forall e, In e (seasons rep) ->
       exists sd, In sd hist /\ has_play sd = true
         /\ ss_season e = season sd
         /\ ss_total_teams e = Zlen (teams sd)
         /\ ss_total_games e + playoff_games e = Zlen (matchups sd)
         /\ ss_champion e = champion sd
         /\ ss_runner_up e = runner_up sd
         /\ exists b w,
              best_record e = Some b /\ worst_record e = Some w
              /\ In b (map snd (team_records (teams sd)))
              /\ In w (map snd (team_records (teams sd)))
              /\ forall rec, In rec (map snd (team_records (teams sd))) ->
                   tr_wins w <= tr_wins rec <= tr_wins b.
Proof.
  intros rep. subst rep. unfold get_season_stats.
  cbv beta iota zeta delta [seasons sr_total_seasons].
  assert (Hmap : map ss_season (flat_map season_stats_entry hist)
                 = map season (filter has_play hist)).
  { induction hist as [|sd r IH]; [reflexivity|].
    cbn [flat_map filter]. rewrite map_app, IH.
    assert (E : map ss_season (season_stats_entry sd)
                = if has_play sd then [season sd] else []).
    { unfold season_stats_entry, has_play.
      destruct (teams sd) as [|t ts]; [reflexivity|].
      destruct (matchups sd) as [|m ms]; reflexivity. }
    rewrite E. destruct (has_play sd); reflexivity. }
  split; [|split; [|split]].
  - unfold sorted_by_desc. rewrite Zlen_sort.
    rewrite <- (Zlen_map ss_season), Hmap, Zlen_map. reflexivity.
  - rewrite <- Hmap. apply Permutation_map. unfold sorted_by_desc.
    apply sort_stable_perm.
  - apply sorted_by_desc_sorted.
  - intros e He. unfold sorted_by_desc in He. apply sort_stable_In in He.
    apply in_flat_map in He. destruct He as (sd & Hsd & He).
    apply season_stats_entry_spec in He.
    destruct He as (P & S & T & G & C & R & b & w & Hb & Hw & Ib & Iw & Hall).
    exists sd. repeat (split; [assumption|]). exists b, w. auto.
Qed.

End SeasonStatistics.

(* ===================================================================== *)
(** ** The regular-season points leader *)
(* ===================================================================== *)

Section RegularSeasonLeader.
Import Espn Payout Claims Props.

Lemma fold_left_filter {A B} (f : A -> B -> A) (p : B -> bool) (l : list B)
    (a : A) :
  fold_left (fun a x => if p x then f a x else a) l a
  = fold_left f (filter p l) a.
Proof.
  revert a. induction l as [|x r IH]; intros a; simpl; [reflexivity|].
  destruct (p x); simpl; apply IH.
Qed.

Lemma regular_season_totals_entries (ms : list Matchup) :
  regular_season_totals ms = fold_left add_points (regular_entries ms) [].
Proof.
  unfold regular_season_totals, regular_entries.
  generalize (@nil (string * Q)) as d.
  induction ms as [|m r IH]; intros d; simpl; [reflexivity|].
  rewrite fold_left_app, IH. f_equal.
  destruct (playoff m); [reflexivity|].
  apply (fold_left_filter add_points).
Qed.

Lemma add_points_get (l : list MatchupTeam) (d : list (string * Q))
    (o : string) :
  od_get_or String.eqb (0 # 1) (fold_left add_points l d) o
  = fold_left Qplus
      (map (fun t => round2 (score t))
           (filter (fun t => String.eqb (entry_owner t) o) l))
      (od_get_or String.eqb (0 # 1) d o).
Proof.
  revert d. induction l as [|t r IH]; intros d; simpl; [reflexivity|].
  rewrite IH. unfold add_points.
  destruct (String.eqb_spec (entry_owner t) o) as [<-|Hne].
  - rewrite od_get_or_upd_same. reflexivity.
  - rewrite od_get_or_upd_other by exact Hne. reflexivity.
Qed.

Lemma add_points_keys (l : list MatchupTeam) (d : list (string * Q)) :
  NoDup (map fst d) ->
  NoDup (map fst (fold_left add_points l d))
  /\ forall o, In o (map fst (fold_left add_points l d))
               <-> In o (map fst d) \/ In o (map entry_owner l).
Proof.
  revert d. induction l as [|t r IH]; intros d Hnd; simpl.
  - split; [exact Hnd | intros o; tauto].
  - destruct (IH (add_points d t)) as [N I].
    + unfold add_points, od_upd. apply od_set_NoDup, Hnd.
    + split; [exact N|]. intros o. rewrite (I o).
      unfold add_points, od_upd. rewrite od_keys_set.
      destruct (od_mem String.eqb d (entry_owner t)) eqn:E.
      * apply od_mem_In in E. split; [tauto|].
        intros [H|[<-|H]]; auto.
      * rewrite in_app_iff. simpl. tauto.
Qed.

Lemma regular_totals_facts (ms : list Matchup) :
  let totals := regular_season_totals ms in
  NoDup (map fst totals)
  /\ (forall o, In o (map fst totals)
                <-> In o (map entry_owner (regular_entries ms)))
  /\ (forall o pts, In (o, pts) totals -> pts = owner_points ms o).
Proof.
  cbv zeta. rewrite regular_season_totals_entries.
  destruct (add_points_keys (regular_entries ms) [] (NoDup_nil _)) as [N I].
  split; [exact N|]. split.
  - intros o. rewrite (I o). simpl. tauto.
  - intros o pts Hin. apply (od_In_get _ _ _ N) in Hin.
    pose proof (add_points_get (regular_entries ms) [] o) as G.
    unfold od_get_or at 1 in G. rewrite Hin in G. exact G.
Qed.

Lemma leader_of_spec (totals : list (string * Q)) :
  match regular_season_leader_of totals with
  | Some best =>
      In best totals
      /\ forall it, In it totals -> (snd it <= snd best)%Q
  | None => totals = []
  end.
Proof.
  destruct totals as [|first rest]; [reflexivity|].
  unfold regular_season_leader_of.
  apply (max_by_spec (fun a b : string * Q => Qgtb (snd a) (snd b))
           (fun a b => (snd a <= snd b)%Q)).
  - intros x. apply Qle_refl.
  - intros x y z. apply Qle_trans.
  - intros y b H. apply Qgtb_true_iff in H. apply Qlt_le_weak, H.
  - intros y b H. apply Qgtb_false_iff in H. exact H.
Qed.

(** X15.  The regular-season leader that [calculate_season_payouts]
    reports is an owner with a counted regular-season score whose points, the
    sum of their rounded scores above zero in matchups that are not playoff
    games, are not below those of any other owner; the reported points are
    that sum rounded to two places.  No leader is reported exactly when no
    regular-season score counts. *)
Theorem regular_season_leader_has_most_points (year : Z) (sd : Season) :
  let ms := matchups sd in
  match regular_season_leader (season_payouts year sd) with
  | Some lp =>
      lp_points lp = round2 (owner_points ms (lp_owner lp))
      /\ In (lp_owner lp) (map entry_owner (regular_entries ms))
      /\ forall t, In t (regular_entries ms) ->
           (owner_points ms (entry_owner t)
            <= owner_points ms (lp_owner lp))%Q
  | None => regular_entries ms = []
  end.
Proof.
  intros ms. unfold season_payouts. cbv beta iota zeta delta [regular_season_leader].
  fold ms.
  destruct (regular_totals_facts ms) as (N & K & P). cbv zeta in N, K, P.
  pose proof (leader_of_spec (regular_season_totals ms)) as L.
  destruct (regular_season_leader_of (regular_season_totals ms))
    as [[o pts]|].
  - destruct L as [Hin Hmax]. cbn [lp_points lp_owner].
    pose proof (P o pts Hin) as Hpts. split; [rewrite Hpts; reflexivity|].
    split.
    + apply K. apply in_map_iff. exists (o, pts). split; [reflexivity|exact Hin].
    + intros t Ht.
      assert (Hk : In (entry_owner t) (map fst (regular_season_totals ms))).
      { apply K. apply in_map, Ht. }
      apply in_map_iff in Hk. destruct Hk as ([o' pts'] & Ho' & Hin').
      simpl in Ho'. subst o'.
      rewrite <- (P _ _ Hin'), <- Hpts. apply (Hmax _ Hin').
  - destruct (regular_entries ms) as [|t r] eqn:E; [reflexivity|].
    exfalso.
    assert (Hk : In (entry_owner t) (map fst (regular_season_totals ms))).
    { apply K. left. reflexivity. }
    rewrite L in Hk. destruct Hk.
Qed.

End RegularSeasonLeader.

(* ===================================================================== *)
(** ** Completed seasons *)
(* ===================================================================== *)

Section CompletedSeasons.
Import Espn Payout Claims Props.

Lemma calculate_present (hist : list Season) (sd : Season) :
  In sd hist ->
  exists sp, calculate_season_payouts hist (season sd) = inr sp
             /\ sp_season sp = season sd.
Proof.
  intros Hin. unfold calculate_season_payouts.
  destruct (find (fun data => season data =? season sd) hist) as [sd'|] eqn:E.
  - eexists. split; reflexivity.
  - apply (find_none _ _ E) in Hin. apply Z.eqb_neq in Hin. congruence.
Qed.

Lemma all_payouts_years (hist all : list Season) (cur : Z) :
  incl hist all ->
  map sp_season
    (flat_map
       (fun sd =>
          if season sd >=? cur then []
          else match calculate_season_payouts all (season sd) with
               | inr sp => [sp]
               | inl _ => []
               end)
       hist)
  = map season (filter (fun sd => season sd <? cur) hist).
Proof.
  induction hist as [|sd r IH]; intros Hincl; [reflexivity|].
  cbn [flat_map filter]. rewrite map_app, IH
    by (intros x Hx; apply Hincl; right; exact Hx).
  destruct (calculate_present all sd) as (sp & E & Hy);
    [apply Hincl; left; reflexivity|].
  rewrite E.
  destruct (Z.geb_spec (season sd) cur) as [Hge|Hlt];
    destruct (Z.ltb_spec (season sd) cur) as [Hlt'|Hge']; try lia.
  - reflexivity.
  - cbn [map app]. rewrite Hy. reflexivity.
Qed.

(** X16.  [get_all_season_payouts] lists one season payout per
    history record of a year before the current season, most recent year
    first: its test for an error result never removes a season, so a season
    whose fetch failed is listed too. *)
Theorem all_season_payouts_cover_completed_seasons
    (hist : list Season) (current_season : Z) :
  let a := get_all_season_payouts hist current_season in
  let completed := filter (fun sd => season sd <? current_season) hist in
  asp_total_seasons a = Zlen completed
  /\ Permutation (map sp_season (asp_seasons a)) (map season completed)
  /\ sorted_wrt (fun x y => sp_season y <= sp_season x) (asp_seasons a)
  /\ excluded_current_season a = current_season.
Proof.
  intros a completed. subst a completed. unfold get_all_season_payouts.
  cbv beta iota zeta delta [asp_total_seasons asp_seasons excluded_current_season].
  pose proof (all_payouts_years hist hist current_season (incl_refl _)) as Hy.
  split; [|split; [|split]].
  - unfold sorted_by_desc. rewrite Zlen_sort.
    rewrite <- (Zlen_map sp_season), Hy, Zlen_map. reflexivity.
  - rewrite <- Hy. apply Permutation_map. unfold sorted_by_desc.
    apply sort_stable_perm.
  - apply sorted_by_desc_sorted.
  - reflexivity.
Qed.

End CompletedSeasons.

(* ===================================================================== *)
(** ** The weekly-high count written into a description and read back *)
(* ===================================================================== *)

Section WeeklyCount.
Import Espn Payout Claims Props.

Lemma int_of_digits_uint (d : Decimal.uint) (acc : Z) :
  int_of_digits acc (NilEmpty.string_of_uint d) = uint_val acc d.
Proof.
  revert acc. induction d; intros acc;
    cbn [NilEmpty.string_of_uint int_of_digits uint_val];
    first [reflexivity | rewrite IHd; reflexivity].
Qed.

Lemma uint_val_acc (d : Decimal.uint) (p : positive) :
  uint_val (Z.pos p) d = Z.pos (Pos.of_uint_acc d p).
Proof.
  revert p. induction d; intros p; cbn [uint_val Pos.of_uint_acc];
    first [reflexivity | rewrite <- IHd; f_equal; lia].
Qed.

Lemma uint_val_0 (d : Decimal.uint) : uint_val 0 d = Z.of_N (Pos.of_uint d).
Proof.
  induction d; cbn [uint_val Pos.of_uint];
    first [reflexivity | exact IHd | apply uint_val_acc].
Qed.

Lemma all_digits_uint (d : Decimal.uint) :
  all_digits (NilEmpty.string_of_uint d) = true.
Proof.
  induction d; cbn [NilEmpty.string_of_uint all_digits];
    first [reflexivity | rewrite IHd; reflexivity].
Qed.

Lemma take_token_uint (d : Decimal.uint) (rest : string) :
  take_token (NilEmpty.string_of_uint d ++ String " " rest)
  = NilEmpty.string_of_uint d.
Proof.
  induction d; cbn [NilEmpty.string_of_uint append take_token];
    first [reflexivity
          | match goal with
            | |- (if is_space ?c then _ else _) = _ =>
                change (is_space c) with false; cbv iota
            end; rewrite IHd; reflexivity].
Qed.

Lemma lstrip_uint (d : Decimal.uint) (rest : string) :
  d <> Decimal.Nil ->
  lstrip (NilEmpty.string_of_uint d ++ rest) = (NilEmpty.string_of_uint d ++ rest)%string.
Proof.
  intros H. destruct d; [contradiction|..]; reflexivity.
Qed.

Lemma str_of_Z_numeral (n : Z) :
  0 <= n ->
  exists d, d <> Decimal.Nil /\ str_of_Z n = NilEmpty.string_of_uint d
            /\ uint_val 0 d = n.
Proof.
  intros Hn. destruct n as [|p|p]; [| |lia].
  - exists (Decimal.D0 Decimal.Nil). repeat split. discriminate.
  - exists (Pos.to_uint p). split; [apply Unsigned.to_uint_nonnil|]. split.
    + unfold str_of_Z. cbn [Z.to_int NilZero.string_of_int].
      pose proof (Unsigned.to_uint_nonnil p) as H.
      destruct (Pos.to_uint p); [contradiction|..]; reflexivity.
    + rewrite uint_val_0, DecimalPos.Unsigned.of_to. reflexivity.
Qed.

Lemma leading_count_str (n : Z) (rest : string) :
  0 <= n -> leading_count (str_of_Z n ++ String " " rest) = n.
Proof.
  intros Hn. destruct (str_of_Z_numeral n Hn) as (d & Hd & -> & Hv).
  unfold leading_count, first_token.
  rewrite lstrip_uint by exact Hd. rewrite take_token_uint.
  unfold isdigit. rewrite all_digits_uint.
  assert (T : str_truthy (NilEmpty.string_of_uint d) = true)
    by (destruct d; [contradiction|..]; reflexivity).
  rewrite T. cbn [andb]. rewrite int_of_digits_uint. exact Hv.
Qed.

Lemma weekly_detail_count (n : Z) :
  0 <= n -> leading_count (description (weekly_detail n)) = n.
Proof.
  intros Hn. unfold weekly_detail. cbn [description].
  apply (leading_count_str n _ Hn).
Qed.

(** X17.  The number of weekly high scores that
    [calculate_season_payouts] writes into the description of an owner's
    "Weekly High Scores" detail is the number [get_cumulative_payouts] reads
    back from it: counting such a detail adds that number to the owner's
    weekly highs and changes no other counter, and the detail's amount is
    ten times the number. *)
Theorem weekly_high_count_read_back (n : Z) (st : CumStats) :
  0 <= n ->
  let st' := count_detail st (weekly_detail n) in
  leading_count (description (weekly_detail n)) = n
  /\ amount (weekly_detail n) = 10 * n
  /\ cu_weekly_highs st' = cu_weekly_highs st + n
  /\ total_earnings st' = total_earnings st
  /\ cu_championships st' = cu_championships st
  /\ cu_runner_ups st' = cu_runner_ups st
  /\ third_places st' = third_places st
  /\ fourth_places st' = fourth_places st
  /\ most_points_regular st' = most_points_regular st
  /\ seasons_participated st' = seasons_participated st.
Proof.
  intros Hn st'. subst st'.
  pose proof (weekly_detail_count n Hn) as H.
  split; [exact H|]. split; [unfold weekly_detail; cbn [amount]; cbv [PAYOUT_STRUCTURE ps_weekly_high]; lia|].
  unfold count_detail.
  change (d_type (weekly_detail n)) with "Weekly High Scores"%string.
  cbn [String.eqb Ascii.eqb Bool.eqb].
  cbn [cu_weekly_highs total_earnings cu_championships cu_runner_ups
       third_places fourth_places most_points_regular seasons_participated].
  rewrite H. repeat split.
Qed.

Lemma weekly_high_count_read_back_witness :
  leading_count (description (weekly_detail 12)) = 12
  /\ cu_weekly_highs (count_detail cum_default (weekly_detail 12)) = 12.
Proof.
  destruct (weekly_high_count_read_back 12 cum_default ltac:(lia))
    as (H1 & _ & H2 & _).
  split; [exact H1 | exact H2].
Defined.

End WeeklyCount.

(* ===================================================================== *)
(** ** Current standings *)
(* ===================================================================== *)

Section CurrentStandings.
Import Espn Claims Props.

Lemma Qleb_true_iff (x y : Q) : Qleb x y = true <-> (x <= y)%Q.
Proof.
  unfold Qleb. rewrite negb_true_iff. apply Qgtb_false_iff.
Qed.

Lemma Qleb_false_iff (x y : Q) : Qleb x y = false <-> (y < x)%Q.
Proof.
  unfold Qleb. rewrite negb_false_iff. apply Qgtb_true_iff.
Qed.

Lemma standing_leb_iff (x y : Standing) :
  standing_leb x y = true <->
  seed_or_999 x < seed_or_999 y
  \/ (seed_or_999 x = seed_or_999 y
      /\ (- st_wins x < - st_wins y
          \/ (- st_wins x = - st_wins y
              /\ (- st_points_for x <= - st_points_for y)%Q))).
Proof.
  unfold standing_leb, seed_or_999. cbv zeta.
  rewrite !orb_true_iff, !andb_true_iff, !orb_true_iff, !andb_true_iff,
    !Z.ltb_lt, !Z.eqb_eq, Qleb_true_iff.
  reflexivity.
Qed.

Lemma standing_leb_total (x y : Standing) :
  standing_leb x y = false -> standing_leb y x = true.
Proof.
  intros H. apply standing_leb_iff.
  assert (N : ~ (standing_leb x y = true)) by (rewrite H; discriminate).
  rewrite standing_leb_iff in N.
  destruct (Z.lt_trichotomy (seed_or_999 x) (seed_or_999 y)) as [L|[E|G]];
    [exfalso; apply N; left; exact L | | left; exact G].
  right. split; [symmetry; exact E|].
  destruct (Z.lt_trichotomy (- st_wins x) (- st_wins y)) as [L|[E'|G]];
    [exfalso; apply N; right; split; [exact E | left; exact L]
    | | left; exact G].
  right. split; [symmetry; exact E'|].
  destruct (Qlt_le_dec (- st_points_for y) (- st_points_for x)) as [L|L].
  - apply Qlt_le_weak, L.
  - exfalso. apply N. right. split; [exact E|]. right. split; assumption.
Qed.

Lemma standing_leb_trans (x y z : Standing) :
  standing_leb x y = true -> standing_leb y z = true ->
  standing_leb x z = true.
Proof.
  rewrite !standing_leb_iff.
  intros [H1|[E1 [H1|[F1 Q1]]]] [H2|[E2 [H2|[F2 Q2]]]];
    try (left; lia); try (right; split; [lia|]; left; lia).
  right. split; [lia|]. right. split; [lia|].
  eapply Qle_trans; eassumption.
Qed.

Lemma standing_leb_seed (x y : Standing) :
  standing_leb x y = true -> seed_or_999 x <= seed_or_999 y.
Proof. rewrite standing_leb_iff. lia. Qed.

Lemma standing_returns (rt : RawTeam) :
  exists s, standing rt = inr s
            /\ st_id s = rt_id rt
            /\ resolved_owner (st_owner s)
            /\ str_truthy (st_name s) = true.
Proof.
  unfold standing, bind, ret. cbv zeta.
  destruct (_map_team_to_owner (py_of_id (rt_id rt))) as [e|owner] eqn:E.
  - destruct (map_team_to_owner_id (rt_id rt)) as [o Ho]. congruence.
  - eexists. split; [reflexivity|]. cbn [st_id st_owner st_name].
    split; [reflexivity|]. split.
    + apply (map_team_to_owner_resolved _ _ E).
    + apply team_name_truthy.
Qed.

Lemma mapM_standing (ts : list RawTeam) :
  exists sts, mapM standing ts = inr sts
              /\ map st_id sts = map rt_id ts
              /\ forall s, In s sts ->
                   resolved_owner (st_owner s) /\ str_truthy (st_name s) = true.
Proof.
  induction ts as [|rt r IH].
  - exists []. split; [reflexivity|]. split; [reflexivity|]. intros s [].
  - destruct IH as (sts & E & Hid & Hall).
    destruct (standing_returns rt) as (s & Es & Hs & Ho & Hn).
    exists (s :: sts). cbn [mapM]. unfold bind, ret. rewrite Es, E.
    split; [reflexivity|]. split.
    + cbn [map]. rewrite Hs, Hid. reflexivity.
    + intros s' [<-|Hin]; [split; assumption | apply Hall, Hin].
Qed.

(** X18.  [get_current_season] always returns a result for the current
    season, and [total_teams] is the number of its standings.  When the team
    request fails on every host, or answers with a JSON array, the result
    has no standings and carries the exception's text; whenever the result
    carries an error it has no standings.  Whenever the result carries no
    error, the request was answered with a JSON object and there is one
    standing per team of the response.  The standings are ordered by playoff
    seed with seed 0 last, each with a non-empty name and an owner of the
    identity table or "Unknown Owner". *)
Theorem current_season_standings (cfg : ServiceConfig) (net : Network) :
  let cs := get_current_season cfg net in
  let request :=
    _make_request cfg net (CURRENT_SEASON cfg) [("view", "mTeam")] in
  cs_season cs = CURRENT_SEASON cfg
  /\ total_teams cs = Zlen (standings cs)
  /\ sorted_wrt (fun a b => seed_or_999 a <= seed_or_999 b) (standings cs)
  /\ (forall s, In s (standings cs) ->
        resolved_owner (st_owner s) /\ str_truthy (st_name s) = true)
  /\ (forall e, request = inl e ->
        standings cs = [] /\ cs_error cs = Some e)
  /\ (request = inr JArray ->
        standings cs = []
        /\ cs_error cs = Some "'list' object has no attribute 'get'")
  /\ (cs_error cs <> None -> standings cs = [] /\ total_teams cs = 0)
  /\ (cs_error cs = None ->
        exists ts sch,
          request = inr (JObject ts sch)
          /\ Permutation (map st_id (standings cs))
                         (map rt_id (opt_or ts []))).
Proof.
  intros cs request. subst cs request. unfold get_current_season. cbv zeta.
  unfold bind, ret, body_teams, raise.
  destruct (_make_request cfg net (CURRENT_SEASON cfg) [("view", "mTeam")])
    as [e|body] eqn:R.
  - cbn [cs_season total_teams standings cs_error].
    split; [reflexivity|]. split; [reflexivity|].
    split; [constructor|]. split; [intros s []|].
    split; [intros e' [= <-]; split; reflexivity|].
    split; [discriminate|]. split; [intros _; split; reflexivity|].
    discriminate.
  - destruct body as [ts sch|].
    + destruct (mapM_standing (opt_or ts [])) as (sts & E & Hid & Hall).
      cbv beta iota delta [ret raise]. rewrite E.
      cbn [cs_season total_teams standings cs_error].
      split; [reflexivity|]. split; [reflexivity|]. split.
      { unfold sorted_wrt.
        apply (StronglySorted_weaken (fun a b => standing_leb a b = true)).
        - apply standing_leb_seed.
        - apply sort_stable_sorted.
          + apply standing_leb_total.
          + apply standing_leb_trans. }
      split.
      { intros s Hs. apply sort_stable_In in Hs. apply Hall, Hs. }
      split; [discriminate|]. split; [discriminate|].
      split; [intros H; contradiction H; reflexivity|].
      intros _. exists ts, sch. split; [reflexivity|].
      rewrite <- Hid. apply Permutation_map, sort_stable_perm.
    + cbn [cs_season total_teams standings cs_error].
      split; [reflexivity|]. split; [reflexivity|].
      split; [constructor|]. split; [intros s []|].
      split; [discriminate|]. split; [intros _; split; reflexivity|].
      split; [intros _; split; reflexivity|]. discriminate.
Qed.

End CurrentStandings.
